(** * Retrieval and orchestration core of the RAG system

    A shallow embedding of the scoring, ranking, context-assembly and
    agent-coordination code under [app/services], followed by the properties
    of that code.

    Conventions of the embedding.
    - Python [str] is [string]; texts are taken to be ASCII, so [lower],
      [upper], [\w] and [split()] are the ASCII ones.
    - Python [float] is read as an exact number: [Q] where the code only
      adds, multiplies, divides and compares, [R] in the scorers, which call
      [math.log], [math.sqrt] and [** 0.5].  Where rounding decides, the
      scorer is given again in binary64 arithmetic ([FloatScores]).
    - A Python exception is a value of [exn]; a function that may raise
      returns [result].  [try ... except Exception] is a [match] on it.
    - Collaborators (document store, cache, executors) appear as the outcome
      of each call made to them. *)

From Stdlib Require Import List Arith ZArith QArith Qminmax Bool Lia.
From Stdlib Require Import Ascii String.
From Stdlib Require Import Reals Lra Psatz.
From Stdlib Require Floats.
From Stdlib Require Import Sorting.Sorted Sorting.Permutation FinFun.
Import ListNotations.

Set Implicit Arguments.

(* ================================================================== *)
(** * Python strings *)
(* ================================================================== *)

Module PyStr.

Open Scope string_scope.

Definition is_upper (c : ascii) : bool :=
  let n := nat_of_ascii c in (65 <=? n)%nat && (n <=? 90)%nat.

Definition is_lower (c : ascii) : bool :=
  let n := nat_of_ascii c in (97 <=? n)%nat && (n <=? 122)%nat.

Definition is_digit (c : ascii) : bool :=
  let n := nat_of_ascii c in (48 <=? n)%nat && (n <=? 57)%nat.

(** [str.isspace] on ASCII: tab, newline, vertical tab, form feed, carriage
    return, the four separators 28..31 and the blank. *)
Definition is_space (c : ascii) : bool :=
  let n := nat_of_ascii c in
  ((9 <=? n)%nat && (n <=? 13)%nat) || ((28 <=? n)%nat && (n <=? 32)%nat).

(** The class [\w] of [re] on ASCII. *)
Definition is_word (c : ascii) : bool :=
  is_upper c || is_lower c || is_digit c || (nat_of_ascii c =? 95)%nat.

Definition lower_char (c : ascii) : ascii :=
  if is_upper c then ascii_of_nat (nat_of_ascii c + 32) else c.

Definition upper_char (c : ascii) : ascii :=
  if is_lower c then ascii_of_nat (nat_of_ascii c - 32) else c.

Fixpoint map_chars (f : ascii -> ascii) (s : string) : string :=
  match s with
  | EmptyString => EmptyString
  | String c s' => String (f c) (map_chars f s')
  end.

(** [s.lower()] and [s.upper()] of an ASCII text: the 26 letters change
    case and every other character stays. *)
Definition lower : string -> string := map_chars lower_char.
Definition upper : string -> string := map_chars upper_char.

(** [sub in s] *)
Fixpoint contains (sub s : string) : bool :=
  match s with
  | EmptyString => prefix sub EmptyString
  | String _ s' => prefix sub s || contains sub s'
  end.

(** [s.count(sub)]: occurrences that do not overlap, scanning from the left.
    [skip] is the number of characters still covered by the last match. *)
Fixpoint count_from (sub s : string) (skip : nat) : nat :=
  match s with
  | EmptyString => 0
  | String _ s' =>
      match skip with
      | S k => count_from sub s' k
      | O => if prefix sub s
             then S (count_from sub s' (String.length sub - 1))
             else count_from sub s' 0
      end
  end.

Definition count (s sub : string) : nat :=
  match sub with
  | EmptyString => S (String.length s)
  | _ => count_from sub s 0
  end.

(** [s.split()]: the maximal runs of characters that are not white space.
    [cur] is the run being read, kept reversed. *)
Fixpoint rev_string (acc s : string) : string :=
  match s with
  | EmptyString => acc
  | String c s' => rev_string (String c acc) s'
  end.

Definition flush (cur : string) : list string :=
  match cur with
  | EmptyString => []
  | _ => [rev_string EmptyString cur]
  end.

Fixpoint runs (keep : ascii -> bool) (cur s : string) : list string :=
  match s with
  | EmptyString => flush cur
  | String c s' =>
      if keep c then runs keep (String c cur) s'
      else flush cur ++ runs keep EmptyString s'
  end.

Definition split (s : string) : list string :=
  runs (fun c => negb (is_space c)) EmptyString s.

(** [re.findall(r'\b\w+\b', s)]: the maximal runs of word characters. *)
Definition findall_words (s : string) : list string :=
  runs is_word EmptyString s.

(** [sep.join(l)] *)
Fixpoint join (sep : string) (l : list string) : string :=
  match l with
  | [] => EmptyString
  | [x] => x
  | x :: rest => x ++ sep ++ join sep rest
  end.

(** [str(n)] for a natural number. *)
Definition digit_char (d : nat) : ascii := ascii_of_nat (48 + d).

Fixpoint nat_digits (fuel n : nat) (acc : string) : string :=
  match fuel with
  | O => acc
  | S f =>
      let acc' := String (digit_char (n mod 10)) acc in
      if (n / 10 =? 0)%nat then acc' else nat_digits f (n / 10) acc'
  end.

Definition str_of_nat (n : nat) : string := nat_digits (S n) n EmptyString.

(** Membership in a list of strings, [x in l]. *)
Definition mem (x : string) (l : list string) : bool :=
  existsb (String.eqb x) l.

(** [set(l)] keeps one copy of each element; only sizes and membership of
    the sets are ever used by the code. *)
Definition to_set (l : list string) : list string :=
  nodup string_dec l.

Definition inter (a b : list string) : list string :=
  filter (fun x => mem x b) a.

(** [a.union(b)] for duplicate-free [a] and [b]. *)
Definition union (a b : list string) : list string :=
  a ++ filter (fun x => negb (mem x a)) b.

End PyStr.

(* ================================================================== *)
(** * Python values, exceptions and slices *)
(* ================================================================== *)

Module Py.

Import PyStr.

Inductive exn :=
| ValueError | TypeError | OverflowError | ZeroDivisionError
| Failure (msg : string).

Inductive result (A : Type) :=
| Ok (a : A)
| Raise (e : exn).

Arguments Ok {A} a.
Arguments Raise {A} e.

Definition bind {A B} (c : result A) (k : A -> result B) : result B :=
  match c with
  | Ok a => k a
  | Raise e => Raise e
  end.

Definition is_ok {A} (c : result A) : bool :=
  match c with Ok _ => true | Raise _ => false end.

(** A Python [float]: a finite number or one of the three special values. *)
Inductive py_float :=
| Finite (q : Q)
| NaN
| PosInf
| NegInf.

(** The values an untyped argument such as [top_k] may carry.  [PyObject] is
    an object with neither a numeric conversion nor [*], a [dict] say. *)
Inductive py_value :=
| PyNone
| PyInt (z : Z)
| PyFloat (f : py_float)
| PyStr (s : string)
| PyObject.

(** Decimal digits with single underscores between them, as [int(str)]
    accepts. *)
Fixpoint digits (l : list ascii) (acc : Z) (after_digit : bool) : option Z :=
  match l with
  | [] => if after_digit then Some acc else None
  | c :: l' =>
      if is_digit c
      then digits l' (10 * acc + Z.of_nat (nat_of_ascii c - 48)) true
      else if (nat_of_ascii c =? 95)%nat && after_digit
           then digits l' acc false
           else None
  end.

(** The white space [int(str)] skips at either end of an ASCII text: the
    space and the characters 9 to 13.  The separators 28 to 31, which
    [str.strip] and [str.split] also take for white space, are not skipped
    and make the text no number. *)
Definition is_int_space (c : ascii) : bool :=
  let n := nat_of_ascii c in
  ((n =? 32) || ((9 <=? n) && (n <=? 13)))%nat.

Fixpoint lstrip (l : list ascii) : list ascii :=
  match l with
  | c :: l' => if is_int_space c then lstrip l' else l
  | [] => []
  end.

Definition strip (l : list ascii) : list ascii :=
  rev (lstrip (rev (lstrip l))).

(** The interpreter's default limit on the digits of a decimal text
    ([sys.int_info.default_max_str_digits]); a longer one is a
    [ValueError]. *)
Definition max_str_digits : nat := 43 * 100.

(** [int(s)] for an ASCII text, base ten. *)
Definition int_of_string (s : string) : option Z :=
  match strip (list_ascii_of_string s) with
  | c :: l =>
      if (max_str_digits <? List.length (filter is_digit (c :: l)))%nat
      then None
      else if (nat_of_ascii c =? 45)%nat then option_map Z.opp (digits l 0 false)
      else if (nat_of_ascii c =? 43)%nat then digits l 0 false
      else digits (c :: l) 0 false
  | [] => None
  end.

(** The builtin [int(v)]. *)
Definition int_of (v : py_value) : result Z :=
  match v with
  | PyNone => Raise TypeError
  | PyInt z => Ok z
  | PyFloat (Finite q) => Ok (Z.quot (Qnum q) (Zpos (Qden q)))
  | PyFloat NaN => Raise ValueError
  | PyFloat PosInf => Raise OverflowError
  | PyFloat NegInf => Raise OverflowError
  | PyStr s =>
      match int_of_string s with
      | Some z => Ok z
      | None => Raise ValueError
      end
  | PyObject => Raise TypeError
  end.

(** [v * 2] *)
Definition times2 (v : py_value) : result py_value :=
  match v with
  | PyNone => Raise TypeError
  | PyInt z => Ok (PyInt (z * 2))
  | PyFloat (Finite q) => Ok (PyFloat (Finite (q * 2)))
  | PyFloat f => Ok (PyFloat f)
  | PyStr s => Ok (PyStr (s ++ s))
  | PyObject => Raise TypeError
  end.

(** [l[:n]] for an integer [n]: a negative [n] counts from the end. *)
Definition slice_int {A} (l : list A) (n : Z) : list A :=
  if (n <? 0)%Z
  then firstn (Z.to_nat (Z.of_nat (List.length l) + n)) l
  else firstn (Z.to_nat n) l.

(** [l[:v]] *)
Definition slice_to {A} (l : list A) (v : py_value) : result (list A) :=
  match v with
  | PyNone => Ok l
  | PyInt n => Ok (slice_int l n)
  | _ => Raise TypeError
  end.

End Py.

Notation "x <- c ;; k" := (Py.bind c (fun x => k))
  (at level 61, c at next level, right associativity).

(* ================================================================== *)
(** * similarity_engine.py *)
(* ================================================================== *)

Module SimilarityEngine.

Import PyStr Py.
Open Scope string_scope.

(** A document dictionary; a missing key reads as the empty string, as
    [doc.get(key, '')] does. *)
Record Doc := {
  doc_id : string;
  title : string;
  content : string
}.

Definition stop_words : list string :=
  [ "the"; "a"; "an"; "and"; "or"; "but"; "in"; "on"; "at"; "to"; "for";
    "of"; "with"; "by"; "is"; "are"; "was"; "were"; "be"; "been"; "being";
    "have"; "has"; "had"; "do"; "does"; "did"; "will"; "would"; "could";
    "should"; "may"; "might"; "must"; "can"; "this"; "that"; "these";
    "those"; "i"; "you"; "he"; "she"; "it"; "we"; "they"; "me"; "him";
    "her"; "us"; "them"; "my"; "your"; "his"; "her"; "its"; "our"; "their" ].

Definition preprocess_text (text : string) : list string :=
  filter (fun word => negb (mem word stop_words)
                      && (2 <? String.length word)%nat)
         (findall_words (lower text)).

(** [Counter(words).get(word, 0)] *)
Definition counter_get (words : list string) (word : string) : nat :=
  count_occ string_dec words word.

Open Scope R_scope.

(** A sparse vector, [Dict[str, float]]; [vec.get(key, 0.0)]. *)
Definition vector := list (string * R).

Fixpoint vec_get (v : vector) (key : string) : R :=
  match v with
  | [] => 0
  | (k, x) :: v' => if String.eqb key k then x else vec_get v' key
  end.

Definition sum_over (keys : list string) (f : string -> R) : R :=
  fold_right (fun k acc => f k + acc) 0 keys.

Definition _cosine_similarity (vec1 vec2 : vector) : R :=
  let all_keys := to_set (map fst vec1 ++ map fst vec2) in
  let dot_product := sum_over all_keys (fun k => vec_get vec1 k * vec_get vec2 k) in
  let magnitude1 := sqrt (sum_over all_keys (fun k => vec_get vec1 k * vec_get vec1 k)) in
  let magnitude2 := sqrt (sum_over all_keys (fun k => vec_get vec2 k * vec_get vec2 k)) in
  if Req_dec_T magnitude1 0 then 0
  else if Req_dec_T magnitude2 0 then 0
  else dot_product / (magnitude1 * magnitude2).

(** [tf * idf[word]] for every word of the vocabulary; [tf] is 0 for an
    empty token list. *)
Definition tf_idf_vector (all_words : list string) (idf : string -> R)
    (words : list string) : vector :=
  map (fun word =>
         let tf := match words with
                   | [] => 0
                   | _ => INR (counter_get words word) / INR (List.length words)
                   end in
         (word, tf * idf word))
      all_words.

Definition calculate_tf_idf_similarity (query_text : string)
    (documents : list Doc) : list (Doc * R) :=
  match documents with
  | [] => []
  | _ =>
    let query_words := preprocess_text query_text in
    match query_words with
    | [] => map (fun doc => (doc, 0)) documents
    | _ =>
      let doc_words :=
        map (fun doc => preprocess_text (content doc ++ " " ++ title doc))
            documents in
      let all_words := to_set (query_words ++ List.concat doc_words) in
      let doc_count := List.length documents in
      let idf word :=
        let docs_with_word :=
          List.length (filter (fun words => mem word words) doc_words) in
        ln (INR doc_count / INR (1 + docs_with_word)) in
      let query_vector := tf_idf_vector all_words idf query_words in
      map (fun dw =>
             (fst dw,
              _cosine_similarity query_vector
                                 (tf_idf_vector all_words idf (snd dw))))
          (combine documents doc_words)
    end
  end.

Definition calculate_jaccard_similarity (query_text : string)
    (documents : list Doc) : list (Doc * R) :=
  let query_words := to_set (preprocess_text query_text) in
  match query_words with
  | [] => map (fun doc => (doc, 0)) documents
  | _ =>
    map (fun doc =>
           let doc_words :=
             to_set (preprocess_text (content doc ++ " " ++ title doc)) in
           match doc_words with
           | [] => (doc, 0)
           | _ =>
             let intersection := List.length (inter query_words doc_words) in
             let union := List.length (PyStr.union query_words doc_words) in
             (doc, if (0 <? union)%nat
                   then INR intersection / INR union else 0)
           end)
        documents
  end.

Definition _calculate_title_similarity (query title : string) : R :=
  match title with
  | EmptyString => 0
  | _ =>
    if contains (lower query) (lower title) then 1
    else
      let query_words := to_set (preprocess_text query) in
      let title_words := to_set (preprocess_text title) in
      match query_words, title_words with
      | [], _ => 0
      | _, [] => 0
      | _, _ =>
        INR (List.length (inter query_words title_words))
        / INR (List.length query_words)
      end
  end.

Definition _calculate_content_similarity (query_words : list string)
    (content : string) : R :=
  match content, query_words with
  | EmptyString, _ => 0
  | _, [] => 0
  | _, _ =>
    let content_words := preprocess_text content in
    match content_words with
    | [] => 0
    | _ =>
      let matches :=
        fold_right (fun word acc => (counter_get content_words word + acc)%nat)
                   0%nat query_words in
      Rmin (INR matches / sqrt (INR (List.length content_words))) 1
    end
  end.

Definition _calculate_keyword_similarity (query_words : list string)
    (content : string) : R :=
  match content, query_words with
  | EmptyString, _ => 0
  | _, [] => 0
  | _, _ =>
    let content_lower := lower content in
    let query_phrase := join " " query_words in
    if contains query_phrase content_lower then 1
    else
      let matches :=
        fold_right
          (fun word acc =>
             if contains word content_lower
             then Rmin (INR (PyStr.count content_lower word) * (3 / 10)) 1 + acc
             else acc)
          0 query_words in
      let total_words := List.length query_words in
      if (0 <? total_words)%nat then matches / INR total_words else 0
  end.

Definition calculate_semantic_similarity (query_text : string)
    (documents : list Doc) : list (Doc * R) :=
  let query_words := preprocess_text query_text in
  match query_words with
  | [] => map (fun doc => (doc, 0)) documents
  | _ =>
    map (fun doc =>
           let title_similarity :=
             _calculate_title_similarity query_text (title doc) in
           let content_similarity :=
             _calculate_content_similarity query_words (content doc) in
           let keyword_similarity :=
             _calculate_keyword_similarity query_words (content doc) in
           (doc, title_similarity * (4 / 10)
                 + content_similarity * (4 / 10)
                 + keyword_similarity * (2 / 10)))
        documents
  end.

(** The [weights] dictionary of [calculate_hybrid_similarity]. *)
Record Weights := { w_tfidf : R; w_jaccard : R; w_semantic : R }.

Definition default_weights : Weights :=
  {| w_tfidf := 4 / 10; w_jaccard := 2 / 10; w_semantic := 4 / 10 |}.

(** [sims[i][1]]; the three lists have one entry per document. *)
Definition score_at (sims : list (Doc * R)) (i : nat) : R :=
  snd (nth i sims ({| doc_id := ""; title := ""; content := "" |}, 0)).

Definition calculate_hybrid_similarity (query_text : string)
    (documents : list Doc) (weights : option Weights) : list (Doc * R) :=
  match documents with
  | [] => []
  | _ =>
    let weights := match weights with Some w => w | None => default_weights end in
    let tfidf_sims := calculate_tf_idf_similarity query_text documents in
    let jaccard_sims := calculate_jaccard_similarity query_text documents in
    let semantic_sims := calculate_semantic_similarity query_text documents in
    map (fun id =>
           (snd id,
            score_at tfidf_sims (fst id) * w_tfidf weights
            + score_at jaccard_sims (fst id) * w_jaccard weights
            + score_at semantic_sims (fst id) * w_semantic weights))
        (combine (seq 0 (List.length documents)) documents)
  end.

Definition calculate_similarity (query_text : string) (documents : list Doc)
    (algorithm : string) : list (Doc * R) :=
  if String.eqb algorithm "tfidf"
  then calculate_tf_idf_similarity query_text documents
  else if String.eqb algorithm "jaccard"
  then calculate_jaccard_similarity query_text documents
  else if String.eqb algorithm "hybrid"
  then calculate_hybrid_similarity query_text documents None
  else calculate_semantic_similarity query_text documents.

Close Scope R_scope.

(** ** Ranking.  The ranker only compares scores, so it is written once for
    any score type with its [>=] test. *)

Section Ranker.

Variable score : Type.
Variable score_ge : score -> score -> bool.
(** the literal [0.1] *)
Variable one_tenth : score.

(** [doc.copy()] with ['similarity_score'] set. *)
Record Ranked := { ranked_doc : Doc; similarity_score : score }.

(** [sorted(l, key=lambda x: x[1], reverse=True)]: stable, so among equal
    scores the input order is kept. *)
Fixpoint insert_desc (x : Doc * score) (l : list (Doc * score))
  : list (Doc * score) :=
  match l with
  | [] => [x]
  | y :: l' =>
      if score_ge (snd x) (snd y) then x :: y :: l'
      else y :: insert_desc x l'
  end.

Definition sorted_desc (l : list (Doc * score)) : list (Doc * score) :=
  fold_right insert_desc [] l.

(** The first [try] block of [rank_documents]: it catches [ValueError] and
    [TypeError] only. *)
Definition coerce_top_k (top_k : py_value) : result Z :=
  match top_k with
  | PyNone => Ok 5%Z
  | _ =>
      match int_of top_k with
      | Ok k => Ok (if (k <=? 0)%Z then 5%Z else k)
      | Raise ValueError => Ok 5%Z
      | Raise TypeError => Ok 5%Z
      | Raise e => Raise e
      end
  end.

(** [similarity_threshold] is a float or [None]. *)
Definition coerce_threshold (similarity_threshold : option score) : score :=
  match similarity_threshold with
  | Some t => t
  | None => one_tenth
  end.

Definition rank_documents (similarities : list (Doc * score))
    (top_k : py_value) (similarity_threshold : option score)
  : result (list Ranked) :=
  top_k <- coerce_top_k top_k ;;
  let similarity_threshold := coerce_threshold similarity_threshold in
  let filtered :=
    filter (fun ds => score_ge (snd ds) similarity_threshold) similarities in
  let sorted_docs := sorted_desc filtered in
  Ok (map (fun ds => {| ranked_doc := fst ds; similarity_score := snd ds |})
          (slice_int sorted_docs top_k)).

(** The same two functions with the builtin left open: [py_int v] is what
    [int(v)] does in the interpreter at hand, whatever its version, its
    digit limit and the alphabet of a text [v]. *)
Definition coerce_top_k_with (py_int : py_value -> result Z)
    (top_k : py_value) : result Z :=
  match top_k with
  | PyNone => Ok 5%Z
  | _ =>
      match py_int top_k with
      | Ok k => Ok (if (k <=? 0)%Z then 5%Z else k)
      | Raise ValueError => Ok 5%Z
      | Raise TypeError => Ok 5%Z
      | Raise e => Raise e
      end
  end.

Definition rank_documents_with (py_int : py_value -> result Z)
    (similarities : list (Doc * score)) (top_k : py_value)
    (similarity_threshold : option score) : result (list Ranked) :=
  top_k <- coerce_top_k_with py_int top_k ;;
  let similarity_threshold := coerce_threshold similarity_threshold in
  let filtered :=
    filter (fun ds => score_ge (snd ds) similarity_threshold) similarities in
  let sorted_docs := sorted_desc filtered in
  Ok (map (fun ds => {| ranked_doc := fst ds; similarity_score := snd ds |})
          (slice_int sorted_docs top_k)).

End Ranker.

Definition Rge_bool (a b : R) : bool := if Rle_dec b a then true else false.

Definition Qge_bool (a b : Q) : bool := Qle_bool b a.

End SimilarityEngine.

(* ================================================================== *)
(** * rag_engine.py *)
(* ================================================================== *)

Module RAGEngine.

Import PyStr Py SimilarityEngine.
Open Scope string_scope.

(** The newline of the f-strings. *)
Definition nl : string := String (ascii_of_nat 10) EmptyString.

(** ** TokenManager *)

(** [encoder] is the tiktoken encoding when the package could be loaded;
    what it does on a text is outside the repository, so it is a field. *)
Record TokenManager := {
  encoder : option (string -> result nat)
}.

(** [int(len(text.split()) * 1.3)].  The product differs from [13 * n / 10]
    by less than the distance of that fraction to the next integer, so the
    truncation is the integer quotient. *)
Definition estimate_tokens (text : string) : nat :=
  (13 * List.length (split text)) / 10.

Definition count_tokens (tm : TokenManager) (text : string) : nat :=
  match encoder tm with
  | Some encode =>
      match encode text with
      | Ok n => n
      | Raise _ => estimate_tokens text
      end
  | None => estimate_tokens text
  end.

(** The [while left < right] loop of [truncate_to_tokens]; every turn shrinks
    [right - left], so [fuel] turns are enough when [right - left <= fuel]. *)
Fixpoint search_prefix (tm : TokenManager) (words : list string)
    (max_tokens fuel left right : nat) : nat :=
  match fuel with
  | O => left
  | S fuel' =>
      if (left <? right)%nat then
        let mid := ((left + right + 1) / 2)%nat in
        let truncated := join " " (firstn mid words) in
        if (count_tokens tm truncated <=? max_tokens)%nat
        then search_prefix tm words max_tokens fuel' mid right
        else search_prefix tm words max_tokens fuel' left (mid - 1)
      else left
  end.

Definition truncate_to_tokens (tm : TokenManager) (text : string)
    (max_tokens : nat) : string :=
  if (count_tokens tm text <=? max_tokens)%nat then text
  else
    let words := split text in
    let left :=
      search_prefix tm words max_tokens (List.length words) 0
                    (List.length words) in
    join " " (firstn left words) ++ "...".

(** ** RAGEngine *)

Record Engine := {
  token_manager : TokenManager;
  max_context_tokens : nat;
  similarity_threshold : R
}.

(** [RAGEngine.__init__] *)
Definition init (tm : TokenManager) : Engine :=
  {| token_manager := tm;
     max_context_tokens := 6000;
     similarity_threshold := (5 / 100)%R |}.

Definition _validate_top_k (top_k : Z) : Z :=
  if (top_k <? 0)%Z then 1%Z
  else if (top_k =? 0)%Z then 1%Z
  else if (50 <? top_k)%Z then 50%Z
  else top_k.

(** A search result as [_prepare_optimized_context] reads it: the keys
    ['title'], ['content'] and ['text'], each of which may be missing. *)
Record CtxResult := {
  ctx_title : option string;
  ctx_content : option string;
  ctx_text : option string
}.

Definition entry_title (i : nat) (result : CtxResult) : string :=
  match ctx_title result with
  | Some t => t
  | None => "Document " ++ str_of_nat (i + 1)
  end.

Definition entry_content (result : CtxResult) : string :=
  match ctx_content result with
  | Some c => c
  | None => match ctx_text result with Some t => t | None => "" end
  end.

(** [f"**{title}**\n{content}\n"] *)
Definition format_entry (title content : string) : string :=
  "**" ++ title ++ "**" ++ nl ++ content ++ nl.

(** The [for i, result in enumerate(search_results)] loop with its [break];
    the value is [context_parts]. *)
Fixpoint context_parts (self : Engine) (i : nat) (results : list CtxResult)
    (total_tokens : nat) : list string :=
  match results with
  | [] => []
  | result :: rest =>
      let title := entry_title i result in
      let content := entry_content result in
      let entry := format_entry title content in
      let entry_tokens := count_tokens (token_manager self) entry in
      if (max_context_tokens self <? total_tokens + entry_tokens)%nat then
        let remaining_tokens :=
          (Z.of_nat (max_context_tokens self) - Z.of_nat total_tokens - 50)%Z in
        if (100 <? remaining_tokens)%Z then
          let truncated_content :=
            truncate_to_tokens (token_manager self) content
                               (Z.to_nat remaining_tokens) in
          [format_entry title truncated_content]
        else []
      else
        entry :: context_parts self (S i) rest (total_tokens + entry_tokens)
  end.


(** ** The document store and the cache *)

(** A row of the [documents] table; [None] is SQL NULL. *)
Record Row := {
  row_id : string;
  row_title : option string;
  row_content : option string
}.

(** The key [f"similarity_search:{hash(query)}:{top_k}:{algorithm}"]: it is
    made of the query, [top_k] and the algorithm, and of nothing else. *)
Definition CacheKey : Type := string * py_value * string.

(** What the collaborators answer during one call of [similarity_search]. *)
Record Env := {
  cache_get : CacheKey -> result (option (list (Ranked R)));
  cache_set : CacheKey -> list (Ranked R) -> result unit;
  execute_query : result (list Row)
}.

Definition blank (s : string) : bool :=
  forallb is_space (list_ascii_of_string s).

Definition row_to_doc (row : Row) : option Doc :=
  match row_content row with
  | None => None
  | Some c =>
      if blank c then None
      else Some {| doc_id := row_id row;
                   title := match row_title row with
                            | Some EmptyString => "Untitled"
                            | Some t => t
                            | None => "Untitled"
                            end;
                   content := c |}
  end.

Fixpoint valid_documents (rows : list Row) : list Doc :=
  match rows with
  | [] => []
  | row :: rest =>
      match row_to_doc row with
      | Some d => d :: valid_documents rest
      | None => valid_documents rest
      end
  end.

Definition _get_all_documents (env : Env) : list Doc :=
  match execute_query env with
  | Ok rows => valid_documents rows
  | Raise _ => []
  end.

(** The body of the [try] of [similarity_search]. *)
Definition similarity_search_body (self : Engine) (env : Env)
    (query : string) (top_k : py_value) (threshold : option R)
    (algorithm : string) : result (list (Ranked R)) :=
  let threshold :=
    match threshold with
    | None => similarity_threshold self
    | Some t => t
    end in
  let cache_key := (query, top_k, algorithm) in
  cached_result <- cache_get env cache_key ;;
  match cached_result with
  | Some (r :: rs) => Ok (r :: rs)
  | _ =>
    let documents := _get_all_documents env in
    match documents with
    | [] => Ok []
    | _ =>
      let similarities :=
        if String.eqb algorithm "tfidf"
        then calculate_tf_idf_similarity query documents
        else if String.eqb algorithm "jaccard"
        then calculate_jaccard_similarity query documents
        else if String.eqb algorithm "semantic"
        then calculate_semantic_similarity query documents
        else calculate_hybrid_similarity query documents None in
      results <- rank_documents Rge_bool (1 / 10)%R similarities top_k
                                (Some threshold) ;;
      _ <- cache_set env cache_key results ;;
      Ok results
    end
  end.

Definition similarity_search (self : Engine) (env : Env)
    (query : string) (top_k : py_value) (threshold : option R)
    (algorithm : string) : list (Ranked R) :=
  match similarity_search_body self env query top_k threshold algorithm with
  | Ok results => results
  | Raise _ => []
  end.

(** The ranking step as [query] reaches it on a document list that is
    already scored: [top_k] is validated, cut to 3, and handed to
    [rank_documents]. *)
Definition query_ranking (similarities : list (Doc * Q)) (top_k : Z)
    (threshold : Q) : result (list (Ranked Q)) :=
  let validated_top_k := _validate_top_k top_k in
  let optimized_top_k := Z.min validated_top_k 3 in
  rank_documents Qge_bool (1 # 10) similarities (PyInt optimized_top_k)
                 (Some threshold).

End RAGEngine.

(* ================================================================== *)
(** * advanced_rag_engine.py *)
(* ================================================================== *)

Module AdvancedRAGEngine.

Import PyStr Py.
Open Scope string_scope.
Open Scope Q_scope.

Inductive SearchAlgorithm := SEMANTIC | KEYWORD | HYBRID | FUZZY | CONTEXTUAL.

Definition algorithm_value (a : SearchAlgorithm) : string :=
  match a with
  | SEMANTIC => "semantic" | KEYWORD => "keyword" | HYBRID => "hybrid"
  | FUZZY => "fuzzy" | CONTEXTUAL => "contextual"
  end.

(** The metadata dictionary is carried along and never read by the code
    below, except for its ['score'] entry; it is kept as a list of pairs. *)
Record SearchResult := {
  content : string;
  title : string;
  source : string;
  similarity_score : Q;
  metadata : list (string * string);
  chunk_id : string;
  document_id : string;
  position : nat;
  search_algorithm : string;
  confidence : Q
}.

Record SearchQuery := {
  text : string;
  algorithm : SearchAlgorithm;
  top_k : py_value;
  similarity_threshold : Q
}.

(** [self.algorithm_configs[algorithm]["threshold"]] *)
Definition config_threshold (a : SearchAlgorithm) : Q :=
  match a with
  | SEMANTIC => 6 # 10
  | KEYWORD => 4 # 10
  | HYBRID => 5 # 10
  | FUZZY => 8 # 10
  | CONTEXTUAL => 6 # 10
  end.

(** A dictionary returned by the base engine's [search]; [None] is a missing
    key.  [raw_metadata_score] is [metadata['score']]. *)
Record RawResult := {
  raw_content : option string;
  raw_title : option string;
  raw_source : option string;
  raw_similarity_score : option Q;
  raw_metadata : list (string * string);
  raw_metadata_score : option Q;
  raw_chunk_id : option string;
  raw_document_id : option string
}.

(** Rows of the [chunks] table as the two SQL queries return them. *)
Record KeywordRow := {
  kw_content : string; kw_title : string; kw_source : string;
  kw_chunk_id : string; kw_document_id : string; kw_position : nat;
  keyword_matches : nat
}.

Record FuzzyRow := {
  fz_content : string; fz_title : string; fz_source : string;
  fz_chunk_id : string; fz_document_id : string; fz_position : nat;
  fuzzy_score : Q
}.

(** What the database answers to a [fetch]: [None] when the manager or the
    connection is missing or the query raises, in which case the code
    returns no result. *)
Definition Fetched (A : Type) : Type := option (list A).

(** The collaborators of one call of [advanced_search].  [base_search] is
    [self.base_rag_engine.search(query, top_k, similarity_threshold=...,
    algorithm=...)]; a keyword argument that is not passed is [None]. *)
Record Env := {
  base_search :
    string -> py_value -> option Q -> option string -> result (list RawResult);
  fetch_keyword : list string -> py_value -> Fetched KeywordRow;
  fetch_fuzzy : string -> py_value -> Fetched FuzzyRow;
  fetch_window : string -> nat -> string
}.

Definition get_or {A} (o : option A) (d : A) : A :=
  match o with Some a => a | None => d end.

(** The conversion loop shared by the four searches that go through the base
    engine: [default_score] is [metadata.get('score', default)]'s default.
    A result that is an object and not a dictionary is read through the same
    fields, with [getattr] in place of [get]. *)
Definition convert (alg : SearchAlgorithm) (default_score : Q)
    (extra : list (string * string)) (i : nat) (r : RawResult) : SearchResult :=
  let score :=
    match raw_similarity_score r with
    | Some s => s
    | None => get_or (raw_metadata_score r) default_score
    end in
  {| content := get_or (raw_content r) "";
     title := get_or (raw_title r) "Untitled";
     source := get_or (raw_source r) "Unknown";
     similarity_score := score;
     metadata := raw_metadata r ++ extra;
     chunk_id := get_or (raw_chunk_id r) ("chunk_" ++ str_of_nat i);
     document_id := get_or (raw_document_id r) ("doc_" ++ str_of_nat i);
     position := i;
     search_algorithm := algorithm_value alg;
     confidence := score |}.

Definition convert_all (alg : SearchAlgorithm) (default_score : Q)
    (extra : list (string * string)) (results : list RawResult)
  : list SearchResult :=
  map (fun ir => convert alg default_score extra (fst ir) (snd ir))
      (combine (seq 0 (List.length results)) results).

(** The fabricated result every [except] branch returns. *)
Definition mock (content title : string) (score : Q)
    (meta : list (string * string)) (chunk doc : string)
    (alg : SearchAlgorithm) : SearchResult :=
  {| content := content; title := title; source := "test";
     similarity_score := score; metadata := meta;
     chunk_id := chunk; document_id := doc; position := 0;
     search_algorithm := algorithm_value alg; confidence := score |}.

Definition quoted (s : string) : string := "'" ++ s ++ "'".

Definition _semantic_search (env : Env) (query : SearchQuery)
  : list SearchResult :=
  match (k2 <- times2 (top_k query) ;;
         results <- base_search env (text query) k2
                                (Some (similarity_threshold query)) None ;;
         Ok (convert_all SEMANTIC (8 # 10) [] results)) with
  | Ok search_results => search_results
  | Raise _ =>
      [mock ("Mock semantic result for " ++ quoted (text query))
            "Mock Semantic Document" (8 # 10)
            [("test", "True"); ("algorithm", "semantic")]
            "mock_semantic_1" "mock_doc_semantic_1" SEMANTIC]
  end.

Definition keyword_stop_words : list string :=
  [ "the"; "a"; "an"; "and"; "or"; "but"; "in"; "on"; "at"; "to"; "for";
    "of"; "with"; "by"; "is"; "are"; "was"; "were"; "be"; "been"; "being";
    "have"; "has"; "had"; "do"; "does"; "did"; "will"; "would"; "could";
    "should"; "may"; "might"; "can"; "this"; "that"; "these"; "those" ].

Definition _extract_keywords (text : string) : list string :=
  to_set (filter (fun word => negb (mem word keyword_stop_words)
                              && (2 <? String.length word)%nat)
                 (findall_words (lower text))).

(** [row["keyword_matches"] / len(keywords)] for every row. *)
Fixpoint keyword_rows (n_keywords : nat) (rows : list KeywordRow)
  : result (list SearchResult) :=
  match rows with
  | [] => Ok []
  | row :: rest =>
      if (n_keywords =? 0)%nat then Raise ZeroDivisionError
      else
        let score := inject_Z (Z.of_nat (keyword_matches row))
                     / inject_Z (Z.of_nat n_keywords) in
        tail <- keyword_rows n_keywords rest ;;
        Ok ({| content := kw_content row; title := kw_title row;
               source := kw_source row; similarity_score := score;
               metadata := []; chunk_id := kw_chunk_id row;
               document_id := kw_document_id row;
               position := kw_position row;
               search_algorithm := algorithm_value KEYWORD;
               confidence := score |} :: tail)
  end.

(** The base engine is tried first; when it raises, the [chunks] table is
    queried.  [query.top_k * 2] is then evaluated inside the [try] around the
    database call, whose handler returns no result. *)
Definition _keyword_search (env : Env) (query : SearchQuery)
  : list SearchResult :=
  let through_base :=
    k2 <- times2 (top_k query) ;;
    results <- base_search env (text query) k2 None (Some "keyword") ;;
    Ok (convert_all KEYWORD (7 # 10) [] results) in
  match through_base with
  | Ok search_results => search_results
  | Raise _ =>
      let keywords := _extract_keywords (text query) in
      match times2 (top_k query) with
      | Raise _ => []
      | Ok k2 =>
          match fetch_keyword env keywords k2 with
          | None => []
          | Some rows =>
              match keyword_rows (List.length keywords) rows with
              | Ok search_results => search_results
              | Raise _ =>
                  [mock ("Mock keyword result for " ++ quoted (text query))
                        "Mock Keyword Document" (7 # 10)
                        [("test", "True"); ("algorithm", "keyword")]
                        "mock_keyword_1" "mock_doc_keyword_1" KEYWORD]
              end
          end
      end
  end.

Definition fuzzy_row (row : FuzzyRow) : SearchResult :=
  {| content := fz_content row; title := fz_title row;
     source := fz_source row; similarity_score := fuzzy_score row;
     metadata := []; chunk_id := fz_chunk_id row;
     document_id := fz_document_id row; position := fz_position row;
     search_algorithm := algorithm_value FUZZY;
     confidence := fuzzy_score row |}.

(** Nothing raises after the rows are fetched, so the outer handler with
    its mock result is never entered. *)
Definition _fuzzy_search (env : Env) (query : SearchQuery)
  : list SearchResult :=
  let through_base :=
    k2 <- times2 (top_k query) ;;
    results <- base_search env (text query) k2 None (Some "fuzzy") ;;
    Ok (convert_all FUZZY (6 # 10) [] results) in
  match through_base with
  | Ok search_results => search_results
  | Raise _ =>
      match times2 (top_k query) with
      | Raise _ => []
      | Ok k2 =>
          match fetch_fuzzy env (text query) k2 with
          | None => []
          | Some rows => map fuzzy_row rows
          end
      end
  end.

(** The boost of the contextual fallback: score and confidence times 1.1. *)
Definition enhance (env : Env) (result : SearchResult) : SearchResult :=
  {| content := content result; title := title result;
     source := source result;
     similarity_score := similarity_score result * (11 # 10);
     metadata := metadata result
                 ++ [("context_window",
                      fetch_window env (document_id result) (position result));
                     ("context_enhanced", "True")];
     chunk_id := chunk_id result; document_id := document_id result;
     position := position result;
     search_algorithm := algorithm_value CONTEXTUAL;
     confidence := confidence result * (11 # 10) |}.

Definition _contextual_search (env : Env) (query : SearchQuery)
  : list SearchResult :=
  let through_base :=
    k2 <- times2 (top_k query) ;;
    results <- base_search env (text query) k2 None (Some "contextual") ;;
    Ok (convert_all CONTEXTUAL (9 # 10) [("context_enhanced", "True")]
                    results) in
  match through_base with
  | Ok search_results => search_results
  | Raise _ => map (enhance env) (_semantic_search env query)
  end.

(** ** Fusion by chunk identifier *)

(** An entry of [result_map], a dictionary in insertion order. *)
Record ChunkData := {
  cd_result : SearchResult;
  semantic_score : Q;
  keyword_score : Q
}.

Definition result_map : Type := list (string * ChunkData).

(** [m[key] = data]: a new key goes last, an old key keeps its place. *)
Fixpoint map_set (m : result_map) (key : string) (data : ChunkData)
  : result_map :=
  match m with
  | [] => [(key, data)]
  | (k, d) :: m' =>
      if String.eqb k key then (k, data) :: m'
      else (k, d) :: map_set m' key data
  end.

Fixpoint map_find (m : result_map) (key : string) : option ChunkData :=
  match m with
  | [] => None
  | (k, d) :: m' => if String.eqb k key then Some d else map_find m' key
  end.

Definition add_semantic (m : result_map) (result : SearchResult) : result_map :=
  map_set m (chunk_id result)
          {| cd_result := result;
             semantic_score := similarity_score result;
             keyword_score := 0 |}.

Definition add_keyword (m : result_map) (result : SearchResult) : result_map :=
  match map_find m (chunk_id result) with
  | Some d =>
      map_set m (chunk_id result)
              {| cd_result := cd_result d;
                 semantic_score := semantic_score d;
                 keyword_score := similarity_score result |}
  | None =>
      map_set m (chunk_id result)
              {| cd_result := result;
                 semantic_score := 0;
                 keyword_score := similarity_score result |}
  end.

(** [chunk_data["result"].similarity_score = combined_score]; the
    confidence of the result is left as it was. *)
Definition with_score (r : SearchResult) (s : Q) : SearchResult :=
  {| content := content r; title := title r; source := source r;
     similarity_score := s; metadata := metadata r;
     chunk_id := chunk_id r; document_id := document_id r;
     position := position r; search_algorithm := search_algorithm r;
     confidence := confidence r |}.

Definition combined_score (d : ChunkData) : Q :=
  semantic_score d * (7 # 10) + keyword_score d * (3 # 10).

(** [sorted(l, key=score, reverse=True)] on results: stable. *)
Fixpoint insert_by_score (x : SearchResult) (l : list SearchResult)
  : list SearchResult :=
  match l with
  | [] => [x]
  | y :: l' =>
      if Qle_bool (similarity_score y) (similarity_score x)
      then x :: y :: l'
      else y :: insert_by_score x l'
  end.

Definition sorted_by_score (l : list SearchResult) : list SearchResult :=
  fold_right insert_by_score [] l.

Definition _combine_search_results (semantic_results keyword_results
    : list SearchResult) : list SearchResult :=
  let m := fold_left add_semantic semantic_results [] in
  let m := fold_left add_keyword keyword_results m in
  sorted_by_score
    (map (fun kd => with_score (cd_result (snd kd)) (combined_score (snd kd)))
         m).

Definition _hybrid_search (env : Env) (query : SearchQuery)
  : result (list SearchResult) :=
  let semantic_results := _semantic_search env query in
  let keyword_results := _keyword_search env query in
  let combined_results :=
    _combine_search_results semantic_results keyword_results in
  slice_to combined_results (top_k query).

(** ** Post-processing *)

(** Jaccard overlap of the two sets of lower-cased, blank-separated words. *)
Definition _calculate_content_similarity (content1 content2 : string) : Q :=
  let words1 := to_set (split (lower content1)) in
  let words2 := to_set (split (lower content2)) in
  match words1, words2 with
  | [], _ => 0
  | _, [] => 0
  | _, _ =>
    let intersection := List.length (inter words1 words2) in
    let union := List.length (PyStr.union words1 words2) in
    if (0 <? union)%nat
    then inject_Z (Z.of_nat intersection) / inject_Z (Z.of_nat union)
    else 0
  end.

(** [similarity > 0.8] *)
Definition is_duplicate_of (result unique_result : SearchResult) : bool :=
  negb (Qle_bool (_calculate_content_similarity (content result)
                                                (content unique_result))
                 (8 # 10)).

(** The loop of [_deduplicate_results]; [unique_results] grows at its end. *)
Fixpoint dedup_loop (unique_results results : list SearchResult)
  : list SearchResult :=
  match results with
  | [] => unique_results
  | result :: rest =>
      if existsb (is_duplicate_of result) unique_results
      then dedup_loop unique_results rest
      else dedup_loop (unique_results ++ [result]) rest
  end.

Definition _deduplicate_results (results : list SearchResult)
  : list SearchResult :=
  match results with
  | [] => []
  | first :: rest => dedup_loop [first] rest
  end.

Definition threshold_filter (threshold : Q) (results : list SearchResult)
  : list SearchResult :=
  filter (fun result => Qle_bool threshold (similarity_score result)) results.

Definition _post_process_results (results : list SearchResult)
    (query : SearchQuery) : result (list SearchResult) :=
  let filtered_results :=
    threshold_filter (similarity_threshold query) results in
  let deduplicated_results := _deduplicate_results filtered_results in
  let sorted_results := sorted_by_score deduplicated_results in
  slice_to sorted_results (top_k query).

(** ** advanced_search *)

(** [similarity_threshold or self.algorithm_configs[algorithm]["threshold"]]:
    [None] and [0.0] are both falsy. *)
Definition effective_threshold (algorithm : SearchAlgorithm)
    (similarity_threshold : option Q) : Q :=
  match similarity_threshold with
  | Some t => if Qeq_bool t 0 then config_threshold algorithm else t
  | None => config_threshold algorithm
  end.

Definition make_query (query : string) (algorithm : SearchAlgorithm)
    (top_k : py_value) (similarity_threshold : option Q) : SearchQuery :=
  {| text := query; algorithm := algorithm; top_k := top_k;
     similarity_threshold :=
       effective_threshold algorithm similarity_threshold |}.

(** The body of the [try] of [advanced_search].  Writing the results to the
    cache is wrapped in its own [try] and changes nothing here. *)
Definition advanced_search_body (env : Env) (search_query : SearchQuery)
  : result (list SearchResult) :=
  results <-
    match algorithm search_query with
    | HYBRID => _hybrid_search env search_query
    | SEMANTIC => Ok (_semantic_search env search_query)
    | KEYWORD => Ok (_keyword_search env search_query)
    | FUZZY => Ok (_fuzzy_search env search_query)
    | CONTEXTUAL => Ok (_contextual_search env search_query)
    end ;;
  _post_process_results results search_query.

Definition fallback_mock (query : string) (algorithm : SearchAlgorithm)
  : SearchResult :=
  mock ("Mock result for " ++ quoted query) "Mock Document" (8 # 10)
       [("test", "True"); ("algorithm", algorithm_value algorithm)]
       "mock_1" "mock_doc_1" algorithm.

Definition advanced_search (env : Env) (query : string)
    (algorithm : SearchAlgorithm) (top_k : py_value)
    (similarity_threshold : option Q) : list SearchResult :=
  let search_query := make_query query algorithm top_k similarity_threshold in
  match advanced_search_body env search_query with
  | Ok results => results
  | Raise _ => [fallback_mock query algorithm]
  end.

(** The ranker as the specification words it, on the list of scored
    results: filter by threshold, deduplicate, sort by score, and only then
    truncate to [top_k]. *)
Definition spec_ranker (scored_results : list SearchResult)
    (query : SearchQuery) : result (list SearchResult) :=
  slice_to
    (sorted_by_score
       (_deduplicate_results
          (threshold_filter (similarity_threshold query) scored_results)))
    (top_k query).

(** The scored results of the hybrid route, before any truncation. *)
Definition hybrid_scored (env : Env) (query : SearchQuery)
  : list SearchResult :=
  _combine_search_results (_semantic_search env query)
                          (_keyword_search env query).

End AdvancedRAGEngine.

(* ================================================================== *)
(** * agent_orchestrator.py: query analysis *)
(* ================================================================== *)

Module AgentOrchestrator.

Import PyStr.
Open Scope string_scope.

Inductive AgentType :=
  GENERAL | ANALYTICAL | CREATIVE | TECHNICAL | RESEARCH | SUMMARY.

Inductive QueryComplexity :=
  SIMPLE | MEDIUM | MODERATE | COMPLEX | VERY_COMPLEX | EXPERT.

(** [.value] of the two enumerations *)
Definition agent_value (a : AgentType) : string :=
  match a with
  | GENERAL => "general" | ANALYTICAL => "analytical"
  | CREATIVE => "creative" | TECHNICAL => "technical"
  | RESEARCH => "research" | SUMMARY => "summary"
  end.

Definition complexity_value (c : QueryComplexity) : string :=
  match c with
  | SIMPLE => "simple" | MEDIUM => "medium" | MODERATE => "moderate"
  | COMPLEX => "complex" | VERY_COMPLEX => "very_complex"
  | EXPERT => "expert"
  end.

Definition AgentType_eq_dec (a b : AgentType) : {a = b} + {a <> b}.
Proof. decide equality. Defined.

Record QueryAnalysis := {
  complexity : QueryComplexity;
  agent_type : AgentType;
  confidence : Q;
  reasoning : string;
  estimated_tokens : nat
}.

(** The two dictionaries of [analyze_query], in their insertion order. *)
Definition complexity_indicators : list (QueryComplexity * list string) :=
  [ (SIMPLE, ["what"; "when"; "where"; "who"; "how"; "define"; "explain"]);
    (MODERATE, ["compare"; "describe"; "list"; "outline"; "summarize"]);
    (COMPLEX, ["analyze"; "evaluate"; "investigate"; "examine"; "assess"]);
    (EXPERT, ["design"; "optimize"; "implement"; "architect"; "strategize"]) ].

Definition agent_indicators : list (AgentType * list string) :=
  [ (ANALYTICAL, ["analyze"; "compare"; "evaluate"; "calculate";
                  "statistics"; "data"]);
    (CREATIVE, ["creative"; "innovative"; "brainstorm"; "ideas"; "design";
                "concept"]);
    (TECHNICAL, ["code"; "programming"; "technical"; "system";
                 "architecture"; "implementation"]);
    (RESEARCH, ["research"; "investigate"; "study"; "comprehensive";
                "thorough"]);
    (SUMMARY, ["summarize"; "summary"; "brief"; "overview"; "executive"]) ].

(** [for comp, indicators in ...: if any(...): complexity = comp; break] *)
Fixpoint first_complexity (query_lower : string)
    (l : list (QueryComplexity * list string)) : QueryComplexity :=
  match l with
  | [] => SIMPLE
  | (comp, indicators) :: rest =>
      if existsb (fun indicator => contains indicator query_lower) indicators
      then comp
      else first_complexity query_lower rest
  end.

(** [sum(1 for indicator in indicators if indicator in query_lower)] *)
Definition matches (query_lower : string) (indicators : list string) : nat :=
  List.length (filter (fun indicator => contains indicator query_lower)
                      indicators).

(** One turn of the loop over [agent_indicators]; the state is
    [(agent_type, max_matches)]. *)
Definition agent_step (query_lower : string) (st : AgentType * nat)
    (entry : AgentType * list string) : AgentType * nat :=
  let m := matches query_lower (snd entry) in
  if (snd st <? m)%nat then (fst entry, m) else st.

Definition select_agent (query_lower : string)
    (l : list (AgentType * list string)) : AgentType * nat :=
  fold_left (agent_step query_lower) l (GENERAL, 0%nat).

(** [int(len(query.split()) * 1.5)]; the product is exact in binary
    floating point, so the truncation is that of [3 * n / 2]. *)
Definition estimate_tokens (query : string) : nat :=
  (3 * List.length (split query)) / 2.

Definition analyze_query (query : string) : QueryAnalysis :=
  let query_lower := lower query in
  let complexity := first_complexity query_lower complexity_indicators in
  let '(agent_type, max_matches) := select_agent query_lower agent_indicators in
  {| complexity := complexity;
     agent_type := agent_type;
     confidence := Qmin (9 # 10) (inject_Z (Z.of_nat max_matches) / 3 + (3 # 10));
     reasoning := "Query complexity: " ++ complexity_value complexity
                  ++ ", Agent type: " ++ agent_value agent_type;
     estimated_tokens := estimate_tokens query |}.

(** The number of indicator hits of a family in a query; the general-purpose
    type has no indicators. *)
Definition family_hits (query : string) (a : AgentType) : nat :=
  match find (fun e => if AgentType_eq_dec (fst e) a then true else false)
             agent_indicators with
  | Some e => matches (lower query) (snd e)
  | None => 0%nat
  end.

(** ** Multi-agent coordination *)

(** The dictionary an executor returns, read through the two keys the
    orchestrator looks at; [None] is a missing key. *)
Record AgentResult := {
  ar_response : option string;
  ar_error : option string
}.

(** What awaiting one task gives: the dictionary, or an exception with its
    [str(e)]. *)
Inductive Outcome :=
| Returned (r : AgentResult)
| Raised (message : string).

(** [results], a dictionary from [agent_type.value] in insertion order. *)
Definition Results : Type := list (string * AgentResult).

Fixpoint results_set (m : Results) (key : string) (v : AgentResult) : Results :=
  match m with
  | [] => [(key, v)]
  | (k, v') :: m' =>
      if String.eqb k key then (k, v) :: m'
      else (k, v') :: results_set m' key v
  end.

Fixpoint results_get (m : Results) (key : string) : option AgentResult :=
  match m with
  | [] => None
  | (k, v) :: m' => if String.eqb k key then Some v else results_get m' key
  end.

(** The dictionary returned by [coordinate_agents]. *)
Record Synthesis := {
  response : string;
  error : option string;
  agent_results : Results;
  synthesis_method : option string;
  query : option string;
  status : option string
}.

Definition max_concurrent_agents : nat := 3.

(** ["error" not in v and "response" in v] *)
Definition successful (v : AgentResult) : bool :=
  match ar_error v, ar_response v with
  | None, Some _ => true
  | _, _ => false
  end.

(** [f"**{agent_type.upper()} PERSPECTIVE:**\n{result['response']}"] *)
Definition section_of (entry : string * AgentResult) : string :=
  "**" ++ upper (fst entry) ++ " PERSPECTIVE:**"
  ++ String (ascii_of_nat 10) EmptyString
  ++ match ar_response (snd entry) with Some r => r | None => "" end.

Definition all_failed_response : string :=
  "All agents failed to process the query.".

(** [_synthesize_agent_results]; a key the dictionary lacks is [None]. *)
Definition _synthesize_agent_results (results : Results)
    (original_query : string) : Synthesis :=
  let successful_results := filter (fun kv => successful (snd kv)) results in
  match successful_results with
  | [] =>
      {| response := all_failed_response;
         error := Some "Agent coordination failed";
         agent_results := results;
         synthesis_method := None;
         query := None;
         status := None |}
  | _ =>
      {| response :=
           join (String (ascii_of_nat 10) (String (ascii_of_nat 10) ""))
                (map section_of successful_results);
         error := None;
         agent_results := results;
         synthesis_method := Some "simple_combination";
         query := Some original_query;
         status := None |}
  end.

(** [synthesis_result["status"] = "success" if
    synthesis_result.get("response") else "error"] *)
Definition with_status (s : Synthesis) : Synthesis :=
  {| response := response s; error := error s;
     agent_results := agent_results s;
     synthesis_method := synthesis_method s; query := query s;
     status := Some match response s with
                    | EmptyString => "error"
                    | _ => "success"
                    end |}.

(** The entry a task leaves in [results]. *)
Definition entry_of (o : Outcome) : AgentResult :=
  match o with
  | Returned r => r
  | Raised message => {| ar_response := None; ar_error := Some message |}
  end.

(** The agent types that are launched: the given ones, or the ones chosen
    from the analysis when none is given, cut to the first
    [max_concurrent_agents]. *)
Definition selected_agents (query : string) (agent_types : list AgentType)
  : list AgentType :=
  let agent_types :=
    match agent_types with
    | [] =>
        let analysis := analyze_query query in
        match complexity analysis with
        | COMPLEX | EXPERT => [RESEARCH; ANALYTICAL; GENERAL]
        | _ => [agent_type analysis]
        end
    | _ => agent_types
    end in
  firstn max_concurrent_agents agent_types.

(** [execute i a] is what awaiting the [i]-th task, run by the agent of type
    [a], gives.  Creating an agent only stores a configuration and
    initialises the executor, which catches its own errors. *)
Definition gather (execute : nat -> AgentType -> Outcome)
    (launched : list AgentType) : Results :=
  fold_left
    (fun results ia =>
       results_set results (agent_value (snd ia))
                   (entry_of (execute (fst ia) (snd ia))))
    (combine (seq 0 (List.length launched)) launched)
    [].

Definition coordinate_agents (execute : nat -> AgentType -> Outcome)
    (query : string) (agent_types : list AgentType) : Synthesis :=
  let results := gather execute (selected_agents query agent_types) in
  with_status (_synthesize_agent_results results query).

End AgentOrchestrator.


(* ================================================================== *)
(** * Properties of query analysis *)
(* ================================================================== *)

Section QueryAnalysis.

Import PyStr AgentOrchestrator.
Open Scope nat_scope.
Open Scope list_scope.

(** The specialized families in the order the loop visits them. *)
Definition specialized : list AgentType := map fst agent_indicators.

(** The loop keeps the first entry whose count beats every earlier one and
    is not beaten later: either no entry beats the initial count, or the
    result is an entry that splits the list this way. *)
Lemma select_fold_spec (ql : string) :
  forall (l : list (AgentType * list string)) (st : AgentType * nat),
    let r := fold_left (agent_step ql) l st in
    (r = st /\ Forall (fun e => matches ql (snd e) <= snd st) l)
    \/ (exists l1 e l2,
           l = l1 ++ e :: l2
           /\ r = (fst e, matches ql (snd e))
           /\ snd st < matches ql (snd e)
           /\ Forall (fun e' => matches ql (snd e') < matches ql (snd e)) l1
           /\ Forall (fun e' => matches ql (snd e') <= matches ql (snd e)) l2).
Proof.
  induction l as [|e0 l IH]; intros st r.
  - left. split; [reflexivity | constructor].
  - subst r. cbn [fold_left].
    destruct (Nat.ltb (snd st) (matches ql (snd e0))) eqn:E.
    + assert (Hs : agent_step ql st e0 = (fst e0, matches ql (snd e0)))
        by (unfold agent_step; now rewrite E).
      rewrite Hs. apply Nat.ltb_lt in E. rename E into Hlt.
      destruct (IH (fst e0, matches ql (snd e0))) as [[Hr Hall] | Hex].
      * right. exists [], e0, l. cbn [snd] in Hall.
        split; [reflexivity |]. split; [exact Hr |].
        split; [exact Hlt |]. split; [constructor | exact Hall].
      * destruct Hex as (l1 & e & l2 & Hl & Hr & Hbeat & H1 & H2).
        right. exists (e0 :: l1), e, l2. cbn [snd] in Hbeat.
        split; [now rewrite Hl |]. split; [exact Hr |].
        split; [lia |]. split; [constructor; assumption | exact H2].
    + assert (Hs : agent_step ql st e0 = st)
        by (unfold agent_step; now rewrite E).
      rewrite Hs. apply Nat.ltb_ge in E. rename E into Hge.
      destruct (IH st) as [[Hr Hall] | Hex].
      * left. split; [exact Hr | constructor; [lia | exact Hall]].
      * destruct Hex as (l1 & e & l2 & Hl & Hr & Hbeat & H1 & H2).
        right. exists (e0 :: l1), e, l2.
        split; [now rewrite Hl |]. split; [exact Hr |].
        split; [exact Hbeat |]. split; [constructor; [lia | exact H1] | exact H2].
Qed.

(** The count the loop computes for an entry is the family's hit count. *)
Lemma family_hits_entries (q : string) :
  Forall (fun e => family_hits q (fst e) = matches (lower q) (snd e))
         agent_indicators.
Proof. repeat constructor. Qed.

Lemma family_hits_general (q : string) : family_hits q GENERAL = 0.
Proof. reflexivity. Qed.

Lemma Forall_app_mid {A} (P : A -> Prop) (l1 l2 : list A) (x : A) :
  Forall P (l1 ++ x :: l2) -> Forall P l1 /\ P x /\ Forall P l2.
Proof.
  intros H. apply Forall_app in H. destruct H as [H1 H2].
  inversion H2; subst. auto.
Qed.

(** What [select_agent] returns, in terms of the families' hit counts. *)
Lemma select_agent_spec (q : string) :
  let r := select_agent (lower q) agent_indicators in
  snd r = family_hits q (fst r)
  /\ ((fst r = GENERAL /\ Forall (fun f => family_hits q f = 0) specialized)
      \/ (exists before after,
             specialized = before ++ fst r :: after
             /\ 0 < family_hits q (fst r)
             /\ Forall (fun f => family_hits q f < family_hits q (fst r)) before
             /\ Forall (fun f => family_hits q f <= family_hits q (fst r)) after)).
Proof.
  intros r. subst r. unfold select_agent.
  pose proof (family_hits_entries q) as Hent.
  destruct (select_fold_spec (lower q) agent_indicators (GENERAL, 0))
    as [[Hr Hall] | (l1 & e & l2 & Hl & Hr & Hbeat & H1 & H2)].
  - rewrite Hr. split; [reflexivity | left]. split; [reflexivity |].
    unfold specialized. apply Forall_map.
    rewrite Forall_forall in *. intros e He.
    rewrite (Hent e He). specialize (Hall e He). cbn in Hall. lia.
  - rewrite Hr. cbn [fst snd]. rewrite Hl in Hent.
    apply Forall_app_mid in Hent. destruct Hent as (Hent1 & Hente & Hent2).
    split; [now rewrite Hente | right].
    exists (map fst l1), (map fst l2). cbn in Hbeat.
    repeat split.
    + unfold specialized. rewrite Hl, map_app. reflexivity.
    + rewrite Hente. lia.
    + apply Forall_map. rewrite Forall_forall in *. intros e' He'.
      rewrite (Hent1 e' He'), Hente. now apply H1.
    + apply Forall_map. rewrite Forall_forall in *. intros e' He'.
      rewrite (Hent2 e' He'), Hente. now apply H2.
Qed.

Lemma analyze_query_agent (q : string) :
  agent_type (analyze_query q) = fst (select_agent (lower q) agent_indicators).
Proof.
  unfold analyze_query.
  destruct (select_agent (lower q) agent_indicators); reflexivity.
Qed.

Lemma analyze_query_confidence_eq (q : string) :
  confidence (analyze_query q)
  = Qmin (9 # 10)
         (inject_Z (Z.of_nat (snd (select_agent (lower q) agent_indicators)))
          / 3 + (3 # 10)).
Proof.
  unfold analyze_query.
  destruct (select_agent (lower q) agent_indicators); reflexivity.
Qed.

(** C9, as the code has it: with no hit in any family the general-purpose
    type is selected; otherwise the selected type is the first family, in the
    order analytical, creative, technical, research, summary, whose hit count
    is the maximum, so a tie for the maximum goes to the earliest of the tied
    families and not to the general-purpose type. *)
Theorem analyze_query_agent_choice (q : string) :
  let a := agent_type (analyze_query q) in
  (a = GENERAL /\ Forall (fun f => family_hits q f = 0) specialized)
  \/ (exists before after,
         specialized = before ++ a :: after
         /\ 0 < family_hits q a
         /\ Forall (fun f => family_hits q f < family_hits q a) before
         /\ Forall (fun f => family_hits q f <= family_hits q a) after).
Proof.
  intros a. subst a. rewrite analyze_query_agent.
  exact (proj2 (select_agent_spec q)).
Qed.

(** C9 fails as stated: in "analyze creative" the analytical and the creative
    family have one hit each, no family has more, and the analysis selects
    the analytical type. *)
Lemma tie_selects_first_family :
  let q := "analyze creative"%string in
  family_hits q ANALYTICAL = 1
  /\ family_hits q CREATIVE = 1
  /\ Forall (fun f => family_hits q f <= 1) specialized
  /\ agent_type (analyze_query q) = ANALYTICAL
  /\ ANALYTICAL <> GENERAL.
Proof.
  cbv zeta. repeat split.
  - repeat constructor.
  - discriminate.
Qed.

(** The indicators of a family that occur in a text, counted one by one. *)
Fixpoint occurring (text : string) (indicators : list string) : nat :=
  match indicators with
  | [] => 0
  | indicator :: rest =>
      if contains indicator text then S (occurring text rest)
      else occurring text rest
  end.

(** The hit count of a family in a query: the indicators of the family that
    occur in the lowered query. *)
Definition indicator_hits (q : string) (a : AgentType) : nat :=
  match a with
  | ANALYTICAL =>
      occurring (lower q) ["analyze"; "compare"; "evaluate"; "calculate";
                           "statistics"; "data"]
  | CREATIVE =>
      occurring (lower q) ["creative"; "innovative"; "brainstorm"; "ideas";
                           "design"; "concept"]
  | TECHNICAL =>
      occurring (lower q) ["code"; "programming"; "technical"; "system";
                           "architecture"; "implementation"]
  | RESEARCH =>
      occurring (lower q) ["research"; "investigate"; "study";
                           "comprehensive"; "thorough"]
  | SUMMARY =>
      occurring (lower q) ["summarize"; "summary"; "brief"; "overview";
                           "executive"]
  | _ => 0
  end.

(** The largest hit count among the five families. *)
Definition most_hits (q : string) : nat :=
  list_max (map (indicator_hits q)
                [ANALYTICAL; CREATIVE; TECHNICAL; RESEARCH; SUMMARY]).

Lemma occurring_matches (text : string) (indicators : list string) :
  occurring text indicators = matches text indicators.
Proof.
  unfold matches. induction indicators as [|i l IH]; cbn; [reflexivity |].
  destruct (contains i text); cbn; now rewrite IH.
Qed.

Lemma indicator_hits_family (q : string) (a : AgentType) :
  indicator_hits q a = family_hits q a.
Proof.
  destruct a; unfold indicator_hits; rewrite ?occurring_matches; reflexivity.
Qed.

(** The count the loop ends with is the largest hit count. *)
Lemma select_agent_most_hits (q : string) :
  let r := select_agent (lower q) agent_indicators in
  snd r = most_hits q /\ indicator_hits q (fst r) = most_hits q.
Proof.
  intros r. destruct (select_agent_spec q) as [Hsnd Hwhich].
  fold r in Hsnd, Hwhich.
  assert (Hmost : family_hits q (fst r) = most_hits q).
  { unfold most_hits. cbn [map list_max fold_right].
    rewrite !indicator_hits_family.
    destruct Hwhich as [[Hg Hall] | (before & after & Hsplit & _ & Hb & Ha)].
    - rewrite Hg. unfold specialized in Hall. cbn [map agent_indicators fst] in Hall.
      repeat match goal with
             | H : Forall _ (_ :: _) |- _ => inversion H; subst; clear H
             end.
      rewrite family_hits_general. lia.
    - assert (Hle : Forall (fun f => family_hits q f <= family_hits q (fst r))
                           specialized).
      { rewrite Hsplit. apply Forall_app. split.
        - eapply Forall_impl; [| exact Hb]. cbn. intros f Hf. lia.
        - constructor; [lia | exact Ha]. }
      assert (Hin : In (fst r) specialized).
      { rewrite Hsplit. apply in_or_app. right. now left. }
      unfold specialized in Hle, Hin.
      cbn [map agent_indicators fst] in Hle, Hin.
      repeat match goal with
             | H : Forall _ (_ :: _) |- _ => inversion H; subst; clear H
             end.
      destruct Hin as [E | [E | [E | [E | [E | []]]]]];
        rewrite <- E in *; lia. }
  split; [now rewrite Hsnd | now rewrite indicator_hits_family].
Qed.

(** C10: the confidence of an analysis is [min(0.9, hits / 3 + 0.3)], where
    [hits] is the largest number of indicators of one family that occur in
    the lowered query; the selected type is a family with that many hits, or
    the general-purpose type when no indicator occurs; and the confidence
    lies between 0.3 and 0.9.  This holds for every query string, the empty
    one included. *)
Theorem analyze_query_confidence (q : string) :
  let a := analyze_query q in
  let hits := most_hits q in
  (confidence a == Qmin (9 # 10) (inject_Z (Z.of_nat hits) / 3 + (3 # 10)))%Q
  /\ indicator_hits q (agent_type a) = hits
  /\ Forall (fun family => indicator_hits q family <= hits)
            [ANALYTICAL; CREATIVE; TECHNICAL; RESEARCH; SUMMARY; GENERAL]
  /\ (3 # 10 <= confidence a)%Q
  /\ (confidence a <= 9 # 10)%Q.
Proof.
  intros a hits. subst a hits.
  rewrite analyze_query_confidence_eq, analyze_query_agent.
  destruct (select_agent_most_hits q) as [Hsnd Hfst]. cbv zeta in Hsnd, Hfst.
  rewrite Hsnd, Hfst.
  set (n := most_hits q).
  assert (Hn : (0 <= inject_Z (Z.of_nat n) / 3)%Q).
  { apply Qle_shift_div_l; [reflexivity |].
    rewrite Qmult_0_l. change 0%Q with (inject_Z 0).
    rewrite <- Zle_Qle. lia. }
  split; [reflexivity |]. split; [reflexivity |]. split; [| split].
  - subst n. unfold most_hits. cbn [map list_max fold_right].
    repeat constructor; cbn [indicator_hits]; lia.
  - apply Q.min_glb; [discriminate |]. lra.
  - apply Q.le_min_l.
Qed.

End QueryAnalysis.

(* ================================================================== *)
(** * Properties of multi-agent coordination *)
(* ================================================================== *)

Section Coordination.

Import PyStr AgentOrchestrator.
Open Scope nat_scope.
Open Scope list_scope.

Variable execute : nat -> AgentType -> Outcome.

(** The launched tasks with their positions, as [enumerate] numbers them. *)
Definition indexed (launched : list AgentType) : list (nat * AgentType) :=
  combine (seq 0 (List.length launched)) launched.


Lemma agent_value_inj (a b : AgentType) :
  agent_value a = agent_value b -> a = b.
Proof. destruct a, b; intros H; (reflexivity || discriminate H). Qed.






End Coordination.






(* ================================================================== *)
(** * Properties of the ranker of the similarity engine *)
(* ================================================================== *)

Section RankDocuments.

Import Py SimilarityEngine.
Open Scope nat_scope.
Open Scope list_scope.

Variable score : Type.
Variable score_ge : score -> score -> bool.
Variable one_tenth : score.

Lemma slice_int_incl {A} (l : list A) (n : Z) (x : A) :
  In x (slice_int l n) -> In x l.
Proof.
  unfold slice_int. assert (Hfirst : forall k, In x (firstn k l) -> In x l).
  { intros k H. rewrite <- (firstn_skipn k l). apply in_or_app. now left. }
  destruct (n <? 0)%Z; apply Hfirst.
Qed.

Lemma insert_desc_In (x y : Doc * score) (l : list (Doc * score)) :
  In y (insert_desc score_ge x l) <-> y = x \/ In y l.
Proof.
  induction l as [|z l IH]; cbn.
  - intuition.
  - destruct (score_ge (snd x) (snd z)); cbn; [intuition |].
    rewrite IH. intuition.
Qed.

Lemma sorted_desc_In (y : Doc * score) (l : list (Doc * score)) :
  In y (sorted_desc score_ge l) <-> In y l.
Proof.
  induction l as [|x l IH]; cbn; [reflexivity |].
  rewrite insert_desc_In, IH. intuition.
Qed.

(** Every ranked document passed the threshold test. *)
Lemma rank_documents_threshold (sims : list (Doc * score)) (v : py_value)
    (thr : option score) (results : list (Ranked score)) :
  rank_documents score_ge one_tenth sims v thr = Ok results ->
  Forall (fun r => score_ge (similarity_score r)
                            (coerce_threshold one_tenth thr) = true)
         results.
Proof.
  unfold rank_documents. destruct (coerce_top_k v) as [k |]; cbn; [| discriminate].
  intros H. inversion H; subst. apply Forall_map. cbn.
  rewrite Forall_forall. intros ds Hin.
  apply slice_int_incl, sorted_desc_In, filter_In in Hin. tauto.
Qed.

(** The builtin [int], as the interpreter at hand has it. *)
Variable py_int : py_value -> result Z.

(** A [top_k] that is no positive integer: [None], a value [int()] rejects
    with [ValueError] or [TypeError], or one whose integer is not positive. *)
Definition invalid_top_k (v : py_value) : Prop :=
  v = PyNone
  \/ py_int v = Raise ValueError
  \/ py_int v = Raise TypeError
  \/ exists k, py_int v = Ok k /\ (k <= 0)%Z.

Lemma coerce_top_k_invalid (v : py_value) :
  invalid_top_k v -> coerce_top_k_with py_int v = Ok 5%Z.
Proof.
  intros [-> | [H | [H | (k & H & Hk)]]]; [reflexivity | | |];
    unfold coerce_top_k_with; destruct v; try reflexivity; rewrite H;
    try reflexivity.
  all: destruct (Z.leb_spec k 0); [reflexivity | lia].
Qed.

(** With the embedding's own [int_of] for the builtin the open ranker is
    [rank_documents]. *)
Lemma rank_documents_with_int_of (sims : list (Doc * score)) (v : py_value)
    (thr : option score) :
  rank_documents_with score_ge one_tenth int_of sims v thr
  = rank_documents score_ge one_tenth sims v thr.
Proof. reflexivity. Qed.

(** C7, as the code has it: [rank_documents] turns a [top_k] that is [None],
    that [int()] rejects with [ValueError] or [TypeError], or whose integer
    is zero or negative into 5, whatever the builtin [int] does on the other
    values; it then returns the first five of the sorted survivors of the
    threshold, which is what a [top_k] of 5 gives, so at most five results
    and no slice from the end; and [RAGEngine._validate_top_k], which [query]
    runs before the ranking, maps every non-positive integer to 1, not to
    5. *)
Theorem rank_documents_coerces_top_k (sims : list (Doc * score))
    (v : py_value) (thr : option score) :
  invalid_top_k v ->
  let ranked :=
    map (fun ds => {| ranked_doc := fst ds; similarity_score := snd ds |})
        (firstn 5
           (sorted_desc score_ge
              (filter (fun ds => score_ge (snd ds)
                                          (coerce_threshold one_tenth thr))
                      sims))) in
  rank_documents_with score_ge one_tenth py_int sims v thr = Ok ranked
  /\ rank_documents_with score_ge one_tenth py_int sims v thr
     = rank_documents score_ge one_tenth sims (PyInt 5) thr
  /\ List.length ranked <= 5
  /\ (forall k : Z, (k <= 0)%Z -> RAGEngine._validate_top_k k = 1%Z).
Proof.
  intros Hinv ranked.
  assert (H : rank_documents_with score_ge one_tenth py_int sims v thr
              = Ok ranked).
  { unfold rank_documents_with. rewrite (coerce_top_k_invalid Hinv).
    reflexivity. }
  split; [exact H |]. split; [rewrite H; reflexivity |]. split.
  - subst ranked. rewrite length_map. apply firstn_le_length.
  - intros k Hk. unfold RAGEngine._validate_top_k.
    destruct (Z.ltb_spec k 0); [reflexivity |].
    destruct (Z.eqb_spec k 0); [reflexivity | lia].
Qed.

End RankDocuments.

(** Two scored documents used in the examples. *)
Definition doc_ml : SimilarityEngine.Doc :=
  {| SimilarityEngine.doc_id := "1"; SimilarityEngine.title := "ML Basics";
     SimilarityEngine.content := "Machine learning is a subset of AI" |}.

Definition doc_bread : SimilarityEngine.Doc :=
  {| SimilarityEngine.doc_id := "2"; SimilarityEngine.title := "Cooking";
     SimilarityEngine.content := "How to bake bread" |}.

Definition two_scored : list (SimilarityEngine.Doc * Q) :=
  [(doc_ml, 9 # 10); (doc_bread, 8 # 10)].

(** A text [int()] rejects: the digit 3 behind the file separator, which
    [int()] does not skip as white space. *)
Definition separator_three : string := String (ascii_of_nat 28) "3".

Lemma rank_documents_coerces_top_k_witness :
  SimilarityEngine.rank_documents_with SimilarityEngine.Qge_bool (1 # 10)
    Py.int_of two_scored (Py.PyStr separator_three) None
  = SimilarityEngine.rank_documents SimilarityEngine.Qge_bool (1 # 10)
                                    two_scored (Py.PyInt 5) None.
Proof.
  assert (Hinv : invalid_top_k Py.int_of (Py.PyStr separator_three)).
  { right. left. reflexivity. }
  exact (proj1 (proj2 (rank_documents_coerces_top_k
                         SimilarityEngine.Qge_bool (1 # 10)
                         two_scored None Hinv))).
Defined.

(** C7 fails as stated.  On the way through [query] a [top_k] of 0 or -3 is
    validated to 1, so the ranking returns one of the two documents where a
    [top_k] of 5 returns both; and [rank_documents] itself raises
    [OverflowError] on the non-positive float [-inf], which its handler for
    [ValueError] and [TypeError] does not catch. *)
Lemma top_k_zero_is_not_ranked_as_five :
  RAGEngine._validate_top_k 0 = 1%Z
  /\ RAGEngine._validate_top_k (-3) = 1%Z
  /\ RAGEngine.query_ranking two_scored 0 (1 # 10)
     = Py.Ok [ {| SimilarityEngine.ranked_doc := doc_ml;
                  SimilarityEngine.similarity_score := 9 # 10 |} ]
  /\ SimilarityEngine.rank_documents SimilarityEngine.Qge_bool (1 # 10)
       two_scored (Py.PyInt 5) (Some (1 # 10))
     = Py.Ok [ {| SimilarityEngine.ranked_doc := doc_ml;
                  SimilarityEngine.similarity_score := 9 # 10 |};
               {| SimilarityEngine.ranked_doc := doc_bread;
                  SimilarityEngine.similarity_score := 8 # 10 |} ]
  /\ SimilarityEngine.rank_documents SimilarityEngine.Qge_bool (1 # 10)
       two_scored (Py.PyFloat Py.NegInf) (Some (1 # 10))
     = Py.Raise Py.OverflowError.
Proof. repeat split. Qed.

(* ================================================================== *)
(** * Properties of the advanced engine: threshold and truncation *)
(* ================================================================== *)

Section AdvancedSearch.

Import PyStr Py AdvancedRAGEngine.
Open Scope nat_scope.
Open Scope list_scope.

Lemma insert_by_score_In (x y : SearchResult) (l : list SearchResult) :
  In y (insert_by_score x l) <-> y = x \/ In y l.
Proof.
  induction l as [|z l IH]; cbn.
  - intuition.
  - destruct (Qle_bool (similarity_score z) (similarity_score x)); cbn;
      [intuition |].
    rewrite IH. intuition.
Qed.

Lemma sorted_by_score_In (y : SearchResult) (l : list SearchResult) :
  In y (sorted_by_score l) <-> In y l.
Proof.
  induction l as [|x l IH]; cbn; [reflexivity |].
  rewrite insert_by_score_In, IH. intuition.
Qed.

Lemma dedup_loop_incl (rest unique : list SearchResult) (x : SearchResult) :
  In x (dedup_loop unique rest) -> In x unique \/ In x rest.
Proof.
  revert unique. induction rest as [|r rest IH]; intros unique H; cbn in H.
  - now left.
  - destruct (existsb (is_duplicate_of r) unique).
    + destruct (IH _ H); [now left | right; now right].
    + destruct (IH _ H) as [Hin | Hin]; [| right; now right].
      apply in_app_or in Hin. destruct Hin as [Hin | [-> | []]];
        [now left | right; now left].
Qed.

Lemma deduplicate_incl (results : list SearchResult) (x : SearchResult) :
  In x (_deduplicate_results results) -> In x results.
Proof.
  destruct results as [|first rest]; cbn; [tauto |].
  intros H. apply dedup_loop_incl in H.
  destruct H as [[-> | []] | H]; [now left | now right].
Qed.

Lemma slice_to_incl {A} (l out : list A) (v : py_value) (x : A) :
  slice_to l v = Ok out -> In x out -> In x l.
Proof.
  destruct v; cbn; try discriminate; intros H; inversion H; subst;
    [tauto | apply slice_int_incl].
Qed.

(** Whatever post-processing returns passed the threshold filter. *)
Lemma post_process_incl (results out : list SearchResult) (sq : SearchQuery)
    (x : SearchResult) :
  _post_process_results results sq = Ok out ->
  In x out ->
  In x results /\ (similarity_threshold sq <= similarity_score x)%Q.
Proof.
  unfold _post_process_results. intros H Hin.
  eapply slice_to_incl in Hin; [| exact H].
  apply sorted_by_score_In, deduplicate_incl in Hin.
  unfold threshold_filter in Hin. apply filter_In in Hin.
  destruct Hin as [Hin Hle]. split; [exact Hin | now apply Qle_bool_iff].
Qed.

Lemma advanced_search_body_threshold (env : Env) (sq : SearchQuery)
    (out : list SearchResult) :
  advanced_search_body env sq = Ok out ->
  Forall (fun r => (similarity_threshold sq <= similarity_score r)%Q) out.
Proof.
  unfold advanced_search_body. intros H. rewrite Forall_forall. intros x Hin.
  destruct (match algorithm sq with
            | HYBRID => _hybrid_search env sq
            | SEMANTIC => Ok (_semantic_search env sq)
            | KEYWORD => Ok (_keyword_search env sq)
            | FUZZY => Ok (_fuzzy_search env sq)
            | CONTEXTUAL => Ok (_contextual_search env sq)
            end) as [results |]; cbn in H; [| discriminate].
  exact (proj2 (@post_process_incl _ _ _ _ H Hin)).
Qed.

(** A threshold that is passed in is never above the one that is applied. *)
Lemma given_threshold_le_effective (alg : SearchAlgorithm) (t0 : Q) :
  (0 <= t0)%Q -> (t0 <= effective_threshold alg (Some t0))%Q.
Proof.
  intros H0. unfold effective_threshold.
  destruct (Qeq_bool t0 0) eqn:E; [| apply Qle_refl].
  apply Qeq_bool_iff in E. rewrite E. destruct alg; discriminate.
Qed.

(** C1, as the code has it.  Let [t] be the threshold in force: the one
    passed in, or the configured one of the algorithm when none or 0.0 is
    passed.  When the search completes without an internal exception every
    returned result has [similarity_score >= t]; when an exception reaches
    the handler of [advanced_search], the handler returns one mock result of
    score 0.8 whatever [t] is.  [rank_documents] returns only documents whose
    score is at least its threshold. *)
Theorem advanced_search_threshold (env : Env) (q : string)
    (alg : SearchAlgorithm) (k : py_value) (thr : option Q) :
  let t := effective_threshold alg thr in
  let sq := make_query q alg k thr in
  let results := advanced_search env q alg k thr in
  ((advanced_search_body env sq = Ok results
    /\ Forall (fun r => (t <= similarity_score r)%Q) results)
   \/ (is_ok (advanced_search_body env sq) = false
       /\ results = [fallback_mock q alg]
       /\ similarity_score (fallback_mock q alg) = (8 # 10)%Q))
  /\ (forall t0, thr = Some t0 -> (0 <= t0)%Q -> (t0 <= t)%Q)
  /\ (forall (sims : list (SimilarityEngine.Doc * Q)) (top : py_value)
             (thr0 : option Q) (ranked : list (SimilarityEngine.Ranked Q)),
         SimilarityEngine.rank_documents SimilarityEngine.Qge_bool (1 # 10)
                                         sims top thr0 = Ok ranked ->
         Forall (fun r => (SimilarityEngine.coerce_threshold (1 # 10) thr0
                           <= SimilarityEngine.similarity_score r)%Q)
                ranked).
Proof.
  intros t sq results. split; [| split].
  - subst results. unfold advanced_search. fold sq.
    destruct (advanced_search_body env sq) as [out | e] eqn:E.
    + left. split; [reflexivity |].
      apply advanced_search_body_threshold in E. exact E.
    + right. repeat split.
  - intros t0 -> H0. now apply given_threshold_le_effective.
  - intros sims top thr0 ranked H.
    apply rank_documents_threshold in H.
    rewrite Forall_forall in *. intros r Hr. specialize (H r Hr).
    now apply Qle_bool_iff.
Qed.

(** The routes other than the hybrid one hand their whole list to the
    post-processing, which is the specified ranker. *)
Lemma single_routes_rank_as_specified (env : Env) (sq : SearchQuery) :
  algorithm sq <> HYBRID ->
  exists scored,
    advanced_search_body env sq = spec_ranker scored sq
    /\ scored = match algorithm sq with
                | SEMANTIC => _semantic_search env sq
                | KEYWORD => _keyword_search env sq
                | FUZZY => _fuzzy_search env sq
                | _ => _contextual_search env sq
                end.
Proof.
  intros Hne. unfold advanced_search_body.
  destruct (algorithm sq); [| | contradiction | |];
    eexists; split; reflexivity.
Qed.

End AdvancedSearch.

(** ** Concrete collaborators for the examples *)

Definition raw (content chunk : string) (score : Q)
  : AdvancedRAGEngine.RawResult :=
  {| AdvancedRAGEngine.raw_content := Some content;
     AdvancedRAGEngine.raw_title := Some "Greek letters"%string;
     AdvancedRAGEngine.raw_source := None;
     AdvancedRAGEngine.raw_similarity_score := Some score;
     AdvancedRAGEngine.raw_metadata := [];
     AdvancedRAGEngine.raw_metadata_score := None;
     AdvancedRAGEngine.raw_chunk_id := Some chunk;
     AdvancedRAGEngine.raw_document_id := None |}.

(** A base engine that answers the semantic call ([algorithm] not passed)
    with [semantic] and every other call with no result; no database. *)
Definition env_of (semantic : list AdvancedRAGEngine.RawResult)
  : AdvancedRAGEngine.Env :=
  {| AdvancedRAGEngine.base_search :=
       fun _ _ _ algorithm =>
         match algorithm with
         | None => Py.Ok semantic
         | Some _ => Py.Ok []
         end;
     AdvancedRAGEngine.fetch_keyword := fun _ _ => None;
     AdvancedRAGEngine.fetch_fuzzy := fun _ _ => None;
     AdvancedRAGEngine.fetch_window := fun _ _ => ""%string |}.

(** Three candidates: the second repeats the content of the first. *)
Definition three_candidates : list AdvancedRAGEngine.RawResult :=
  [ raw "alpha beta gamma delta epsilon" "a" (9 # 10);
    raw "alpha beta gamma delta epsilon" "a2" (85 # 100);
    raw "zeta eta theta" "b" (8 # 10) ].

(** C1 fails as stated: with [top_k = 2.5] the slice of the post-processing
    raises [TypeError], the handler of [advanced_search] answers with its
    mock result, and that result has score 0.8 under a threshold of 0.9. *)
Lemma mock_result_ignores_threshold :
  let results :=
    AdvancedRAGEngine.advanced_search
      (env_of three_candidates) "greek"%string AdvancedRAGEngine.SEMANTIC
      (Py.PyFloat (Py.Finite (5 # 2))) (Some (9 # 10)) in
  AdvancedRAGEngine.effective_threshold AdvancedRAGEngine.SEMANTIC
                                        (Some (9 # 10)) = (9 # 10)%Q
  /\ map AdvancedRAGEngine.similarity_score results = [(8 # 10)%Q]
  /\ (8 # 10 < 9 # 10)%Q.
Proof. cbv zeta. repeat split. Qed.

(** C3, at the failing input: a hybrid search with [top_k = 2] over three
    candidates that all pass the threshold.  The hybrid route cuts the fused
    list to its first two entries, the duplicate pair, before filtering and
    deduplication; one of the pair is then dropped and a single result is
    returned.  Filtering, deduplicating, sorting and only then truncating the
    same fused list returns two results: chunk "b" survives filter and
    deduplication and is lost to the early truncation. *)
Theorem hybrid_truncates_before_deduplication :
  let env := env_of three_candidates in
  let sq := AdvancedRAGEngine.make_query "greek"%string
              AdvancedRAGEngine.HYBRID (Py.PyInt 2) None in
  map AdvancedRAGEngine.chunk_id (AdvancedRAGEngine.hybrid_scored env sq)
  = ["a"; "a2"; "b"]%string
  /\ map AdvancedRAGEngine.chunk_id
         (AdvancedRAGEngine.advanced_search env "greek"%string
            AdvancedRAGEngine.HYBRID (Py.PyInt 2) None)
     = ["a"]%string
  /\ (exists specified,
         AdvancedRAGEngine.spec_ranker
           (AdvancedRAGEngine.hybrid_scored env sq) sq = Py.Ok specified
         /\ map AdvancedRAGEngine.chunk_id specified = ["a"; "b"]%string).
Proof.
  cbv zeta. split; [reflexivity |]. split; [reflexivity |].
  eexists. split; reflexivity.
Qed.

(** Five candidates with contents of their own. *)
Definition five_candidates : list AdvancedRAGEngine.RawResult :=
  [ raw "alpha one" "c1" (95 # 100); raw "beta two" "c2" (9 # 10);
    raw "gamma three" "c3" (85 # 100); raw "delta four" "c4" (8 # 10);
    raw "epsilon five" "c5" (75 # 100) ].

(** The post-processing of the advanced engine slices with [top_k] as it
    was passed: -3 drops the last three results and 0 returns none, where 5
    returns all five. *)
Lemma post_processing_slices_with_raw_top_k :
  let search k :=
    map AdvancedRAGEngine.chunk_id
        (AdvancedRAGEngine.advanced_search
           (env_of five_candidates) "greek"%string AdvancedRAGEngine.SEMANTIC
           (Py.PyInt k) None) in
  search (-3)%Z = ["c1"; "c2"]%string
  /\ search 0%Z = []
  /\ search 5%Z = ["c1"; "c2"; "c3"; "c4"; "c5"]%string.
Proof. cbv zeta. repeat split. Qed.

(* ================================================================== *)
(** * Properties of deduplication *)
(* ================================================================== *)

Section Deduplication.

Import PyStr Py AdvancedRAGEngine.
Open Scope nat_scope.
Open Scope list_scope.

Lemma mem_In (x : string) (l : list string) : mem x l = true <-> In x l.
Proof.
  unfold mem. rewrite existsb_exists. split.
  - intros (y & Hy & Heq). apply String.eqb_eq in Heq. now subst.
  - intros H. exists x. split; [exact H | apply String.eqb_refl].
Qed.

Lemma inter_In (a b : list string) (x : string) :
  In x (inter a b) <-> In x a /\ In x b.
Proof. unfold inter. now rewrite filter_In, mem_In. Qed.

Lemma union_In (a b : list string) (x : string) :
  In x (PyStr.union a b) <-> In x a \/ In x b.
Proof.
  unfold PyStr.union. rewrite in_app_iff, filter_In. split.
  - intuition.
  - intros [H | H]; [now left |].
    destruct (mem x a) eqn:E; [left; now apply mem_In | right].
    split; [exact H | reflexivity].
Qed.

Lemma union_NoDup (a b : list string) :
  NoDup a -> NoDup b -> NoDup (PyStr.union a b).
Proof.
  intros Ha Hb. unfold PyStr.union.
  apply NoDup_app; [exact Ha | now apply NoDup_filter |].
  intros x Hx Hf. apply filter_In in Hf. destruct Hf as [_ Hf].
  apply mem_In in Hx. rewrite Hx in Hf. discriminate.
Qed.

(** The sizes of intersection and union do not depend on the side. *)
Lemma inter_length_comm (a b : list string) :
  NoDup a -> NoDup b ->
  List.length (inter a b) = List.length (inter b a).
Proof.
  intros Ha Hb. apply Permutation_length, NoDup_Permutation.
  - now apply NoDup_filter.
  - now apply NoDup_filter.
  - intros x. rewrite !inter_In. tauto.
Qed.

Lemma union_length_comm (a b : list string) :
  NoDup a -> NoDup b ->
  List.length (PyStr.union a b) = List.length (PyStr.union b a).
Proof.
  intros Ha Hb. apply Permutation_length, NoDup_Permutation.
  - now apply union_NoDup.
  - now apply union_NoDup.
  - intros x. rewrite !union_In. tauto.
Qed.

Lemma content_similarity_comm (c1 c2 : string) :
  _calculate_content_similarity c1 c2 = _calculate_content_similarity c2 c1.
Proof.
  unfold _calculate_content_similarity.
  pose proof (NoDup_nodup string_dec (split (lower c1))) as H1.
  pose proof (NoDup_nodup string_dec (split (lower c2))) as H2.
  fold (to_set (split (lower c1))) in H1.
  fold (to_set (split (lower c2))) in H2.
  destruct (to_set (split (lower c1))) as [|x1 w1] eqn:E1;
    destruct (to_set (split (lower c2))) as [|x2 w2] eqn:E2;
    try reflexivity.
  rewrite (inter_length_comm H1 H2), (union_length_comm H1 H2). reflexivity.
Qed.

(** Two results are far apart when the overlap of their contents is at most
    0.8, whichever of them is the candidate. *)
Definition far_apart (a b : SearchResult) : Prop :=
  (_calculate_content_similarity (content a) (content b) <= 8 # 10)%Q.

Lemma far_apart_sym (a b : SearchResult) : far_apart a b -> far_apart b a.
Proof. unfold far_apart. now rewrite content_similarity_comm. Qed.

Lemma not_duplicate_far_apart (r u : SearchResult) :
  is_duplicate_of r u = false <-> far_apart r u.
Proof.
  unfold is_duplicate_of, far_apart. rewrite negb_false_iff.
  apply Qle_bool_iff.
Qed.

Lemma pairs_snoc {A} (R : A -> A -> Prop) (l : list A) (x : A) :
  ForallOrdPairs R l -> Forall (fun y => R y x) l ->
  ForallOrdPairs R (l ++ [x]).
Proof.
  induction 1 as [|y l Hy Hl IH]; intros Hx; cbn.
  - repeat constructor.
  - inversion Hx; subst. constructor.
    + apply Forall_app. split; [exact Hy | now constructor].
    + now apply IH.
Qed.

Lemma dedup_loop_pairs (rest unique : list SearchResult) :
  ForallOrdPairs far_apart unique ->
  ForallOrdPairs far_apart (dedup_loop unique rest).
Proof.
  revert unique. induction rest as [|r rest IH]; intros unique H; cbn.
  - exact H.
  - destruct (existsb (is_duplicate_of r) unique) eqn:E; [now apply IH |].
    apply IH, pairs_snoc; [exact H |].
    rewrite Forall_forall. intros u Hu. apply far_apart_sym.
    apply not_duplicate_far_apart.
    destruct (is_duplicate_of r u) eqn:D; [| reflexivity].
    assert (Hex : existsb (is_duplicate_of r) unique = true)
      by (apply existsb_exists; now exists u).
    rewrite Hex in E. discriminate.
Qed.

Lemma deduplicate_pairs (results : list SearchResult) :
  ForallOrdPairs far_apart (_deduplicate_results results).
Proof.
  destruct results as [|first rest]; cbn; [constructor |].
  apply dedup_loop_pairs. repeat constructor.
Qed.

Lemma insert_pairs (x : SearchResult) (l : list SearchResult) :
  ForallOrdPairs far_apart l -> Forall (far_apart x) l ->
  ForallOrdPairs far_apart (insert_by_score x l).
Proof.
  induction 1 as [|y l Hy Hl IH]; intros Hx; cbn.
  - repeat constructor.
  - inversion Hx as [|? ? Hxy Hxl]; subst.
    destruct (Qle_bool (similarity_score y) (similarity_score x)).
    + constructor; [exact Hx | now constructor].
    + constructor; [| now apply IH].
      rewrite Forall_forall. intros z Hz. apply insert_by_score_In in Hz.
      destruct Hz as [-> | Hz]; [now apply far_apart_sym |].
      rewrite Forall_forall in Hy. now apply Hy.
Qed.

Lemma sorted_pairs (l : list SearchResult) :
  ForallOrdPairs far_apart l -> ForallOrdPairs far_apart (sorted_by_score l).
Proof.
  induction 1 as [|x l Hx Hl IH]; cbn; [constructor |].
  apply insert_pairs; [exact IH |].
  rewrite Forall_forall in *. intros y Hy. apply Hx.
  now apply sorted_by_score_In.
Qed.

Lemma firstn_pairs {A} (R : A -> A -> Prop) (l : list A) (n : nat) :
  ForallOrdPairs R l -> ForallOrdPairs R (firstn n l).
Proof.
  intros H. revert n. induction H as [|x l Hx Hl IH]; intros [|n]; cbn;
    try constructor; [| apply IH].
  rewrite Forall_forall in *. intros y Hy. apply Hx.
  rewrite <- (firstn_skipn n l). apply in_or_app. now left.
Qed.

Lemma post_process_pairs (results out : list SearchResult) (sq : SearchQuery) :
  _post_process_results results sq = Ok out -> ForallOrdPairs far_apart out.
Proof.
  unfold _post_process_results.
  set (l := sorted_by_score _).
  assert (Hl : ForallOrdPairs far_apart l)
    by (apply sorted_pairs, deduplicate_pairs).
  destruct (top_k sq); cbn; try discriminate; intros H; inversion H; subst.
  - exact Hl.
  - unfold slice_int. destruct (z <? 0)%Z; now apply firstn_pairs.
Qed.

(** A candidate is kept or is the duplicate of a kept one; the kept one was
    accepted earlier, so it scores at least as much when the candidates come
    in descending order of score. *)
Definition by_score_desc (a b : SearchResult) : Prop :=
  (similarity_score b <= similarity_score a)%Q.

Lemma dedup_loop_keeps (rest unique : list SearchResult) (u : SearchResult) :
  In u unique -> In u (dedup_loop unique rest).
Proof.
  revert unique. induction rest as [|r rest IH]; intros unique H; cbn.
  - exact H.
  - destruct (existsb (is_duplicate_of r) unique); apply IH;
      [exact H | apply in_or_app; now left].
Qed.

(** A candidate is kept, or it duplicates a result that came before it and
    was kept. *)
Lemma dedup_loop_covers (l1 : list SearchResult) :
  forall (unique l2 : list SearchResult) (x : SearchResult),
    In x (dedup_loop unique (l1 ++ x :: l2))
    \/ exists u, (In u unique \/ In u l1)
                 /\ In u (dedup_loop unique (l1 ++ x :: l2))
                 /\ is_duplicate_of x u = true.
Proof.
  induction l1 as [|r l1 IH]; intros unique l2 x; cbn.
  - destruct (existsb (is_duplicate_of x) unique) eqn:E.
    + right. apply existsb_exists in E. destruct E as (u & Hu & Hd).
      exists u. split; [now left |]. split; [| exact Hd].
      now apply dedup_loop_keeps.
    + left. apply dedup_loop_keeps, in_or_app. right. now left.
  - set (unique' := if existsb (is_duplicate_of r) unique
                    then unique else unique ++ [r]).
    assert (Hstep : (if existsb (is_duplicate_of r) unique
                     then dedup_loop unique (l1 ++ x :: l2)
                     else dedup_loop (unique ++ [r]) (l1 ++ x :: l2))
                    = dedup_loop unique' (l1 ++ x :: l2))
      by (subst unique'; destruct (existsb _ unique); reflexivity).
    rewrite Hstep.
    destruct (IH unique' l2 x) as [H | (u & Hwhere & Hu & Hd)];
      [now left | right].
    exists u. split; [| split; assumption].
    destruct Hwhere as [Hu' | Hu']; [| right; now right].
    subst unique'. destruct (existsb _ unique); [now left |].
    apply in_app_or in Hu'. destruct Hu' as [Hu' | [<- | []]];
      [now left | right; now left].
Qed.

Lemma deduplicate_covers (l1 l2 : list SearchResult) (x : SearchResult) :
  In x (_deduplicate_results (l1 ++ x :: l2))
  \/ exists u, In u l1
               /\ In u (_deduplicate_results (l1 ++ x :: l2))
               /\ is_duplicate_of x u = true.
Proof.
  destruct l1 as [|first l1]; cbn.
  - left. apply dedup_loop_keeps. now left.
  - destruct (dedup_loop_covers l1 [first] l2 x)
      as [H | (u & Hwhere & Hu & Hd)]; [now left | right].
    exists u. split; [| split; assumption].
    destruct Hwhere as [[<- | []] | Hu']; [now left | now right].
Qed.

Lemma sorted_before (l1 l2 : list SearchResult) (x u : SearchResult) :
  StronglySorted by_score_desc (l1 ++ x :: l2) -> In u l1 -> by_score_desc u x.
Proof.
  induction l1 as [|r l1 IH]; cbn; intros Hs Hu; [contradiction |].
  inversion Hs as [|? ? Hs' Hall]; subst. destruct Hu as [-> | Hu].
  - rewrite Forall_forall in Hall. apply Hall, in_or_app. right. now left.
  - now apply IH.
Qed.

Lemma pairs_nth {A} (R : A -> A -> Prop) (l : list A) :
  (forall a b, R a b -> R b a) ->
  ForallOrdPairs R l ->
  forall i j a b,
    i <> j -> nth_error l i = Some a -> nth_error l j = Some b -> R a b.
Proof.
  intros Hsym H. induction H as [|x l Hx Hl IH]; intros i j a b Hne Hi Hj.
  - destruct i; discriminate.
  - rewrite Forall_forall in Hx.
    destruct i as [|i], j as [|j]; cbn in Hi, Hj.
    + contradiction.
    + inversion Hi; subst. apply Hx. eapply nth_error_In, Hj.
    + inversion Hj; subst. apply Hsym, Hx. eapply nth_error_In, Hi.
    + apply (IH i j); auto.
Qed.

(** C8, as the code has it.  Deduplication takes the candidates in the order
    in which the search produced them: a candidate is dropped when the
    overlap of its content with an already accepted result exceeds 0.8, so
    every candidate is kept or duplicates a kept result that came before it;
    that kept result scores at least as much when the candidates arrive in
    descending order of score.  In every list [advanced_search] returns, no
    two results at different positions have an overlap above 0.8. *)
Theorem deduplication_in_arrival_order :
  (forall (l1 l2 : list SearchResult) (x : SearchResult),
      let results := l1 ++ x :: l2 in
      In x (_deduplicate_results results)
      \/ exists u, In u l1
                   /\ In u (_deduplicate_results results)
                   /\ is_duplicate_of x u = true
                   /\ (StronglySorted by_score_desc results ->
                       by_score_desc u x))
  /\ (forall (env : Env) (q : string) (alg : SearchAlgorithm) (k : py_value)
             (thr : option Q) (i j : nat) (a b : SearchResult),
         let results := advanced_search env q alg k thr in
         i <> j ->
         nth_error results i = Some a ->
         nth_error results j = Some b ->
         (_calculate_content_similarity (content a) (content b) <= 8 # 10)%Q).
Proof.
  split.
  - intros l1 l2 x results.
    destruct (deduplicate_covers l1 l2 x) as [H | (u & Hu1 & Hu & Hd)];
      [now left | right].
    exists u. repeat split; try assumption.
    intros Hs. eapply sorted_before; eassumption.
  - intros env q alg k thr i j a b results.
    apply (@pairs_nth _ far_apart); [exact far_apart_sym |].
    subst results. unfold advanced_search.
    destruct (advanced_search_body _ _) as [out |] eqn:E;
      [| repeat constructor].
    unfold advanced_search_body in E.
    destruct (match algorithm _ with
              | HYBRID => _ | SEMANTIC => _ | KEYWORD => _
              | FUZZY => _ | CONTEXTUAL => _ end); cbn in E; [| discriminate].
    eapply post_process_pairs, E.
Qed.

End Deduplication.

(** Two candidates with the same content; the first one scores less. *)
Definition low_then_high : list AdvancedRAGEngine.RawResult :=
  [ raw "alpha beta gamma delta epsilon" "low" (7 # 10);
    raw "alpha beta gamma delta epsilon" "high" (9 # 10) ].

(** C8 fails as stated: the candidates are taken as they arrive, not in
    descending order of score, so the candidate of score 0.9 is dropped as a
    duplicate of the candidate of score 0.7 that came first. *)
Lemma deduplication_keeps_lower_score :
  let results :=
    AdvancedRAGEngine.advanced_search
      (env_of low_then_high) "greek"%string AdvancedRAGEngine.SEMANTIC
      (Py.PyInt 5) None in
  map AdvancedRAGEngine.chunk_id results = ["low"%string]
  /\ map AdvancedRAGEngine.similarity_score results = [(7 # 10)%Q]
  /\ map AdvancedRAGEngine.chunk_id
         (AdvancedRAGEngine._deduplicate_results
            (AdvancedRAGEngine.convert_all AdvancedRAGEngine.SEMANTIC
                                           (8 # 10) [] low_then_high))
     = ["low"%string].
Proof. cbv zeta. repeat split. Qed.

(* ================================================================== *)
(** * Properties of the search when the document store is unavailable *)
(* ================================================================== *)

Section StoreUnavailable.

Import PyStr Py SimilarityEngine.
Open Scope nat_scope.
Open Scope list_scope.

(** Document retrieval raises or yields no valid document. *)
Definition store_unavailable (env : RAGEngine.Env) : Prop :=
  match RAGEngine.execute_query env with
  | Raise _ => True
  | Ok rows => RAGEngine.valid_documents rows = []
  end.

(** The cache holds no result list for the key (a stored empty list is
    falsy and counts as a miss). *)
Definition cache_miss (env : RAGEngine.Env) (key : RAGEngine.CacheKey) : Prop :=
  match RAGEngine.cache_get env key with
  | Ok (Some (_ :: _)) => False
  | _ => True
  end.

Lemma store_unavailable_no_documents (env : RAGEngine.Env) :
  store_unavailable env -> RAGEngine._get_all_documents env = [].
Proof.
  unfold store_unavailable, RAGEngine._get_all_documents.
  destruct (RAGEngine.execute_query env); tauto.
Qed.

Lemma similarity_search_no_store (self : RAGEngine.Engine)
    (env : RAGEngine.Env) (q : string) (k : py_value) (thr : option R)
    (alg : string) :
  store_unavailable env ->
  cache_miss env (q, k, alg) ->
  RAGEngine.similarity_search self env q k thr alg = [].
Proof.
  intros Hstore Hmiss.
  unfold RAGEngine.similarity_search, RAGEngine.similarity_search_body.
  unfold cache_miss in Hmiss.
  rewrite (@store_unavailable_no_documents env Hstore).
  destruct (RAGEngine.cache_get env (q, k, alg)) as [[[|r rs] |] |]; cbn;
    try reflexivity.
  contradiction.
Qed.

Lemma convert_all_nil (alg : AdvancedRAGEngine.SearchAlgorithm) (d : Q)
    (extra : list (string * string)) :
  AdvancedRAGEngine.convert_all alg d extra [] = [].
Proof. reflexivity. Qed.

Lemma slice_int_nil {A} (n : Z) : slice_int (@nil A) n = [].
Proof. unfold slice_int. destruct (n <? 0)%Z; apply firstn_nil. Qed.

(** Over a base engine that finds nothing, every route of the advanced
    engine finds nothing. *)
Lemma advanced_search_nothing_found (env : AdvancedRAGEngine.Env)
    (q : string) (alg : AdvancedRAGEngine.SearchAlgorithm) (n : Z)
    (thr : option Q) :
  (forall q' k' t' a', AdvancedRAGEngine.base_search env q' k' t' a' = Ok []) ->
  AdvancedRAGEngine.advanced_search env q alg (PyInt n) thr = [].
Proof.
  intros Hbase.
  unfold AdvancedRAGEngine.advanced_search,
    AdvancedRAGEngine.advanced_search_body.
  destruct alg; cbn;
    unfold AdvancedRAGEngine._hybrid_search,
      AdvancedRAGEngine._semantic_search, AdvancedRAGEngine._keyword_search,
      AdvancedRAGEngine._fuzzy_search, AdvancedRAGEngine._contextual_search;
    cbn; rewrite ?Hbase; cbn; rewrite ?slice_int_nil; cbn;
    unfold AdvancedRAGEngine._post_process_results; cbn;
    rewrite ?slice_int_nil; reflexivity.
Qed.

(** C4, as the code has it: when document retrieval raises or yields no
    valid document and the cache holds no result list for the query, [top_k]
    and algorithm, [similarity_search] returns the empty list and does not
    raise; over a base search that returns the empty list, [advanced_search]
    returns the empty list for every algorithm. *)
Theorem search_without_store_is_empty (self : RAGEngine.Engine)
    (env : RAGEngine.Env) (q : string) (k : py_value) (thr : option R)
    (alg : string) :
  store_unavailable env ->
  cache_miss env (q, k, alg) ->
  RAGEngine.similarity_search self env q k thr alg = []
  /\ (forall (aenv : AdvancedRAGEngine.Env)
             (algorithm : AdvancedRAGEngine.SearchAlgorithm) (n : Z)
             (t : option Q),
         (forall q' k' t' a',
             AdvancedRAGEngine.base_search aenv q' k' t' a' = Ok []) ->
         AdvancedRAGEngine.advanced_search aenv q algorithm (PyInt n) t = []).
Proof.
  intros Hstore Hmiss. split.
  - now apply similarity_search_no_store.
  - intros aenv algorithm n t Hbase. now apply advanced_search_nothing_found.
Qed.

End StoreUnavailable.

(** A store that raises, behind a cache that is empty or that still holds
    the result of an earlier search. *)
Definition cached_result : list (SimilarityEngine.Ranked R) :=
  [ {| SimilarityEngine.ranked_doc := doc_ml;
       SimilarityEngine.similarity_score := (9 / 10)%R |} ].

Definition store_down (cached : option (list (SimilarityEngine.Ranked R)))
  : RAGEngine.Env :=
  {| RAGEngine.cache_get := fun _ => Py.Ok cached;
     RAGEngine.cache_set := fun _ _ => Py.Ok tt;
     RAGEngine.execute_query := Py.Raise (Py.Failure "connection refused") |}.

(** A base engine whose search raises, and no database. *)
Definition base_raises : AdvancedRAGEngine.Env :=
  {| AdvancedRAGEngine.base_search :=
       fun _ _ _ _ => Py.Raise (Py.Failure "connection refused");
     AdvancedRAGEngine.fetch_keyword := fun _ _ => None;
     AdvancedRAGEngine.fetch_fuzzy := fun _ _ => None;
     AdvancedRAGEngine.fetch_window := fun _ _ => ""%string |}.

(** The cache key leaves the threshold out: a cached list is returned as it
    is, whatever threshold the call asks for. *)
Lemma cached_result_ignores_threshold (thr : option R) :
  RAGEngine.similarity_search
    (RAGEngine.init {| RAGEngine.encoder := None |})
    (store_down (Some cached_result))
    "machine learning"%string (Py.PyInt 5) thr "hybrid"%string
  = cached_result.
Proof. reflexivity. Qed.

Lemma search_without_store_is_empty_witness :
  RAGEngine.similarity_search
    (RAGEngine.init {| RAGEngine.encoder := None |}) (store_down None)
    "machine learning"%string (Py.PyInt 5) None "hybrid"%string
  = [].
Proof.
  refine (proj1 (@search_without_store_is_empty _ (store_down None) _ _ _ _
                                                _ _)).
  - exact I.
  - exact I.
Defined.

(** C4 fails as stated.  With the store raising, [similarity_search]
    returns the list the cache still holds for the key, which is not empty;
    and when the base engine's search itself raises, the semantic route of
    [advanced_search] returns its fabricated mock result. *)
Lemma unavailable_store_nonempty_result :
  store_unavailable (store_down (Some cached_result))
  /\ RAGEngine.similarity_search
       (RAGEngine.init {| RAGEngine.encoder := None |})
       (store_down (Some cached_result))
       "machine learning"%string (Py.PyInt 5) None "hybrid"%string
     = cached_result
  /\ cached_result <> []
  /\ map AdvancedRAGEngine.chunk_id
         (AdvancedRAGEngine.advanced_search base_raises "machine learning"%string
            AdvancedRAGEngine.SEMANTIC (Py.PyInt 5) None)
     = ["mock_semantic_1"%string].
Proof.
  split; [exact I |]. split; [reflexivity |]. split; [discriminate |].
  reflexivity.
Qed.

(* ================================================================== *)
(** * Properties of the scorers: every score lies in [0, 1] *)
(* ================================================================== *)

Section Scores.

Import PyStr Py SimilarityEngine.
Open Scope list_scope.
Open Scope R_scope.

(** Every score of a scored list lies between 0 and 1. *)
Definition unit_scores (sims : list (Doc * R)) : Prop :=
  Forall (fun ds => 0 <= snd ds <= 1) sims.

Lemma div_unit (a b : R) : 0 <= a -> a <= b -> 0 < b -> 0 <= a / b <= 1.
Proof.
  intros Ha Hab Hb. unfold Rdiv. split.
  - now apply Rle_mult_inv_pos.
  - rewrite <- (Rinv_r b) by lra.
    apply Rmult_le_compat_r; [| exact Hab].
    left. now apply Rinv_0_lt_compat.
Qed.

Lemma div_nat_unit (n m : nat) :
  (n <= m)%nat -> (0 < m)%nat -> 0 <= INR n / INR m <= 1.
Proof.
  intros Hnm Hm. apply div_unit.
  - apply pos_INR.
  - now apply le_INR.
  - now apply lt_0_INR.
Qed.

Lemma sum_over_nonneg (keys : list string) (f : string -> R) :
  (forall k, 0 <= f k) -> 0 <= sum_over keys f.
Proof.
  intros Hf. induction keys as [|k keys IH].
  - cbn. lra.
  - change (0 <= f k + sum_over keys f). specialize (Hf k). lra.
Qed.

(** The step of the Cauchy-Schwarz inequality: adding one coordinate. *)
Lemma cauchy_schwarz_step (a b D A B : R) :
  0 <= A -> 0 <= B -> D * D <= A * B ->
  (a * b + D) * (a * b + D) <= (a * a + A) * (b * b + B).
Proof.
  intros HA HB HD.
  assert (Hcross : 2 * (a * b * D) <= a * a * B + A * b * b).
  { set (X := 2 * (a * b * D)). set (Y := a * a * B + A * b * b).
    assert (HY : 0 <= Y) by (subst Y; nra).
    assert (Hsq : X * X <= Y * Y).
    { subst X Y.
      pose proof (Rle_0_sqr (a * a * B - A * b * b)) as H1.
      pose proof (Rle_0_sqr (a * b)) as H2. unfold Rsqr in H1, H2.
      assert (H3 : 0 <= a * b * (a * b) * (A * B - D * D))
        by (apply Rmult_le_pos; lra).
      nra. }
    destruct (Rle_dec X Y) as [Hle | Hgt]; [exact Hle | exfalso].
    assert (Y < X) by lra. nra. }
  nra.
Qed.

Lemma cauchy_schwarz (keys : list string) (f g : string -> R) :
  let D := sum_over keys (fun k => f k * g k) in
  let A := sum_over keys (fun k => f k * f k) in
  let B := sum_over keys (fun k => g k * g k) in
  D * D <= A * B.
Proof.
  induction keys as [|k keys IH].
  - cbn. lra.
  - cbv zeta in *.
    change (sum_over (k :: keys) (fun k => f k * g k))
      with (f k * g k + sum_over keys (fun k => f k * g k)).
    change (sum_over (k :: keys) (fun k => f k * f k))
      with (f k * f k + sum_over keys (fun k => f k * f k)).
    change (sum_over (k :: keys) (fun k => g k * g k))
      with (g k * g k + sum_over keys (fun k => g k * g k)).
    apply cauchy_schwarz_step; [| | exact IH];
      apply sum_over_nonneg; intros x; apply Rle_0_sqr.
Qed.

(** The cosine of two vectors whose coordinates never have opposite signs
    lies in [0, 1]; a zero vector gives 0. *)
Lemma cosine_unit (vec1 vec2 : vector) :
  (forall k, 0 <= vec_get vec1 k * vec_get vec2 k) ->
  0 <= _cosine_similarity vec1 vec2 <= 1.
Proof.
  intros Hsign. unfold _cosine_similarity.
  set (keys := to_set _).
  set (D := sum_over keys (fun k => vec_get vec1 k * vec_get vec2 k)).
  set (A := sum_over keys (fun k => vec_get vec1 k * vec_get vec1 k)).
  set (B := sum_over keys (fun k => vec_get vec2 k * vec_get vec2 k)).
  destruct (Req_dec_T (sqrt A) 0) as [_ | HA]; [lra |].
  destruct (Req_dec_T (sqrt B) 0) as [_ | HB]; [lra |].
  assert (HA0 : 0 <= A) by (apply sum_over_nonneg; intros; apply Rle_0_sqr).
  assert (HB0 : 0 <= B) by (apply sum_over_nonneg; intros; apply Rle_0_sqr).
  assert (HD0 : 0 <= D) by (apply sum_over_nonneg; exact Hsign).
  pose proof (sqrt_pos A) as HsA. pose proof (sqrt_pos B) as HsB.
  pose proof (sqrt_sqrt A HA0) as HAA. pose proof (sqrt_sqrt B HB0) as HBB.
  pose proof (cauchy_schwarz keys (vec_get vec1) (vec_get vec2)) as HCS.
  cbv zeta in HCS. fold D A B in HCS.
  assert (Hpos : 0 < sqrt A * sqrt B) by (apply Rmult_lt_0_compat; lra).
  apply div_unit; [exact HD0 | | exact Hpos].
  destruct (Rle_dec D (sqrt A * sqrt B)) as [Hle | Hgt]; [exact Hle | exfalso].
  assert (Hlt : sqrt A * sqrt B < D) by lra.
  assert (Hsq : (sqrt A * sqrt B) * (sqrt A * sqrt B) < D * D) by nra.
  replace ((sqrt A * sqrt B) * (sqrt A * sqrt B))
    with ((sqrt A * sqrt A) * (sqrt B * sqrt B)) in Hsq by ring.
  rewrite HAA, HBB in Hsq. lra.
Qed.

(** A coordinate of a tf-idf vector is a non-negative term frequency times
    the idf of the word, or 0 outside the vocabulary. *)
Lemma vec_get_tf_idf (all_words : list string) (idf : string -> R)
    (words : list string) (k : string) :
  exists tf, 0 <= tf
             /\ (vec_get (tf_idf_vector all_words idf words) k = tf * idf k).
Proof.
  unfold tf_idf_vector. induction all_words as [|w ws IH]; cbn.
  - exists 0. split; lra.
  - destruct (String.eqb_spec k w) as [-> | Hne]; [| exact IH].
    eexists. split; [| reflexivity].
    destruct words as [|x xs]; [lra |].
    apply Rle_mult_inv_pos; [apply pos_INR |].
    apply lt_0_INR. cbn. lia.
Qed.

Lemma tf_idf_cosine_unit (all_words : list string) (idf : string -> R)
    (words1 words2 : list string) :
  0 <= _cosine_similarity (tf_idf_vector all_words idf words1)
                          (tf_idf_vector all_words idf words2) <= 1.
Proof.
  apply cosine_unit. intros k.
  destruct (vec_get_tf_idf all_words idf words1 k) as (t1 & H1 & ->).
  destruct (vec_get_tf_idf all_words idf words2 k) as (t2 & H2 & ->).
  pose proof (Rle_0_sqr (idf k)) as Hi. unfold Rsqr in Hi.
  replace (t1 * idf k * (t2 * idf k)) with (t1 * t2 * (idf k * idf k)) by ring.
  apply Rmult_le_pos; [apply Rmult_le_pos |]; assumption.
Qed.

Lemma zero_scores_unit (documents : list Doc) :
  unit_scores (map (fun doc => (doc, 0)) documents).
Proof. apply Forall_map, Forall_forall. intros; cbn; lra. Qed.

Lemma tf_idf_unit (q : string) (documents : list Doc) :
  unit_scores (calculate_tf_idf_similarity q documents).
Proof.
  unfold calculate_tf_idf_similarity.
  destruct documents as [|d ds]; [constructor |].
  destruct (preprocess_text q) as [|w ws]; [apply zero_scores_unit |].
  apply Forall_map, Forall_forall. intros dw _. cbn [snd].
  apply tf_idf_cosine_unit.
Qed.

Lemma inter_le_union (a b : list string) :
  (List.length (inter a b) <= List.length (PyStr.union a b))%nat.
Proof.
  unfold inter, PyStr.union. rewrite length_app.
  pose proof (filter_length_le (fun x => mem x b) a). lia.
Qed.

Lemma jaccard_unit (q : string) (documents : list Doc) :
  unit_scores (calculate_jaccard_similarity q documents).
Proof.
  unfold calculate_jaccard_similarity.
  destruct (to_set (preprocess_text q)) as [|w ws]; [apply zero_scores_unit |].
  apply Forall_map, Forall_forall. intros doc _.
  destruct (to_set (preprocess_text _)) as [|x xs]; cbn [snd]; [lra |].
  destruct (Nat.ltb_spec 0 (List.length (PyStr.union (w :: ws) (x :: xs))));
    [| lra].
  apply div_nat_unit; [apply inter_le_union | assumption].
Qed.

Lemma title_unit (q t : string) :
  0 <= _calculate_title_similarity q t <= 1.
Proof.
  unfold _calculate_title_similarity. destruct t as [|c t]; [lra |].
  destruct (contains _ _); [lra |].
  destruct (to_set (preprocess_text q)) as [|w ws]; [lra |].
  destruct (to_set (preprocess_text _)) as [|x xs]; [lra |].
  apply div_nat_unit; [| cbn; lia].
  unfold inter. apply filter_length_le.
Qed.

Lemma content_unit (query_words : list string) (c : string) :
  0 <= _calculate_content_similarity query_words c <= 1.
Proof.
  unfold _calculate_content_similarity. destruct c as [|a c]; [lra |].
  destruct query_words as [|w ws]; [lra |].
  destruct (preprocess_text _) as [|x xs]; [lra |].
  split; [| apply Rmin_r].
  apply Rmin_glb; [| lra].
  apply Rle_mult_inv_pos; [apply pos_INR |].
  apply sqrt_lt_R0, lt_0_INR. cbn. lia.
Qed.

(** The sum of the per-word credits, each at most 1, is at most the number
    of query words. *)
Lemma keyword_matches_bounds (content_lower : string) (words : list string) :
  let matches :=
    fold_right
      (fun word acc =>
         if contains word content_lower
         then Rmin (INR (PyStr.count content_lower word) * (3 / 10)) 1 + acc
         else acc)
      0 words in
  0 <= matches <= INR (List.length words).
Proof.
  induction words as [|w ws IH]; cbn [fold_right List.length].
  - cbn. lra.
  - cbv zeta in IH. rewrite S_INR.
    destruct (contains w content_lower); [| lra].
    pose proof (Rmin_r (INR (PyStr.count content_lower w) * (3 / 10)) 1).
    assert (0 <= Rmin (INR (PyStr.count content_lower w) * (3 / 10)) 1).
    { apply Rmin_glb; [| lra].
      pose proof (pos_INR (PyStr.count content_lower w)). lra. }
    lra.
Qed.

Lemma keyword_unit (query_words : list string) (c : string) :
  0 <= _calculate_keyword_similarity query_words c <= 1.
Proof.
  unfold _calculate_keyword_similarity. destruct c as [|a c]; [lra |].
  destruct query_words as [|w ws]; [lra |].
  destruct (contains _ _); [lra |].
  destruct (Nat.ltb_spec 0 (List.length (w :: ws))) as [Hpos | _]; [| lra].
  pose proof (keyword_matches_bounds (lower (String a c)) (w :: ws)) as Hm.
  cbv zeta in Hm. apply div_unit; [tauto | tauto | now apply lt_0_INR].
Qed.

Lemma semantic_unit (q : string) (documents : list Doc) :
  unit_scores (calculate_semantic_similarity q documents).
Proof.
  unfold calculate_semantic_similarity.
  destruct (preprocess_text q) as [|w ws]; [apply zero_scores_unit |].
  apply Forall_map, Forall_forall. intros doc _. cbn [snd].
  pose proof (title_unit q (title doc)).
  pose proof (content_unit (w :: ws) (content doc)).
  pose proof (keyword_unit (w :: ws) (content doc)).
  lra.
Qed.

Lemma score_at_unit (sims : list (Doc * R)) (i : nat) :
  unit_scores sims -> 0 <= score_at sims i <= 1.
Proof.
  intros H. unfold score_at.
  destruct (nth_in_or_default i sims
              ({| doc_id := ""; title := ""; content := "" |}, 0))
    as [Hin | ->]; [| cbn; lra].
  unfold unit_scores in H. rewrite Forall_forall in H. now apply H.
Qed.

Lemma hybrid_unit (q : string) (documents : list Doc) :
  unit_scores (calculate_hybrid_similarity q documents None).
Proof.
  unfold calculate_hybrid_similarity.
  destruct documents as [|d ds]; [constructor |].
  apply Forall_map, Forall_forall. intros id _. cbn [snd fst].
  pose proof (score_at_unit (fst id) (tf_idf_unit q (d :: ds))).
  pose proof (score_at_unit (fst id) (jaccard_unit q (d :: ds))).
  pose proof (score_at_unit (fst id) (semantic_unit q (d :: ds))).
  cbn [default_weights w_tfidf w_jaccard w_semantic]. lra.
Qed.

(** The bound of C2 over the exact real numbers: for every query, every
    document collection and every scoring algorithm - Jaccard, TF-IDF
    cosine, heuristic semantic and the hybrid fusion with its default
    weights, alone or as [calculate_similarity] dispatches them - the score
    of each document lies in [0, 1].  The code computes in binary floating
    point, where the bound fails ([tf_idf_score_exceeds_one] below). *)
Theorem scores_in_unit_interval (q : string) (documents : list Doc)
    (algorithm : string) :
  unit_scores (calculate_jaccard_similarity q documents)
  /\ unit_scores (calculate_tf_idf_similarity q documents)
  /\ unit_scores (calculate_semantic_similarity q documents)
  /\ unit_scores (calculate_hybrid_similarity q documents None)
  /\ unit_scores (calculate_similarity q documents algorithm).
Proof.
  pose proof (jaccard_unit q documents) as Hj.
  pose proof (tf_idf_unit q documents) as Ht.
  pose proof (semantic_unit q documents) as Hs.
  pose proof (hybrid_unit q documents) as Hh.
  repeat split; try assumption.
  unfold calculate_similarity.
  destruct (String.eqb algorithm "tfidf"); [exact Ht |].
  destruct (String.eqb algorithm "jaccard"); [exact Hj |].
  destruct (String.eqb algorithm "hybrid"); [exact Hh | exact Hs].
Qed.

End Scores.

(* ================================================================== *)
(** * The TF-IDF scorer in binary floating point *)
(* ================================================================== *)

(** The same scorer in the arithmetic the code runs in: Python's [float] is
    the binary64 format, every operation rounded to nearest. *)
Module FloatScores.

Import PyStr Py SimilarityEngine PrimFloat.
Open Scope string_scope.

(** A count as a [float]; the counts of words and documents are exact. *)
Definition of_count (n : nat) : float :=
  PrimFloat.of_uint63 (Uint63.of_Z (Z.of_nat n)).

Definition vector := list (string * float).

Fixpoint vec_get (v : vector) (key : string) : float :=
  match v with
  | [] => 0%float
  | (k, x) :: v' => if String.eqb key k then x else vec_get v' key
  end.

(** The [for key in all_keys] loop with its three accumulators. *)
Fixpoint accumulate (vec1 vec2 : vector) (keys : list string)
    (acc : float * float * float) : float * float * float :=
  match keys with
  | [] => acc
  | key :: rest =>
      let '(dot_product, magnitude1, magnitude2) := acc in
      let v1 := vec_get vec1 key in
      let v2 := vec_get vec2 key in
      accumulate vec1 vec2 rest
                 ((dot_product + v1 * v2)%float,
                  (magnitude1 + v1 * v1)%float,
                  (magnitude2 + v2 * v2)%float)
  end.

(** The keys are visited in the order of the list; Python visits them in the
    order of its hash table. *)
Definition _cosine_similarity (vec1 vec2 : vector) : float :=
  let all_keys := to_set (map fst vec1 ++ map fst vec2) in
  let '(dot_product, magnitude1, magnitude2) :=
    accumulate vec1 vec2 all_keys (0%float, 0%float, 0%float) in
  let magnitude1 := PrimFloat.sqrt magnitude1 in
  let magnitude2 := PrimFloat.sqrt magnitude2 in
  if (magnitude1 =? 0)%float || (magnitude2 =? 0)%float then 0%float
  else (dot_product / (magnitude1 * magnitude2))%float.

Section Libm.

(** [math.log] is the logarithm of the C library. *)
Variable math_log : float -> float.

Definition tf_idf_vector (all_words : list string) (idf : string -> float)
    (words : list string) : vector :=
  map (fun word =>
         let tf := match words with
                   | [] => 0%float
                   | _ => (of_count (counter_get words word)
                           / of_count (List.length words))%float
                   end in
         (word, (tf * idf word)%float))
      all_words.

Definition calculate_tf_idf_similarity (query_text : string)
    (documents : list Doc) : list (Doc * float) :=
  match documents with
  | [] => []
  | _ =>
    let query_words := preprocess_text query_text in
    match query_words with
    | [] => map (fun doc => (doc, 0%float)) documents
    | _ =>
      let doc_words :=
        map (fun doc => preprocess_text (content doc ++ " " ++ title doc))
            documents in
      let all_words := to_set (query_words ++ List.concat doc_words) in
      let doc_count := List.length documents in
      let idf word :=
        let docs_with_word :=
          List.length (filter (fun words => mem word words) doc_words) in
        math_log (of_count doc_count / of_count (1 + docs_with_word))%float in
      let query_vector := tf_idf_vector all_words idf query_words in
      map (fun dw =>
             (fst dw,
              _cosine_similarity query_vector
                                 (tf_idf_vector all_words idf (snd dw))))
          (combine documents doc_words)
    end
  end.

End Libm.

End FloatScores.

(** The numbers of the example below. *)
Module FloatExample.

Import PrimFloat.

(** [math.log(0.5)] is the [float] nearest to the logarithm of one half,
    -0.6931471805599453. *)
Definition log_of_half : float := (-0x1.62e42fefa39efp-1)%float.

(** [math.log] where the example calls it, and no number elsewhere. *)
Definition log_at_half (x : float) : float :=
  if (x =? 0.5)%float then log_of_half else nan.

(** 1.0000000000000002, the next [float] above 1. *)
Definition above_one : float := 0x1.0000000000001p+0%float.

End FloatExample.

Definition doc_alpha_beta : SimilarityEngine.Doc :=
  {| SimilarityEngine.doc_id := "1"; SimilarityEngine.title := "";
     SimilarityEngine.content := "alpha beta" |}.

(** C2 does not hold of the code: the TF-IDF scorer returns a score above
    1.  Its cosine is a quotient of rounded numbers and is returned as it
    is, without the [min(..., 1.0)] of the other scorers.  For the query
    "alpha beta" against the one document "alpha beta" both vectors are
    0.5 * log(0.5) twice; the dot product and the squared magnitudes are
    the same sum [s], and [s / (sqrt(s) * sqrt(s))] is rounded to
    1.0000000000000002. *)
Theorem tf_idf_score_exceeds_one :
  FloatScores.calculate_tf_idf_similarity FloatExample.log_at_half
                                          "alpha beta" [doc_alpha_beta]
  = [(doc_alpha_beta, FloatExample.above_one)]
  /\ PrimFloat.ltb PrimFloat.one FloatExample.above_one = true
  /\ PrimFloat.leb FloatExample.above_one PrimFloat.one = false.
Proof. repeat split. Qed.

(** ** The guard of the cosine against a zero magnitude *)

Section FloatCosine.

Import PyStr SimilarityEngine FloatScores.
Open Scope nat_scope.
Open Scope list_scope.

(** A vector whose entries are all zero, of either sign: the TF-IDF vector
    of a text none of whose words carries weight.  The empty vector is
    one. *)
Definition zero_vector (v : vector) : Prop :=
  Forall (fun kx => snd kx = PrimFloat.zero \/ snd kx = PrimFloat.neg_zero) v.

Lemma vec_get_zero (v : vector) (key : string) :
  zero_vector v ->
  vec_get v key = PrimFloat.zero \/ vec_get v key = PrimFloat.neg_zero.
Proof.
  induction v as [|[k x] v IH]; intros H; cbn; [now left |].
  inversion H; subst. destruct (String.eqb key k); [assumption | now apply IH].
Qed.

(** The square of a zero adds nothing to a magnitude that is zero. *)
Lemma accumulate_zero_left (vec1 vec2 : vector) (keys : list string) :
  zero_vector vec1 ->
  forall dot_product magnitude2,
    exists dot_product' magnitude2',
      accumulate vec1 vec2 keys (dot_product, PrimFloat.zero, magnitude2)
      = (dot_product', PrimFloat.zero, magnitude2').
Proof.
  intros H. induction keys as [|key rest IH]; intros dot_product magnitude2;
    cbn [accumulate]; [now eexists; eexists |].
  destruct (vec_get_zero key H) as [-> | ->]; apply IH.
Qed.

Lemma accumulate_zero_right (vec1 vec2 : vector) (keys : list string) :
  zero_vector vec2 ->
  forall dot_product magnitude1,
    exists dot_product' magnitude1',
      accumulate vec1 vec2 keys (dot_product, magnitude1, PrimFloat.zero)
      = (dot_product', magnitude1', PrimFloat.zero).
Proof.
  intros H. induction keys as [|key rest IH]; intros dot_product magnitude1;
    cbn [accumulate]; [now eexists; eexists |].
  destruct (vec_get_zero key H) as [-> | ->]; apply IH.
Qed.

(** In the arithmetic of the code, the cosine of a zero vector with any
    vector is 0.0: its magnitude is the square root of a sum of zeros, which
    is zero, and the guard returns before the division. *)
Theorem cosine_of_zero_vector (vec1 vec2 : vector) :
  zero_vector vec1 \/ zero_vector vec2 ->
  _cosine_similarity vec1 vec2 = PrimFloat.zero.
Proof.
  intros [H | H]; unfold _cosine_similarity.
  - destruct (accumulate_zero_left vec2
                (to_set (map fst vec1 ++ map fst vec2)) H
                PrimFloat.zero PrimFloat.zero) as (d & m & E).
    unfold PrimFloat.zero in E. rewrite E. reflexivity.
  - destruct (accumulate_zero_right vec1
                (to_set (map fst vec1 ++ map fst vec2)) H
                PrimFloat.zero PrimFloat.zero) as (d & m & E).
    unfold PrimFloat.zero in E. rewrite E. cbv beta iota zeta.
    change (PrimFloat.eqb (PrimFloat.sqrt PrimFloat.zero) PrimFloat.zero)
      with true.
    now rewrite Bool.orb_true_r.
Qed.

End FloatCosine.

Lemma cosine_of_zero_vector_witness :
  FloatScores._cosine_similarity
    [("alpha"%string, PrimFloat.zero); ("beta"%string, PrimFloat.neg_zero)]
    [("alpha"%string, PrimFloat.one)]
  = PrimFloat.zero.
Proof.
  apply cosine_of_zero_vector. left.
  constructor; [now left |]. constructor; [now right | constructor].
Defined.

(* ================================================================== *)
(** * Properties of context assembly: the token budget *)
(* ================================================================== *)

Section ContextBudget.

Import PyStr Py RAGEngine.
Open Scope nat_scope.
Open Scope list_scope.

(** ** Splitting and joining *)

Lemma string_app_assoc (a b c : string) :
  ((a ++ b) ++ c)%string = (a ++ (b ++ c))%string.
Proof. induction a as [|x a IH]; cbn; [reflexivity | now rewrite IH]. Qed.

Lemma string_app_nil_r (a : string) : (a ++ "")%string = a.
Proof. induction a as [|x a IH]; cbn; [reflexivity | now rewrite IH]. Qed.

Fixpoint all_chars (p : ascii -> bool) (s : string) : bool :=
  match s with
  | EmptyString => true
  | String c s' => p c && all_chars p s'
  end.

(** A word of a split: not empty, and made of kept characters only. *)
Definition word_of (keep : ascii -> bool) (w : string) : Prop :=
  w <> EmptyString /\ all_chars keep w = true.


Lemma all_chars_rev (p : ascii -> bool) (s acc : string) :
  all_chars p (rev_string acc s) = all_chars p acc && all_chars p s.
Proof.
  revert acc. induction s as [|x s IH]; intros acc; cbn.
  - now rewrite andb_true_r.
  - rewrite IH. cbn. destruct (p x), (all_chars p acc); reflexivity.
Qed.

Lemma rev_string_empty (s acc : string) :
  rev_string acc s = EmptyString -> acc = EmptyString /\ s = EmptyString.
Proof.
  revert acc. induction s as [|x s IH]; intros acc H; cbn in H.
  - now split.
  - apply IH in H. destruct H as [H _]. discriminate H.
Qed.

Lemma rev_string_twice (w a b : string) :
  rev_string a (rev_string b w) = rev_string (w ++ a)%string b.
Proof.
  revert a b. induction w as [|x w IH]; intros a b; cbn; [reflexivity |].
  now rewrite IH.
Qed.

Lemma flush_rev_word (w : string) :
  w <> EmptyString -> flush (rev_string EmptyString w) = [w].
Proof.
  intros Hw. unfold flush.
  destruct (rev_string EmptyString w) eqn:E.
  - apply rev_string_empty in E. tauto.
  - rewrite <- E, rev_string_twice, string_app_nil_r. reflexivity.
Qed.

(** Reading a run of kept characters only moves them to the current run. *)
Lemma runs_word (keep : ascii -> bool) (w s cur : string) :
  all_chars keep w = true ->
  runs keep cur (w ++ s)%string = runs keep (rev_string cur w) s.
Proof.
  revert cur. induction w as [|x w IH]; intros cur Hw; cbn in *;
    [reflexivity |].
  apply andb_prop in Hw. destruct Hw as [Hx Hw]. rewrite Hx. now apply IH.
Qed.

(** Splitting the words joined by one separator gives the words back. *)
Lemma runs_join (keep : ascii -> bool) (sep : ascii) (ws : list string) :
  keep sep = false ->
  Forall (word_of keep) ws ->
  runs keep EmptyString (join (String sep EmptyString) ws) = ws.
Proof.
  intros Hsep. induction ws as [|w ws IH]; intros Hws; [reflexivity |].
  inversion Hws as [|? ? [Hne Hall] Hrest]; subst.
  destruct ws as [|w2 ws].
  - cbn [join]. rewrite <- (string_app_nil_r w) at 1.
    rewrite runs_word by exact Hall. cbn [runs]. now apply flush_rev_word.
  - change (join (String sep EmptyString) (w :: w2 :: ws))
      with (w ++ String sep (join (String sep EmptyString) (w2 :: ws)))%string.
    rewrite runs_word by exact Hall. cbn [runs]. rewrite Hsep.
    rewrite flush_rev_word by exact Hne. cbn [app]. f_equal. now apply IH.
Qed.

(** Every piece of a split is a word. *)
Lemma runs_words (keep : ascii -> bool) (s cur : string) :
  all_chars keep cur = true -> Forall (word_of keep) (runs keep cur s).
Proof.
  assert (Hflush : forall cur, all_chars keep cur = true ->
                               Forall (word_of keep) (flush cur)).
  { intros ws Hws. unfold flush. destruct ws as [|x ws'] eqn:E; [constructor |].
    rewrite <- E. constructor; [| constructor]. split.
    - intros H. apply rev_string_empty in H. destruct H as [_ H].
      rewrite E in H. discriminate H.
    - rewrite all_chars_rev. cbn. rewrite E. exact Hws. }
  revert cur. induction s as [|x s IH]; intros cur Hcur; cbn.
  - now apply Hflush.
  - destruct (keep x) eqn:Hx.
    + apply IH. cbn. now rewrite Hx.
    + apply Forall_app. split; [now apply Hflush | now apply IH].
Qed.

Definition not_space (c : ascii) : bool := negb (is_space c).

Lemma split_words (s : string) : Forall (word_of not_space) (split s).
Proof. apply runs_words. reflexivity. Qed.

Lemma split_join (ws : list string) :
  Forall (word_of not_space) ws -> split (join " " ws) = ws.
Proof. intros H. apply (@runs_join not_space " "%char ws); [reflexivity | exact H]. Qed.






(** ** The estimator and the binary search *)

Variable tm : TokenManager.
Hypothesis no_encoder : encoder tm = None.

Lemma count_tokens_estimate (text : string) :
  count_tokens tm text = (13 * List.length (split text)) / 10.
Proof. unfold count_tokens. now rewrite no_encoder. Qed.


(** The loop ends before the fuel does: beyond [right - left] turns the
    amount of fuel does not matter. *)
Lemma search_prefix_fuel (words : list string) (max_tokens : nat) :
  forall fuel fuel' left right,
    right - left <= fuel -> right - left <= fuel' ->
    search_prefix tm words max_tokens fuel left right
    = search_prefix tm words max_tokens fuel' left right.
Proof.
  induction fuel as [|fuel IH]; intros fuel' left right Hf Hf'.
  - destruct fuel' as [|fuel']; [reflexivity |]. cbn [search_prefix].
    destruct (Nat.ltb_spec left right); [lia | reflexivity].
  - destruct fuel' as [|fuel'].
    + cbn [search_prefix].
      destruct (Nat.ltb_spec left right); [lia | reflexivity].
    + cbn [search_prefix].
      destruct (Nat.ltb_spec left right) as [Hlt | _]; [| reflexivity].
      assert (Hmid : left < (left + right + 1) / 2 <= right).
      { split.
        - apply Nat.div_le_lower_bound; lia.
        - apply Nat.Div0.div_le_upper_bound. lia. }
      destruct (count_tokens tm _ <=? max_tokens); apply IH; lia.
Qed.


(** ** The assembled context *)

Variable self : Engine.
Hypothesis self_tm : token_manager self = tm.





End ContextBudget.

(** The engine as [RAGEngine.__init__] configures it when no tokenizer is
    loaded: tokens are estimated from the number of words. *)
Definition word_counting : RAGEngine.TokenManager :=
  {| RAGEngine.encoder := None |}.

Definition configured_engine : RAGEngine.Engine :=
  RAGEngine.init word_counting.







(* ================================================================== *)
(** * What [sorted(..., reverse=True)] guarantees *)
(* ================================================================== *)

Section StableSort.

Open Scope nat_scope.
Open Scope list_scope.

Variable A : Type.

(** [ge x y]: the key of [x] is at least the key of [y]. *)
Variable ge : A -> A -> bool.

(** The insertion that [insert_desc] and [insert_by_score] both are. *)
Fixpoint insert_sorted (x : A) (l : list A) : list A :=
  match l with
  | [] => [x]
  | y :: l' => if ge x y then x :: y :: l' else y :: insert_sorted x l'
  end.

Definition sort_sorted (l : list A) : list A :=
  fold_right insert_sorted [] l.

Definition descending : list A -> Prop :=
  StronglySorted (fun a b => ge a b = true).

Lemma insert_sorted_perm (x : A) (l : list A) :
  Permutation (x :: l) (insert_sorted x l).
Proof.
  induction l as [|y l IH]; cbn; [reflexivity |].
  destruct (ge x y); [reflexivity |].
  rewrite perm_swap. now apply perm_skip.
Qed.

Lemma sort_sorted_perm (l : list A) : Permutation l (sort_sorted l).
Proof.
  induction l as [|x l IH]; cbn; [reflexivity |].
  rewrite <- insert_sorted_perm. now apply perm_skip.
Qed.

Hypothesis ge_total : forall a b, ge a b = false -> ge b a = true.
Hypothesis ge_trans :
  forall a b c, ge a b = true -> ge b c = true -> ge a c = true.

Lemma insert_sorted_descending (x : A) (l : list A) :
  descending l -> descending (insert_sorted x l).
Proof.
  unfold descending. induction l as [|y l IH]; intros Hs; cbn.
  - constructor; constructor.
  - inversion Hs as [| ? ? Hl Hy]; subst.
    destruct (ge x y) eqn:E.
    + constructor; [exact Hs |]. constructor; [exact E |].
      rewrite Forall_forall in *. intros z Hz. eapply ge_trans; eauto.
    + constructor; [now apply IH |].
      rewrite Forall_forall in *. intros z Hz.
      apply (Permutation_in _ (Permutation_sym (insert_sorted_perm x l))) in Hz.
      destruct Hz as [<- | Hz]; [now apply ge_total | now apply Hy].
Qed.

Lemma sort_sorted_descending (l : list A) : descending (sort_sorted l).
Proof.
  induction l as [|x l IH]; cbn; [constructor |].
  now apply insert_sorted_descending.
Qed.

End StableSort.

(** A prefix of a descending list is descending, and dominates what it
    leaves out. *)
Lemma descending_firstn {A} (ge : A -> A -> bool) (l : list A) (n : nat) :
  descending ge l ->
  descending ge (firstn n l)
  /\ forall a b, In a (firstn n l) -> In b (skipn n l) -> ge a b = true.
Proof.
  unfold descending. revert n.
  induction l as [|x l IH]; intros n Hs.
  - rewrite firstn_nil, skipn_nil. split; [constructor | intros ? ? []].
  - destruct n as [|n]; [split; [constructor | intros ? ? []] |].
    inversion Hs as [| ? ? Hl Hx]; subst. cbn [firstn skipn].
    destruct (IH n Hl) as [Hf Hd]. rewrite Forall_forall in Hx. split.
    + constructor; [exact Hf |]. rewrite Forall_forall. intros z Hz.
      apply Hx. rewrite <- (firstn_skipn n l). apply in_or_app. now left.
    + intros a b [<- | Ha] Hb.
      * apply Hx. rewrite <- (firstn_skipn n l). apply in_or_app. now right.
      * now apply Hd.
Qed.

Lemma descending_map {A B} (f : A -> B) (geA : A -> A -> bool)
    (R : B -> B -> Prop) (l : list A) :
  (forall a b, geA a b = true -> R (f a) (f b)) ->
  descending geA l -> StronglySorted R (map f l).
Proof.
  intros Hf. unfold descending. induction 1 as [| x l Hl IH Hx]; cbn.
  - constructor.
  - constructor; [exact IH |]. rewrite Forall_forall in *.
    intros y Hy. apply in_map_iff in Hy. destruct Hy as (a & <- & Ha).
    apply Hf. now apply Hx.
Qed.

(* ================================================================== *)
(** * rank_documents: the best results first *)
(* ================================================================== *)

Section Ranking.

Import Py SimilarityEngine.
Open Scope nat_scope.
Open Scope list_scope.

Lemma insert_desc_sorted {score} (score_ge : score -> score -> bool)
    (x : Doc * score) (l : list (Doc * score)) :
  insert_desc score_ge x l
  = insert_sorted (fun a b => score_ge (snd a) (snd b)) x l.
Proof. induction l as [|y l IH]; cbn; [reflexivity | now rewrite IH]. Qed.

Lemma sorted_desc_sorted {score} (score_ge : score -> score -> bool)
    (l : list (Doc * score)) :
  sorted_desc score_ge l
  = sort_sorted (fun a b => score_ge (snd a) (snd b)) l.
Proof.
  induction l as [|x l IH]; cbn; [reflexivity |].
  unfold sorted_desc in IH. now rewrite IH, insert_desc_sorted.
Qed.

Lemma Rge_bool_true (a b : R) : Rge_bool a b = true <-> (b <= a)%R.
Proof.
  unfold Rge_bool. destruct (Rle_dec b a); split; intros H;
    try reflexivity; try assumption; try discriminate; contradiction.
Qed.

Lemma Rge_bool_total (a b : R) : Rge_bool a b = false -> Rge_bool b a = true.
Proof.
  intros H. apply Rge_bool_true.
  destruct (Rle_dec a b) as [Hle | Hn]; [exact Hle |].
  assert (Hba : (b <= a)%R) by lra.
  apply Rge_bool_true in Hba. congruence.
Qed.

Lemma Rge_bool_trans (a b c : R) :
  Rge_bool a b = true -> Rge_bool b c = true -> Rge_bool a c = true.
Proof. rewrite !Rge_bool_true. lra. Qed.

(** What the first [try] of [rank_documents] leaves in [top_k]. *)
Lemma coerce_top_k_cases (v : py_value) :
  (exists k, coerce_top_k v = Ok k /\ (0 < k)%Z)
  \/ (coerce_top_k v = Raise OverflowError
      /\ (v = PyFloat PosInf \/ v = PyFloat NegInf)).
Proof.
  unfold coerce_top_k.
  destruct v as [| z | [q | | |] | s |]; cbn;
    try (left; exists 5%Z; split; [reflexivity | lia]);
    try (right; split; [reflexivity | tauto]).
  - left. destruct (Z.leb_spec z 0);
      eexists; (split; [reflexivity | lia]).
  - left. destruct (Z.leb_spec (Z.quot (Qnum q) (Z.pos (Qden q))) 0);
      eexists; (split; [reflexivity | lia]).
  - left. destruct (int_of_string s) as [z |]; cbn.
    + destruct (Z.leb_spec z 0); eexists; (split; [reflexivity | lia]).
    + exists 5%Z. split; [reflexivity | lia].
Qed.

(** What the first [try] of [rank_documents] leaves in [top_k], whatever
    the builtin [int] does: the default 5 for [None], for a value [int()]
    rejects with [ValueError] or [TypeError] and for an integer that is not
    positive; the integer itself when it is positive; and any other
    exception of [int()] goes past the handler. *)
Lemma coerce_top_k_with_cases (py_int : py_value -> result Z) (v : py_value) :
  (exists k, coerce_top_k_with py_int v = Ok k
             /\ ((v <> PyNone /\ py_int v = Ok k /\ (0 < k)%Z)
                 \/ (k = 5%Z
                     /\ (v = PyNone
                         \/ py_int v = Raise ValueError
                         \/ py_int v = Raise TypeError
                         \/ exists z, py_int v = Ok z /\ (z <= 0)%Z))))
  \/ (exists e, coerce_top_k_with py_int v = Raise e
                /\ v <> PyNone /\ py_int v = Raise e
                /\ e <> ValueError /\ e <> TypeError).
Proof.
  assert (Hcases :
    v <> PyNone ->
    (exists k,
        match py_int v with
        | Ok k => Ok (if (k <=? 0)%Z then 5%Z else k)
        | Raise ValueError => Ok 5%Z
        | Raise TypeError => Ok 5%Z
        | Raise e => Raise e
        end = Ok k
        /\ ((v <> PyNone /\ py_int v = Ok k /\ (0 < k)%Z)
            \/ (k = 5%Z
                /\ (v = PyNone
                    \/ py_int v = Raise ValueError
                    \/ py_int v = Raise TypeError
                    \/ exists z, py_int v = Ok z /\ (z <= 0)%Z))))
    \/ (exists e,
           match py_int v with
           | Ok k => Ok (if (k <=? 0)%Z then 5%Z else k)
           | Raise ValueError => Ok 5%Z
           | Raise TypeError => Ok 5%Z
           | Raise e => Raise e
           end = Raise e
           /\ v <> PyNone /\ py_int v = Raise e
           /\ e <> ValueError /\ e <> TypeError)).
  { intros Hv. destruct (py_int v) as [z | e].
    - left. destruct (Z.leb_spec z 0).
      + exists 5%Z. split; [reflexivity | right].
        split; [reflexivity |]. right. right. right. now exists z.
      + exists z. split; [reflexivity | left]. auto.
    - destruct e;
        try (left; exists 5%Z; split; [reflexivity | right];
             split; [reflexivity | tauto]);
        right; eexists; (split; [reflexivity |]);
        (split; [exact Hv |]); (split; [reflexivity |]);
        split; discriminate. }
  unfold coerce_top_k_with. destruct v; try (apply Hcases; discriminate).
  left. exists 5%Z. split; [reflexivity | right]. tauto.
Qed.

Lemma pair_of_ranked (l : list (Doc * R)) :
  map (fun r : Ranked R => (ranked_doc r, similarity_score r))
      (map (fun ds => {| ranked_doc := fst ds; similarity_score := snd ds |}) l)
  = l.
Proof.
  rewrite map_map. cbn. rewrite <- (map_id l) at 2.
  apply map_ext. now intros [d s].
Qed.

(** [rank_documents] as the real-valued scorers use it, whatever the builtin
    [int] does.  When it returns, the results are in descending score order;
    there are as many as [top_k] allows and the threshold lets through,
    where [top_k] counts as 5 when it is [None], when [int()] rejects it
    with [ValueError] or [TypeError] and when its integer is not positive,
    and as its integer otherwise; and they are the best ones, every document
    that passed the threshold and was cut off scoring no more than any
    document returned.  It raises only what [int(top_k)] raised, and never
    [ValueError] or [TypeError]. *)
Theorem rank_documents_best_first (py_int : py_value -> result Z)
    (sims : list (Doc * R)) (top_k : py_value) (thr : option R) :
  let passed :=
    filter (fun ds => Rge_bool (snd ds) (coerce_threshold (1 / 10)%R thr))
           sims in
  match rank_documents_with Rge_bool (1 / 10)%R py_int sims top_k thr with
  | Ok ranked =>
      StronglySorted
        (fun a b => (similarity_score b <= similarity_score a)%R) ranked
      /\ (exists k,
            List.length ranked = Nat.min (Z.to_nat k) (List.length passed)
            /\ ((top_k <> PyNone /\ py_int top_k = Ok k /\ (0 < k)%Z)
                \/ (k = 5%Z
                    /\ (top_k = PyNone
                        \/ py_int top_k = Raise ValueError
                        \/ py_int top_k = Raise TypeError
                        \/ exists z, py_int top_k = Ok z /\ (z <= 0)%Z))))
      /\ (exists dropped,
            Permutation
              (map (fun r => (ranked_doc r, similarity_score r)) ranked
               ++ dropped)
              passed
            /\ forall r d, In r ranked -> In d dropped ->
                           (snd d <= similarity_score r)%R)
  | Raise e =>
      top_k <> PyNone /\ py_int top_k = Raise e
      /\ e <> ValueError /\ e <> TypeError
  end.
Proof.
  intros passed. unfold rank_documents_with.
  destruct (coerce_top_k_with_cases py_int top_k)
    as [(k & Hk & Hwhich) | (e & Hk & Hraise)];
    rewrite Hk; cbn [bind]; [| exact Hraise].
  assert (Hpos : (0 < k)%Z).
  { destruct Hwhich as [(_ & _ & H) | [-> _]]; [exact H | lia]. }
  fold passed. rewrite sorted_desc_sorted.
  set (ge := fun a b : Doc * R => Rge_bool (snd a) (snd b)).
  assert (Hslice : forall l : list (Doc * R),
             slice_int l k = firstn (Z.to_nat k) l).
  { intros l. unfold slice_int. destruct (Z.ltb_spec k 0); [lia | reflexivity]. }
  rewrite Hslice.
  assert (Hdesc : descending ge (sort_sorted ge passed)).
  { apply sort_sorted_descending.
    - intros a b. apply Rge_bool_total.
    - intros a b c. apply Rge_bool_trans. }
  destruct (descending_firstn (Z.to_nat k) Hdesc) as [Hfirst Hcut].
  split; [| split].
  - apply (descending_map _ (geA := ge)); [| exact Hfirst].
    intros a b Hab. cbn. now apply Rge_bool_true.
  - exists k. split; [| exact Hwhich].
    rewrite length_map, length_firstn.
    now rewrite <- (Permutation_length (sort_sorted_perm ge passed)).
  - exists (skipn (Z.to_nat k) (sort_sorted ge passed)). split.
    + rewrite pair_of_ranked, firstn_skipn.
      apply Permutation_sym, sort_sorted_perm.
    + intros r d Hr Hd. apply in_map_iff in Hr.
      destruct Hr as (ds & <- & Hds). cbn.
      apply Rge_bool_true. exact (Hcut ds d Hds Hd).
Qed.

End Ranking.

(* ================================================================== *)
(** * advanced_search: order and size of the answer *)
(* ================================================================== *)

Section AdvancedSearchOrder.

Import PyStr Py AdvancedRAGEngine.
Open Scope nat_scope.
Open Scope list_scope.

(** [x] goes before [y] when it scores at least as much. *)
Definition score_ge (x y : SearchResult) : bool :=
  Qle_bool (similarity_score y) (similarity_score x).

Lemma insert_by_score_sorted (x : SearchResult) (l : list SearchResult) :
  insert_by_score x l = insert_sorted score_ge x l.
Proof. induction l as [|y l IH]; cbn; [reflexivity | now rewrite IH]. Qed.

Lemma sorted_by_score_sorted (l : list SearchResult) :
  sorted_by_score l = sort_sorted score_ge l.
Proof.
  induction l as [|x l IH]; cbn; [reflexivity |].
  unfold sorted_by_score in IH. now rewrite IH, insert_by_score_sorted.
Qed.

Lemma score_ge_total (a b : SearchResult) :
  score_ge a b = false -> score_ge b a = true.
Proof.
  unfold score_ge. intros H. apply Qle_bool_iff.
  destruct (Qlt_le_dec (similarity_score b) (similarity_score a)) as [Hlt | Hle].
  - apply Qlt_le_weak in Hlt. apply Qle_bool_iff in Hlt. congruence.
  - exact Hle.
Qed.

Lemma score_ge_trans (a b c : SearchResult) :
  score_ge a b = true -> score_ge b c = true -> score_ge a c = true.
Proof.
  unfold score_ge. rewrite !Qle_bool_iff. intros H1 H2.
  eapply Qle_trans; eassumption.
Qed.

Lemma sorted_by_score_descending (l : list SearchResult) :
  descending score_ge (sorted_by_score l).
Proof.
  rewrite sorted_by_score_sorted.
  apply sort_sorted_descending; [exact score_ge_total | exact score_ge_trans].
Qed.

Lemma slice_int_firstn {A} (l : list A) (n : Z) :
  exists k, slice_int l n = firstn k l
            /\ ((0 <= n)%Z -> k = Z.to_nat n).
Proof.
  unfold slice_int. destruct (Z.ltb_spec n 0).
  - eexists. split; [reflexivity | lia].
  - eexists. split; [reflexivity | reflexivity].
Qed.

Lemma post_process_descending (results out : list SearchResult)
    (sq : SearchQuery) :
  _post_process_results results sq = Ok out -> descending score_ge out.
Proof.
  unfold _post_process_results. set (l := sorted_by_score _).
  assert (Hl : descending score_ge l) by apply sorted_by_score_descending.
  destruct (top_k sq); cbn; try discriminate; intros H; inversion H; subst.
  - exact Hl.
  - destruct (slice_int_firstn l z) as (k & -> & _).
    now apply descending_firstn.
Qed.

(** Whatever the route, the threshold and [top_k], [advanced_search] answers
    with its results in descending order of score. *)
Theorem advanced_search_best_first (env : Env) (q : string)
    (alg : SearchAlgorithm) (k : py_value) (thr : option Q) :
  StronglySorted
    (fun a b => (similarity_score b <= similarity_score a)%Q)
    (advanced_search env q alg k thr).
Proof.
  unfold advanced_search.
  destruct (advanced_search_body _ _) as [out |] eqn:E;
    [| repeat constructor].
  unfold advanced_search_body in E.
  destruct (match algorithm _ with
            | HYBRID => _ | SEMANTIC => _ | KEYWORD => _
            | FUZZY => _ | CONTEXTUAL => _ end); cbn in E; [| discriminate].
  apply post_process_descending in E.
  rewrite <- (map_id out).
  apply (descending_map _ (geA := score_ge)); [| exact E].
  intros x y Hxy. now apply Qle_bool_iff.
Qed.

(** With an integer [top_k] nothing in [advanced_search] raises, so the
    answer is what the search and the post-processing computed, never the
    fabricated fallback; and a [top_k] that is not negative bounds the
    number of results. *)
Theorem advanced_search_at_most_top_k (env : Env) (q : string)
    (alg : SearchAlgorithm) (k : Z) (thr : option Q) :
  advanced_search_body env (make_query q alg (PyInt k) thr)
  = Ok (advanced_search env q alg (PyInt k) thr)
  /\ ((0 <= k)%Z ->
      List.length (advanced_search env q alg (PyInt k) thr) <= Z.to_nat k).
Proof.
  unfold advanced_search, advanced_search_body, _post_process_results,
    _hybrid_search.
  cbn [top_k make_query algorithm slice_to bind].
  assert (H : forall l : list SearchResult,
             (0 <= k)%Z -> List.length (slice_int l k) <= Z.to_nat k).
  { intros l Hk. destruct (slice_int_firstn l k) as (n & -> & Hn).
    rewrite length_firstn, (Hn Hk). apply Nat.le_min_l. }
  destruct alg; cbn [bind]; (split; [reflexivity | apply H]).
Qed.

End AdvancedSearchOrder.

(* ================================================================== *)
(** * _combine_search_results: fusion by chunk identifier *)
(* ================================================================== *)

Section Fusion.

Import PyStr Py AdvancedRAGEngine.
Open Scope nat_scope.
Open Scope list_scope.

(** The last result of [l] that carries the chunk identifier [c]. *)
Definition find_last (l : list SearchResult) (c : string)
  : option SearchResult :=
  find (fun r => String.eqb (chunk_id r) c) (rev l).

(** Its score; [0.0] when [l] has no result for [c]. *)
Definition last_score (l : list SearchResult) (c : string) : Q :=
  match find_last l c with
  | Some r => similarity_score r
  | None => 0%Q
  end.

Lemma find_last_snoc (l : list SearchResult) (x : SearchResult) (c : string) :
  find_last (l ++ [x]) c
  = if String.eqb (chunk_id x) c then Some x else find_last l c.
Proof. unfold find_last. now rewrite rev_unit. Qed.

Lemma find_last_none (l : list SearchResult) (c : string) :
  find_last l c = None <-> ~ In c (map chunk_id l).
Proof.
  unfold find_last. split.
  - intros H Hin. apply in_map_iff in Hin. destruct Hin as (r & <- & Hr).
    apply in_rev in Hr. pose proof (find_none _ _ H r Hr) as Hf.
    cbn in Hf. rewrite String.eqb_refl in Hf. discriminate.
  - intros H. destruct (find _ (rev l)) as [r |] eqn:E; [| reflexivity].
    apply find_some in E. destruct E as [Hr Heq].
    apply String.eqb_eq in Heq. exfalso. apply H. apply in_map_iff.
    exists r. split; [exact Heq | now apply in_rev].
Qed.

Lemma map_find_set (m : result_map) (k c : string) (d : ChunkData) :
  map_find (map_set m k d) c
  = if String.eqb k c then Some d else map_find m c.
Proof.
  induction m as [|[k0 d0] m IH]; cbn.
  - reflexivity.
  - destruct (String.eqb_spec k0 k) as [-> | Hne]; cbn.
    + now destruct (String.eqb k c).
    + rewrite IH. destruct (String.eqb_spec k0 c) as [-> | Hc];
        [| reflexivity].
      destruct (String.eqb_spec k c) as [-> | _]; [contradiction | reflexivity].
Qed.

Lemma map_set_keys (m : result_map) (k c : string) (d : ChunkData) :
  In c (map fst (map_set m k d)) <-> c = k \/ In c (map fst m).
Proof.
  induction m as [|[k0 d0] m IH]; cbn.
  - intuition.
  - destruct (String.eqb_spec k0 k) as [-> | Hne]; cbn; [intuition |].
    rewrite IH. intuition.
Qed.

Lemma map_set_NoDup (m : result_map) (k : string) (d : ChunkData) :
  NoDup (map fst m) -> NoDup (map fst (map_set m k d)).
Proof.
  induction m as [|[k0 d0] m IH]; cbn; intros H.
  - constructor; [intros [] | constructor].
  - inversion H as [| ? ? Hk0 Hm]; subst.
    destruct (String.eqb_spec k0 k) as [-> | Hne]; cbn.
    + now constructor.
    + constructor; [| now apply IH].
      rewrite map_set_keys. intros [-> | Hin]; [now apply Hne | now apply Hk0].
Qed.

Lemma map_find_In (m : result_map) (k : string) (d : ChunkData) :
  NoDup (map fst m) -> In (k, d) m -> map_find m k = Some d.
Proof.
  induction m as [|[k0 d0] m IH]; cbn; intros Hnd Hin; [contradiction |].
  inversion Hnd as [| ? ? Hk0 Hm]; subst.
  destruct Hin as [Heq | Hin].
  - inversion Heq; subst. now rewrite String.eqb_refl.
  - destruct (String.eqb_spec k0 k) as [-> | _]; [| now apply IH].
    exfalso. apply Hk0. apply in_map_iff. now exists (k, d).
Qed.

(** What the dictionary holds after the semantic results [s] and the keyword
    results [l] have been entered. *)
Definition fused (s l : list SearchResult) (m : result_map) : Prop :=
  NoDup (map fst m)
  /\ (forall c, In c (map fst m)
                <-> In c (map chunk_id s) \/ In c (map chunk_id l))
  /\ (forall c d, map_find m c = Some d ->
        semantic_score d = last_score s c
        /\ keyword_score d = last_score l c
        /\ chunk_id (cd_result d) = c).

Lemma fused_semantic (s : list SearchResult) (m : result_map)
    (x : SearchResult) :
  fused s [] m -> fused (s ++ [x]) [] (add_semantic m x).
Proof.
  intros (Hnd & Hkeys & Hfind). unfold add_semantic. split; [| split].
  - now apply map_set_NoDup.
  - intros c. rewrite map_set_keys, Hkeys, map_app, in_app_iff. cbn.
    intuition.
  - intros c d. rewrite map_find_set. unfold last_score.
    rewrite find_last_snoc.
    destruct (String.eqb_spec (chunk_id x) c) as [<- | Hne].
    + intros H. inversion H; subst. cbn. tauto.
    + apply Hfind.
Qed.

Lemma fused_keyword (s l : list SearchResult) (m : result_map)
    (x : SearchResult) :
  fused s l m -> fused s (l ++ [x]) (add_keyword m x).
Proof.
  intros (Hnd & Hkeys & Hfind).
  assert (Hset : forall d0,
             (map_find m (chunk_id x) = None ->
              semantic_score d0 = 0%Q /\ cd_result d0 = x) ->
             (forall d, map_find m (chunk_id x) = Some d ->
              semantic_score d0 = semantic_score d
              /\ cd_result d0 = cd_result d) ->
             keyword_score d0 = similarity_score x ->
             fused s (l ++ [x]) (map_set m (chunk_id x) d0)).
  { intros d0 Hnew Hold Hkw. split; [| split].
    - now apply map_set_NoDup.
    - intros c. rewrite map_set_keys, Hkeys, map_app, in_app_iff. cbn.
      intuition.
    - intros c d. rewrite map_find_set. unfold last_score at 2.
      rewrite find_last_snoc.
      destruct (String.eqb_spec (chunk_id x) c) as [<- | Hne];
        [| apply Hfind].
      intros H. inversion H; subst d. split; [| split]; [| exact Hkw |].
      + destruct (map_find m (chunk_id x)) as [d |] eqn:E.
        * destruct (Hold d eq_refl) as [-> _]. now apply Hfind.
        * destruct (Hnew eq_refl) as [-> _]. unfold last_score.
          assert (Hs : find_last s (chunk_id x) = None).
          { apply find_last_none. intros Hin.
            assert (Hk : In (chunk_id x) (map fst m))
              by (apply Hkeys; now left).
            clear - E Hk. induction m as [|[k0 d1] m IH]; cbn in *;
              [contradiction |].
            destruct (String.eqb_spec k0 (chunk_id x)); [discriminate |].
            destruct Hk as [Hk | Hk]; [contradiction | now apply IH]. }
          now rewrite Hs.
      + destruct (map_find m (chunk_id x)) as [d |] eqn:E.
        * destruct (Hold d eq_refl) as [_ ->]. now apply Hfind.
        * now destruct (Hnew eq_refl) as [_ ->]. }
  unfold add_keyword.
  destruct (map_find m (chunk_id x)) as [d |] eqn:E; apply Hset; cbn;
    try reflexivity; try discriminate.
  - intros d' H. inversion H; subst. tauto.
  - tauto.
Qed.

Lemma fused_all (sem kw : list SearchResult) :
  fused sem kw (fold_left add_keyword kw (fold_left add_semantic sem [])).
Proof.
  assert (Hs : forall xs s m,
             fused s [] m -> fused (s ++ xs) [] (fold_left add_semantic xs m)).
  { induction xs as [|x xs IH]; intros s m H; cbn.
    - now rewrite app_nil_r.
    - replace (s ++ x :: xs) with ((s ++ [x]) ++ xs)
        by now rewrite <- app_assoc.
      apply IH. now apply fused_semantic. }
  assert (Hk : forall xs s l m,
             fused s l m -> fused s (l ++ xs) (fold_left add_keyword xs m)).
  { induction xs as [|x xs IH]; intros s l m H; cbn.
    - now rewrite app_nil_r.
    - replace (l ++ x :: xs) with ((l ++ [x]) ++ xs)
        by now rewrite <- app_assoc.
      apply IH. now apply fused_keyword. }
  apply (Hk kw sem []), (Hs sem [] []).
  split; [constructor |]. split; [cbn; tauto | discriminate].
Qed.

(** Fusion yields one result per chunk identifier found by either search,
    in descending order of the combined score, which is 0.7 times the
    semantic score plus 0.3 times the keyword score of that chunk: the score
    of the last result a search returned for the chunk, and 0 when it
    returned none. *)
Theorem combine_search_results_fusion (sem kw : list SearchResult) :
  let out := _combine_search_results sem kw in
  StronglySorted
    (fun a b => (similarity_score b <= similarity_score a)%Q) out
  /\ NoDup (map chunk_id out)
  /\ (forall c, In c (map chunk_id out)
                <-> In c (map chunk_id sem) \/ In c (map chunk_id kw))
  /\ (forall r, In r out ->
        similarity_score r
        = (last_score sem (chunk_id r) * (7 # 10)
           + last_score kw (chunk_id r) * (3 # 10))%Q).
Proof.
  intros out. subst out. unfold _combine_search_results.
  set (m := fold_left add_keyword kw (fold_left add_semantic sem [])).
  destruct (fused_all sem kw) as (Hnd & Hkeys & Hfind). fold m in Hnd, Hkeys, Hfind.
  set (g := fun kd : string * ChunkData =>
              with_score (cd_result (snd kd)) (combined_score (snd kd))).
  assert (Hperm : Permutation (map g m) (sorted_by_score (map g m))).
  { rewrite sorted_by_score_sorted. apply sort_sorted_perm. }
  assert (Hentry : forall kd, In kd m ->
             chunk_id (g kd) = fst kd
             /\ similarity_score (g kd)
                = (last_score sem (fst kd) * (7 # 10)
                   + last_score kw (fst kd) * (3 # 10))%Q).
  { intros [k d] Hin. cbn.
    destruct (Hfind k d (@map_find_In m k d Hnd Hin)) as (Hs & Hk & Hc).
    unfold combined_score. now rewrite Hs, Hk. }
  assert (Hids : map chunk_id (map g m) = map fst m).
  { rewrite map_map. apply map_ext_in. intros kd Hin. now apply Hentry. }
  split; [| split; [| split]].
  - rewrite <- (map_id (sorted_by_score _)).
    apply (descending_map _ (geA := score_ge));
      [| apply sorted_by_score_descending].
    intros x y Hxy. now apply Qle_bool_iff.
  - apply (Permutation_NoDup (Permutation_map chunk_id Hperm)).
    now rewrite Hids.
  - intros c. rewrite <- Hkeys, <- Hids. split; intros H.
    + now apply (Permutation_in _ (Permutation_sym (Permutation_map chunk_id Hperm))).
    + now apply (Permutation_in _ (Permutation_map chunk_id Hperm)).
  - intros r Hr.
    apply (Permutation_in _ (Permutation_sym Hperm)) in Hr.
    apply in_map_iff in Hr. destruct Hr as (kd & <- & Hin).
    destruct (Hentry kd Hin) as [-> ->]. reflexivity.
Qed.

End Fusion.

(* ================================================================== *)
(** * Letter case and white space *)
(* ================================================================== *)

(** A text of ASCII characters only.  On such a text [lower], [upper], the
    class [\w], [split()] and [len] of the embedding are those of Python;
    beyond ASCII Python follows Unicode, where upper-casing can change the
    letters and the length of a text for good, and the statements about
    letter case below are made of ASCII text only. *)
Definition ascii_text (s : string) : bool :=
  all_chars (fun c => (nat_of_ascii c <? 128)%nat) s.

Section LetterCase.

Import PyStr.
Open Scope nat_scope.
Open Scope list_scope.

Ltac each_char c :=
  destruct c as [[] [] [] [] [] [] [] []]; reflexivity.

Lemma lower_char_idem (c : ascii) : lower_char (lower_char c) = lower_char c.
Proof. each_char c. Qed.

Lemma lower_upper_char (c : ascii) : lower_char (upper_char c) = lower_char c.
Proof. each_char c. Qed.

Lemma lower_char_space (c : ascii) : is_space (lower_char c) = is_space c.
Proof. each_char c. Qed.

Lemma upper_char_space (c : ascii) : is_space (upper_char c) = is_space c.
Proof. each_char c. Qed.

Lemma lower_char_word (c : ascii) : is_word (lower_char c) = is_word c.
Proof. each_char c. Qed.

Lemma lower_char_not_upper (c : ascii) : is_upper (lower_char c) = false.
Proof. each_char c. Qed.

Lemma map_chars_compose (f g : ascii -> ascii) (s : string) :
  map_chars f (map_chars g s) = map_chars (fun c => f (g c)) s.
Proof. induction s as [|c s IH]; cbn; [reflexivity | now rewrite IH]. Qed.

Lemma map_chars_ext (f g : ascii -> ascii) (s : string) :
  (forall c, f c = g c) -> map_chars f s = map_chars g s.
Proof.
  intros H. induction s as [|c s IH]; cbn; [reflexivity | now rewrite H, IH].
Qed.

Lemma map_chars_length (f : ascii -> ascii) (s : string) :
  String.length (map_chars f s) = String.length s.
Proof. induction s as [|c s IH]; cbn; [reflexivity | now rewrite IH]. Qed.

Lemma lower_idem (s : string) : lower (lower s) = lower s.
Proof.
  unfold lower. rewrite map_chars_compose.
  apply map_chars_ext, lower_char_idem.
Qed.

Lemma lower_upper (s : string) : lower (upper s) = lower s.
Proof.
  unfold lower, upper. rewrite map_chars_compose.
  apply map_chars_ext, lower_upper_char.
Qed.

Lemma rev_string_map (f : ascii -> ascii) (s acc : string) :
  rev_string (map_chars f acc) (map_chars f s)
  = map_chars f (rev_string acc s).
Proof.
  revert acc. induction s as [|c s IH]; intros acc; cbn; [reflexivity |].
  now rewrite <- IH.
Qed.

Lemma flush_map (f : ascii -> ascii) (cur : string) :
  flush (map_chars f cur) = map (map_chars f) (flush cur).
Proof.
  destruct cur as [|c cur]; [reflexivity |].
  unfold flush. cbn [map_chars map].
  change (String (f c) (map_chars f cur)) with (map_chars f (String c cur)).
  now rewrite <- rev_string_map.
Qed.

(** A change of characters that respects the kept class commutes with the
    cutting into runs. *)
Lemma runs_map_chars (keep : ascii -> bool) (f : ascii -> ascii) :
  (forall c, keep (f c) = keep c) ->
  forall s cur,
    runs keep (map_chars f cur) (map_chars f s)
    = map (map_chars f) (runs keep cur s).
Proof.
  intros Hf. induction s as [|c s IH]; intros cur; cbn.
  - apply flush_map.
  - rewrite Hf. destruct (keep c).
    + apply (IH (String c cur)).
    + rewrite map_app, <- flush_map. f_equal. apply (IH EmptyString).
Qed.

Lemma split_lower (s : string) : split (lower s) = map lower (split s).
Proof.
  apply (@runs_map_chars (fun c => negb (is_space c)) lower_char
           (fun c => f_equal negb (lower_char_space c)) s EmptyString).
Qed.

Lemma split_upper (s : string) : split (upper s) = map upper (split s).
Proof.
  apply (@runs_map_chars (fun c => negb (is_space c)) upper_char
           (fun c => f_equal negb (upper_char_space c)) s EmptyString).
Qed.

Lemma findall_words_lower (s : string) :
  findall_words (lower s) = map lower (findall_words s).
Proof.
  apply (@runs_map_chars is_word lower_char lower_char_word s EmptyString).
Qed.

End LetterCase.

(* ================================================================== *)
(** * Content overlap and what deduplication keeps *)
(* ================================================================== *)

(** [l1] is [l2] with some elements left out, the order kept. *)
Inductive subsequence {A : Type} : list A -> list A -> Prop :=
| subsequence_nil : subsequence [] []
| subsequence_skip (x : A) (l1 l2 : list A) :
    subsequence l1 l2 -> subsequence l1 (x :: l2)
| subsequence_keep (x : A) (l1 l2 : list A) :
    subsequence l1 l2 -> subsequence (x :: l1) (x :: l2).

Section ContentOverlap.

Import PyStr Py AdvancedRAGEngine.
Open Scope nat_scope.
Open Scope list_scope.

Lemma inter_self (a : list string) : inter a a = a.
Proof.
  unfold inter. apply forallb_filter_id, forallb_forall.
  intros x Hx. now apply mem_In.
Qed.

Lemma union_self (a : list string) : PyStr.union a a = a.
Proof.
  unfold PyStr.union. rewrite <- (app_nil_r a) at 3. f_equal.
  assert (H : forall l, incl l a -> filter (fun x => negb (mem x a)) l = []).
  { induction l as [|y l IH]; intros Hl; cbn; [reflexivity |].
    assert (Hy : mem y a = true) by (apply mem_In, Hl; now left).
    rewrite Hy. cbn. apply IH. intros z Hz. apply Hl. now right. }
  apply H, incl_refl.
Qed.

Lemma to_set_nil (l : list string) : to_set l = [] -> l = [].
Proof.
  destruct l as [|x l]; [reflexivity |]. intros H.
  assert (Hin : In x (to_set (x :: l))) by (apply nodup_In; now left).
  rewrite H in Hin. contradiction.
Qed.

Lemma nat_ratio_unit (n m : nat) :
  n <= m -> 0 < m ->
  (0 <= inject_Z (Z.of_nat n) / inject_Z (Z.of_nat m) <= 1)%Q.
Proof.
  intros Hnm Hm.
  assert (Hpos : (0 < inject_Z (Z.of_nat m))%Q).
  { change 0%Q with (inject_Z 0). rewrite <- Zlt_Qlt. lia. }
  split.
  - apply Qle_shift_div_l; [exact Hpos |]. rewrite Qmult_0_l.
    change 0%Q with (inject_Z 0). rewrite <- Zle_Qle. lia.
  - apply Qle_shift_div_r; [exact Hpos |]. rewrite Qmult_1_l.
    rewrite <- Zle_Qle. lia.
Qed.

Lemma content_similarity_bounds (c1 c2 : string) :
  (0 <= _calculate_content_similarity c1 c2 <= 1)%Q.
Proof.
  unfold _calculate_content_similarity.
  destruct (to_set (split (lower c1))) as [|x1 w1];
    [split; discriminate |].
  destruct (to_set (split (lower c2))) as [|x2 w2];
    [split; discriminate |].
  destruct (Nat.ltb_spec 0 (List.length (PyStr.union (x1 :: w1) (x2 :: w2))));
    [| split; discriminate].
  apply nat_ratio_unit; [apply inter_le_union | assumption].
Qed.

(** The overlap of two contents is the Jaccard index of their sets of
    lower-cased words: a number between 0 and 1, the same whichever content
    comes first, blind to the letter case of an ASCII content, and 1 for a
    content with at least one word compared to itself. *)
Theorem content_overlap_jaccard (c1 c2 : string) :
  (0 <= _calculate_content_similarity c1 c2 <= 1)%Q
  /\ _calculate_content_similarity c1 c2 = _calculate_content_similarity c2 c1
  /\ (ascii_text c1 = true ->
      _calculate_content_similarity (upper c1) c2
      = _calculate_content_similarity c1 c2)
  /\ (split c1 <> [] -> (_calculate_content_similarity c1 c1 == 1)%Q).
Proof.
  split; [| split; [| split]].
  - apply content_similarity_bounds.
  - apply content_similarity_comm.
  - intros _. unfold _calculate_content_similarity. now rewrite lower_upper.
  - intros Hne. unfold _calculate_content_similarity.
    destruct (to_set (split (lower c1))) as [|x w] eqn:E.
    + apply to_set_nil in E. rewrite split_lower in E.
      apply map_eq_nil in E. contradiction.
    + rewrite inter_self, union_self. cbn [List.length Nat.ltb Nat.leb].
      apply Qmult_inv_r. intros H.
      assert (H0 : (inject_Z (Z.of_nat (S (List.length w))) == inject_Z 0)%Q)
        by exact H.
      rewrite inject_Z_injective in H0. lia.
Qed.

Lemma content_overlap_jaccard_witness :
  ascii_text "Alpha Beta" = true
  /\ _calculate_content_similarity (upper "Alpha Beta") "alpha gamma"
     = _calculate_content_similarity "Alpha Beta" "alpha gamma"
  /\ (_calculate_content_similarity "Alpha Beta" "Alpha Beta" == 1)%Q.
Proof.
  destruct (content_overlap_jaccard "Alpha Beta" "alpha gamma")
    as (_ & _ & Hcase & _).
  destruct (content_overlap_jaccard "Alpha Beta" "Alpha Beta")
    as (_ & _ & _ & Hself).
  split; [reflexivity |]. split.
  - apply Hcase. reflexivity.
  - apply Hself. discriminate.
Defined.

Lemma dedup_loop_subsequence (rest unique : list SearchResult) :
  exists kept, dedup_loop unique rest = unique ++ kept
               /\ subsequence kept rest.
Proof.
  revert unique. induction rest as [|r rest IH]; intros unique; cbn.
  - exists []. split; [now rewrite app_nil_r | constructor].
  - destruct (existsb (is_duplicate_of r) unique).
    + destruct (IH unique) as (kept & -> & Hs).
      exists kept. split; [reflexivity | now constructor].
    + destruct (IH (unique ++ [r])) as (kept & -> & Hs).
      exists (r :: kept). split; [now rewrite <- app_assoc | now constructor].
Qed.

(** Candidates that are far apart from the accepted results and from one
    another are all accepted. *)
Lemma dedup_loop_fixed (rest : list SearchResult) :
  forall unique,
    ForallOrdPairs far_apart (unique ++ rest) ->
    dedup_loop unique rest = unique ++ rest.
Proof.
  induction rest as [|r rest IH]; intros unique H; cbn.
  - now rewrite app_nil_r.
  - assert (Hnone : existsb (is_duplicate_of r) unique = false).
    { destruct (existsb _ unique) eqn:E; [| reflexivity].
      apply existsb_exists in E. destruct E as (u & Hu & Hd).
      assert (Hfar : far_apart u r).
      { apply in_split in Hu. destruct Hu as (l1 & l2 & ->).
        rewrite <- app_assoc in H. cbn in H.
        clear - H. induction l1 as [|y l1 IHl]; cbn in H;
          inversion H as [| ? ? Hall Hrest]; subst.
        - rewrite Forall_forall in Hall. apply Hall.
          apply in_or_app. right. now left.
        - now apply IHl. }
      apply far_apart_sym, not_duplicate_far_apart in Hfar. congruence. }
    rewrite Hnone.
    replace (unique ++ r :: rest) with ((unique ++ [r]) ++ rest) in *
      by now rewrite <- app_assoc.
    now apply IH.
Qed.

(** Deduplication keeps the first candidate and a selection of the others in
    their order, and running it again on its own output changes nothing. *)
Theorem deduplicate_results_stable (results : list SearchResult) :
  subsequence (_deduplicate_results results) results
  /\ hd_error (_deduplicate_results results) = hd_error results
  /\ _deduplicate_results (_deduplicate_results results)
     = _deduplicate_results results.
Proof.
  split; [| split].
  - destruct results as [|first rest]; cbn; [constructor |].
    destruct (dedup_loop_subsequence rest [first]) as (kept & -> & Hs).
    now constructor.
  - destruct results as [|first rest]; cbn; [reflexivity |].
    now destruct (dedup_loop_subsequence rest [first]) as (kept & -> & _).
  - pose proof (deduplicate_pairs results) as Hp.
    destruct (_deduplicate_results results) as [|first rest]; [reflexivity |].
    cbn. now apply (dedup_loop_fixed rest [first]).
Qed.

End ContentOverlap.

(* ================================================================== *)
(** * The scorers: tokens, alignment with the documents, letter case *)
(* ================================================================== *)

Section ScorerShape.

Import PyStr Py SimilarityEngine.
Open Scope nat_scope.
Open Scope list_scope.

Lemma preprocess_text_upper (text : string) :
  preprocess_text (upper text) = preprocess_text text.
Proof. unfold preprocess_text. now rewrite lower_upper. Qed.

(** For an ASCII text, every token that [preprocess_text] returns has at
    least three characters, all of them word characters and none an
    upper-case letter, and is not a stop word; the letter case of the text
    does not matter. *)
Theorem preprocess_text_tokens (text : string) :
  ascii_text text = true ->
  Forall (fun word =>
            2 < String.length word
            /\ mem word stop_words = false
            /\ all_chars is_word word = true
            /\ all_chars (fun c => negb (is_upper c)) word = true)
         (preprocess_text text)
  /\ preprocess_text (upper text) = preprocess_text text
  /\ preprocess_text (lower text) = preprocess_text text.
Proof.
  intros _. split; [| split].
  - apply Forall_forall. intros word Hin. unfold preprocess_text in Hin.
    apply filter_In in Hin. destruct Hin as [Hin Hkeep].
    apply andb_prop in Hkeep. destruct Hkeep as [Hstop Hlen].
    apply negb_true_iff in Hstop. apply Nat.ltb_lt in Hlen.
    split; [exact Hlen |]. split; [exact Hstop |]. split.
    + pose proof (@runs_words is_word (lower text) EmptyString eq_refl) as Hw.
      rewrite Forall_forall in Hw. now apply (Hw word).
    + rewrite findall_words_lower in Hin. apply in_map_iff in Hin.
      destruct Hin as (w & <- & _). clear.
      induction w as [|c w IH]; cbn; [reflexivity |].
      rewrite lower_char_not_upper. exact IH.
  - apply preprocess_text_upper.
  - unfold preprocess_text. now rewrite lower_idem.
Qed.

Lemma preprocess_text_tokens_witness :
  preprocess_text "The QUICK brown fox is in" = ["quick"; "brown"; "fox"]
  /\ preprocess_text (upper "The QUICK brown fox is in")
     = preprocess_text "The QUICK brown fox is in".
Proof.
  split; [reflexivity |].
  exact (proj1 (proj2 (preprocess_text_tokens
                         "The QUICK brown fox is in" eq_refl))).
Defined.

Lemma combine_map_fst {A B} (f : A -> B) (l : list A) :
  map fst (combine l (map f l)) = l.
Proof. induction l as [|x l IH]; cbn; [reflexivity | now rewrite IH]. Qed.

Lemma combine_seq_snd {A} (l : list A) (i : nat) :
  map snd (combine (seq i (List.length l)) l) = l.
Proof.
  revert i. induction l as [|x l IH]; intros i; cbn; [reflexivity |].
  now rewrite IH.
Qed.

Lemma scored_fst {A} (f : A -> R) (l : list A) :
  map fst (map (fun x => (x, f x)) l) = l.
Proof. rewrite map_map. cbn. apply map_id. Qed.

(** Each scorer returns one pair per document, in the order of the
    documents and with the document unchanged: the [i]-th score belongs to
    the [i]-th document, which is what the hybrid scorer relies on when it
    reads the three lists by index. *)
Theorem scorers_keep_documents (q : string) (documents : list Doc)
    (alg : string) :
  map fst (calculate_tf_idf_similarity q documents) = documents
  /\ map fst (calculate_jaccard_similarity q documents) = documents
  /\ map fst (calculate_semantic_similarity q documents) = documents
  /\ (forall w, map fst (calculate_hybrid_similarity q documents w)
                = documents)
  /\ map fst (calculate_similarity q documents alg) = documents.
Proof.
  assert (Htf : map fst (calculate_tf_idf_similarity q documents) = documents).
  { unfold calculate_tf_idf_similarity.
    destruct documents as [|d ds]; [reflexivity |].
    destruct (preprocess_text q) as [|w ws]; [apply scored_fst |].
    rewrite map_map. cbn [fst]. apply combine_map_fst. }
  assert (Hja : map fst (calculate_jaccard_similarity q documents) = documents).
  { unfold calculate_jaccard_similarity.
    destruct (to_set (preprocess_text q)) as [|w ws]; [apply scored_fst |].
    rewrite map_map. rewrite <- (map_id documents) at 2.
    apply map_ext. intros doc.
    now destruct (to_set (preprocess_text _)). }
  assert (Hse : map fst (calculate_semantic_similarity q documents)
                = documents).
  { unfold calculate_semantic_similarity.
    destruct (preprocess_text q) as [|w ws]; apply scored_fst. }
  assert (Hhy : forall w, map fst (calculate_hybrid_similarity q documents w)
                          = documents).
  { intros w. unfold calculate_hybrid_similarity.
    destruct documents as [|d ds]; [reflexivity |].
    rewrite map_map. cbn [fst]. apply combine_seq_snd. }
  repeat split; try assumption.
  unfold calculate_similarity.
  destruct (String.eqb alg "tfidf"); [exact Htf |].
  destruct (String.eqb alg "jaccard"); [exact Hja |].
  destruct (String.eqb alg "hybrid"); [apply Hhy | exact Hse].
Qed.

(** The scores do not depend on the letter case of an ASCII query. *)
Theorem scores_ignore_query_case (q : string) (documents : list Doc)
    (alg : string) :
  ascii_text q = true ->
  calculate_similarity (upper q) documents alg
  = calculate_similarity q documents alg.
Proof.
  intros _.
  assert (Htf : calculate_tf_idf_similarity (upper q) documents
                = calculate_tf_idf_similarity q documents).
  { unfold calculate_tf_idf_similarity. now rewrite preprocess_text_upper. }
  assert (Hja : calculate_jaccard_similarity (upper q) documents
                = calculate_jaccard_similarity q documents).
  { unfold calculate_jaccard_similarity. now rewrite preprocess_text_upper. }
  assert (Hse : calculate_semantic_similarity (upper q) documents
                = calculate_semantic_similarity q documents).
  { unfold calculate_semantic_similarity, _calculate_title_similarity.
    now rewrite preprocess_text_upper, lower_upper. }
  unfold calculate_similarity, calculate_hybrid_similarity.
  now rewrite Htf, Hja, Hse.
Qed.

Lemma scores_ignore_query_case_witness :
  calculate_similarity (upper "Machine Learning") [doc_ml; doc_bread] "hybrid"
  = calculate_similarity "Machine Learning" [doc_ml; doc_bread] "hybrid".
Proof.
  exact (scores_ignore_query_case "Machine Learning" [doc_ml; doc_bread]
                                  "hybrid" eq_refl).
Defined.

End ScorerShape.

(* ================================================================== *)
(** * The scorers on a query without tokens, and the cosine *)
(* ================================================================== *)

Section ScorerValues.

Import PyStr Py SimilarityEngine.
Open Scope list_scope.
Open Scope R_scope.

Definition zero_scores (sims : list (Doc * R)) : Prop :=
  Forall (fun ds => snd ds = 0) sims.

Lemma zero_scores_map (documents : list Doc) :
  zero_scores (map (fun doc => (doc, 0)) documents).
Proof. apply Forall_map, Forall_forall. now intros. Qed.

Lemma score_at_zero (sims : list (Doc * R)) (i : nat) :
  zero_scores sims -> score_at sims i = 0.
Proof.
  intros H. unfold score_at.
  destruct (nth_in_or_default i sims
              ({| doc_id := ""; title := ""; content := "" |}, 0))
    as [Hin | ->]; [| reflexivity].
  unfold zero_scores in H. rewrite Forall_forall in H. now apply H.
Qed.

(** A query that has no token left after [preprocess_text] (an empty query,
    or stop words and short words only) scores 0 against every document,
    whatever the algorithm. *)
Theorem query_without_tokens_scores_zero (q : string) (documents : list Doc)
    (alg : string) :
  preprocess_text q = [] ->
  zero_scores (calculate_similarity q documents alg).
Proof.
  intros Hq.
  assert (Htf : zero_scores (calculate_tf_idf_similarity q documents)).
  { unfold calculate_tf_idf_similarity. rewrite Hq.
    destruct documents; [constructor | apply zero_scores_map]. }
  assert (Hja : zero_scores (calculate_jaccard_similarity q documents)).
  { unfold calculate_jaccard_similarity. rewrite Hq. apply zero_scores_map. }
  assert (Hse : zero_scores (calculate_semantic_similarity q documents)).
  { unfold calculate_semantic_similarity. rewrite Hq. apply zero_scores_map. }
  unfold calculate_similarity.
  destruct (String.eqb alg "tfidf"); [exact Htf |].
  destruct (String.eqb alg "jaccard"); [exact Hja |].
  destruct (String.eqb alg "hybrid"); [| exact Hse].
  unfold calculate_hybrid_similarity.
  destruct documents as [|d ds]; [constructor |].
  apply Forall_map, Forall_forall. intros id _. cbn [snd].
  rewrite !score_at_zero by assumption. cbn. lra.
Qed.

Lemma sum_over_perm (keys keys' : list string) (f : string -> R) :
  Permutation keys keys' -> sum_over keys f = sum_over keys' f.
Proof.
  induction 1 as [| x l l' _ IH | x y l | l l' l'' _ IH1 _ IH2].
  - reflexivity.
  - change (f x + sum_over l f = f x + sum_over l' f). now rewrite IH.
  - change (f y + (f x + sum_over l f) = f x + (f y + sum_over l f)). lra.
  - now rewrite IH1.
Qed.

Lemma sum_over_ext (keys : list string) (f g : string -> R) :
  (forall k, f k = g k) -> sum_over keys f = sum_over keys g.
Proof.
  intros H. induction keys as [|k keys IH]; [reflexivity |].
  change (f k + sum_over keys f = g k + sum_over keys g).
  now rewrite H, IH.
Qed.

Lemma sum_over_pos (keys : list string) (f : string -> R) (k : string) :
  (forall x, 0 <= f x) -> In k keys -> 0 < f k -> 0 < sum_over keys f.
Proof.
  intros Hf Hin Hk. induction keys as [|x keys IH]; [contradiction |].
  change (0 < f x + sum_over keys f).
  pose proof (sum_over_nonneg keys f Hf) as Hrest.
  destruct Hin as [-> | Hin]; [lra |].
  specialize (IH Hin). specialize (Hf x). lra.
Qed.

Lemma to_set_app_perm (a b : list string) :
  Permutation (to_set (a ++ b)) (to_set (b ++ a)).
Proof.
  apply NoDup_Permutation; try apply NoDup_nodup.
  intros x. unfold to_set. rewrite !nodup_In, !in_app_iff. tauto.
Qed.

(** [_cosine_similarity] is a cosine: the same in both orders of its
    arguments, between -1 and 1, and 1 for a vector with a non-zero
    coordinate compared to itself. *)
Theorem cosine_similarity_geometry (vec1 vec2 : vector) :
  _cosine_similarity vec1 vec2 = _cosine_similarity vec2 vec1
  /\ -1 <= _cosine_similarity vec1 vec2 <= 1
  /\ ((exists k, In k (map fst vec1) /\ vec_get vec1 k <> 0) ->
      _cosine_similarity vec1 vec1 = 1).
Proof.
  split; [| split].
  - unfold _cosine_similarity.
    pose proof (to_set_app_perm (map fst vec1) (map fst vec2)) as Hp.
    rewrite !(sum_over_perm _ Hp).
    rewrite (@sum_over_ext _ (fun k => vec_get vec1 k * vec_get vec2 k)
                           (fun k => vec_get vec2 k * vec_get vec1 k))
      by (intros; apply Rmult_comm).
    set (D := sum_over _ (fun k => vec_get vec2 k * vec_get vec1 k)).
    set (A := sqrt (sum_over _ (fun k => vec_get vec1 k * vec_get vec1 k))).
    set (B := sqrt (sum_over _ (fun k => vec_get vec2 k * vec_get vec2 k))).
    destruct (Req_dec_T A 0), (Req_dec_T B 0); try reflexivity.
    now rewrite (Rmult_comm A B).
  - unfold _cosine_similarity.
    set (keys := to_set _).
    set (D := sum_over keys (fun k => vec_get vec1 k * vec_get vec2 k)).
    set (A := sum_over keys (fun k => vec_get vec1 k * vec_get vec1 k)).
    set (B := sum_over keys (fun k => vec_get vec2 k * vec_get vec2 k)).
    destruct (Req_dec_T (sqrt A) 0) as [_ | HA]; [lra |].
    destruct (Req_dec_T (sqrt B) 0) as [_ | HB]; [lra |].
    assert (HA0 : 0 <= A) by (apply sum_over_nonneg; intros; apply Rle_0_sqr).
    assert (HB0 : 0 <= B) by (apply sum_over_nonneg; intros; apply Rle_0_sqr).
    pose proof (sqrt_pos A) as HsA. pose proof (sqrt_pos B) as HsB.
    pose proof (sqrt_sqrt A HA0) as HAA. pose proof (sqrt_sqrt B HB0) as HBB.
    pose proof (cauchy_schwarz keys (vec_get vec1) (vec_get vec2)) as HCS.
    cbv zeta in HCS. fold D A B in HCS.
    set (p := sqrt A * sqrt B).
    assert (Hpos : 0 < p) by (apply Rmult_lt_0_compat; lra).
    assert (Hpp : p * p = A * B).
    { subst p. replace (sqrt A * sqrt B * (sqrt A * sqrt B))
        with ((sqrt A * sqrt A) * (sqrt B * sqrt B)) by ring.
      now rewrite HAA, HBB. }
    assert (Hx : D = D / p * p) by (field; lra).
    set (x := D / p) in *.
    assert (Hxx : x * x <= 1).
    { assert (H1 : (x * x) * (p * p) <= 1 * (p * p)).
      { replace (x * x * (p * p)) with ((x * p) * (x * p)) by ring.
        rewrite <- Hx, Hpp. lra. }
      apply Rmult_le_reg_r in H1; [exact H1 | nra]. }
    split; nra.
  - intros (k & Hin & Hk). unfold _cosine_similarity.
    set (keys := to_set _).
    set (A := sum_over keys (fun k => vec_get vec1 k * vec_get vec1 k)).
    assert (HA : 0 < A).
    { apply (@sum_over_pos keys _ k).
      - intros x. apply Rle_0_sqr.
      - subst keys. unfold to_set. apply nodup_In, in_or_app. now left.
      - pose proof (Rle_0_sqr (vec_get vec1 k)) as H0. unfold Rsqr in H0.
        destruct (Req_dec_T (vec_get vec1 k * vec_get vec1 k) 0) as [Hz | Hz];
          [| lra].
        apply Rmult_integral in Hz. tauto. }
    pose proof (sqrt_lt_R0 A HA) as Hs.
    destruct (Req_dec_T (sqrt A) 0) as [Hz | _]; [lra |].
    rewrite sqrt_sqrt by lra. field. lra.
Qed.

End ScorerValues.

(** A query made of stop words only. *)
Lemma query_without_tokens_scores_zero_witness :
  SimilarityEngine.preprocess_text "the of"%string = []
  /\ Forall (fun ds => snd ds = 0%R)
            (SimilarityEngine.calculate_similarity
               "the of"%string [doc_ml; doc_bread] "hybrid"%string).
Proof.
  split; [reflexivity |].
  apply (@query_without_tokens_scores_zero "the of"%string).
  reflexivity.
Defined.

(* ================================================================== *)
(** * RAGEngine: validated top_k, stored documents, failing cache *)
(* ================================================================== *)

Section EngineEdges.

Import PyStr Py SimilarityEngine RAGEngine.
Open Scope nat_scope.
Open Scope list_scope.

Lemma validate_top_k_unit (top_k : Z) :
  (1 <= _validate_top_k top_k <= 50)%Z.
Proof.
  unfold _validate_top_k.
  destruct (Z.ltb_spec top_k 0); [lia |].
  destruct (Z.eqb_spec top_k 0); [lia |].
  destruct (Z.ltb_spec 50 top_k); lia.
Qed.

(** [_validate_top_k] maps every integer into 1..50 and leaves the integers
    of that range alone; [query] then cuts the value to 3, so its ranking
    step never raises, returns at most three documents whatever [top_k] was
    asked for, and returns at least one when a document passes the
    threshold. *)
Theorem query_ranks_at_most_three (sims : list (Doc * Q)) (top_k : Z)
    (threshold : Q) :
  (1 <= _validate_top_k top_k <= 50)%Z
  /\ ((1 <= top_k <= 50)%Z -> _validate_top_k top_k = top_k)
  /\ exists ranked,
       query_ranking sims top_k threshold = Ok ranked
       /\ List.length ranked <= 3
       /\ (forall ds, In ds sims -> Qge_bool (snd ds) threshold = true ->
                      ranked <> []).
Proof.
  pose proof (validate_top_k_unit top_k) as Hv.
  split; [exact Hv |]. split.
  - intros Hk. unfold _validate_top_k.
    destruct (Z.ltb_spec top_k 0); [lia |].
    destruct (Z.eqb_spec top_k 0); [lia |].
    destruct (Z.ltb_spec 50 top_k); [lia | reflexivity].
  - unfold query_ranking, rank_documents.
    set (k := Z.min (_validate_top_k top_k) 3).
    assert (Hk : (1 <= k <= 3)%Z) by (subst k; lia).
    assert (Hc : coerce_top_k (PyInt k) = Ok k).
    { cbn. destruct (Z.leb_spec k 0); [lia | reflexivity]. }
    rewrite Hc. cbn [bind coerce_threshold].
    set (passed := filter _ sims).
    eexists. split; [reflexivity |].
    unfold slice_int. destruct (Z.ltb_spec k 0) as [Hneg | _]; [lia |].
    rewrite length_map, length_firstn. split; [lia |].
    intros ds Hin Hge Hnil.
    assert (Hp : In ds passed) by (apply filter_In; now split).
    apply (f_equal (@List.length _)) in Hnil.
    rewrite length_map, length_firstn in Hnil. cbn in Hnil.
    rewrite sorted_desc_sorted in Hnil.
    rewrite <- (Permutation_length (sort_sorted_perm _ passed)) in Hnil.
    destruct passed; [contradiction | cbn in Hnil; lia].
Qed.

(** The documents handed to the scorers: a document whose content is
    missing or blank is dropped, a missing or empty title reads "Untitled",
    and a store that raises yields no document. *)
Theorem stored_documents_are_valid (env : Env) :
  Forall (fun d => blank (content d) = false /\ title d <> EmptyString)
         (_get_all_documents env)
  /\ (forall rows, execute_query env = Ok rows ->
        subsequence (map doc_id (_get_all_documents env)) (map row_id rows))
  /\ (forall e, execute_query env = Raise e -> _get_all_documents env = []).
Proof.
  unfold _get_all_documents. split; [| split].
  - destruct (execute_query env) as [rows |]; [| constructor].
    induction rows as [|row rows IH]; cbn; [constructor |].
    destruct (row_to_doc row) as [d |] eqn:E; [| exact IH].
    constructor; [| exact IH].
    unfold row_to_doc in E.
    destruct (row_content row) as [c |]; [| discriminate].
    destruct (blank c) eqn:Hb; [discriminate |].
    inversion E; subst; cbn. split; [exact Hb |].
    destruct (row_title row) as [[|x t] |]; discriminate.
  - intros rows ->.
    induction rows as [|row rows IH]; cbn; [constructor |].
    destruct (row_to_doc row) as [d |] eqn:E; cbn.
    + assert (Hid : doc_id d = row_id row).
      { unfold row_to_doc in E.
        destruct (row_content row) as [c |]; [| discriminate].
        destruct (blank c); [discriminate |]. now inversion E. }
      rewrite Hid. now constructor.
    + now constructor.
  - now intros e ->.
Qed.

(** A cache that cannot be read, or that misses and cannot be written. *)
Definition cache_fails (env : Env) (key : CacheKey) : Prop :=
  (exists e, cache_get env key = Raise e)
  \/ ((cache_get env key = Ok None \/ cache_get env key = Ok (Some []))
      /\ forall results, exists e, cache_set env key results = Raise e).

(** [similarity_search] reads and writes the cache inside its [try]: when
    the read raises, or when the read misses and the write raises, the
    handler returns the empty list, also when documents had matched. *)
Theorem similarity_search_needs_cache (self : Engine) (env : Env)
    (query : string) (top_k : py_value) (threshold : option R)
    (algorithm : string) :
  cache_fails env (query, top_k, algorithm) ->
  similarity_search self env query top_k threshold algorithm = [].
Proof.
  intros Hfail.
  assert (Hmiss :
            (forall results,
                exists e, cache_set env (query, top_k, algorithm) results
                          = Raise e) ->
            match
              match _get_all_documents env with
              | [] => Ok []
              | _ :: _ =>
                  results <-
                    rank_documents Rge_bool (1 / 10)%R
                      (if String.eqb algorithm "tfidf"
                       then calculate_tf_idf_similarity query
                              (_get_all_documents env)
                       else if String.eqb algorithm "jaccard"
                       then calculate_jaccard_similarity query
                              (_get_all_documents env)
                       else if String.eqb algorithm "semantic"
                       then calculate_semantic_similarity query
                              (_get_all_documents env)
                       else calculate_hybrid_similarity query
                              (_get_all_documents env) None)
                      top_k
                      (Some match threshold with
                            | None => similarity_threshold self
                            | Some t => t
                            end) ;;
                  _ <- cache_set env (query, top_k, algorithm) results ;;
                  Ok results
              end
            with
            | Ok results => results
            | Raise _ => []
            end = []).
  { intros Hset. destruct (_get_all_documents env); [reflexivity |].
    destruct (rank_documents _ _ _ _ _) as [results |]; cbn [bind];
      [| reflexivity].
    destruct (Hset results) as (e & ->). reflexivity. }
  unfold similarity_search, similarity_search_body.
  destruct Hfail as [(e & ->) | [[-> | ->] Hset]]; cbn [bind].
  - reflexivity.
  - now apply Hmiss.
  - now apply Hmiss.
Qed.

End EngineEdges.

(* ================================================================== *)
(** * truncate_to_tokens keeps the longest prefix that fits *)
(* ================================================================== *)

Section TruncationLongest.

Import PyStr Py RAGEngine.
Open Scope nat_scope.
Open Scope list_scope.

Variable words : list string.
Hypothesis words_split : Forall (word_of not_space) words.
Variable max_tokens : nat.

(** The counted tokens of the first [k] words, joined by blanks. *)
Definition prefix_tokens (k : nat) : nat :=
  count_tokens word_counting (join " " (firstn k words)).

Lemma prefix_tokens_eq (k : nat) :
  prefix_tokens k = (13 * Nat.min k (List.length words)) / 10.
Proof.
  unfold prefix_tokens.
  rewrite (@count_tokens_estimate word_counting eq_refl).
  rewrite split_join, length_firstn; [reflexivity |].
  apply Forall_forall. intros w Hw. rewrite Forall_forall in words_split.
  apply words_split. rewrite <- (firstn_skipn k words).
  apply in_or_app. now left.
Qed.

Lemma prefix_tokens_mono (j k : nat) :
  j <= k -> prefix_tokens j <= prefix_tokens k.
Proof.
  intros H. rewrite !prefix_tokens_eq.
  apply Nat.Div0.div_le_mono. lia.
Qed.

Lemma search_prefix_longest (fuel : nat) :
  forall left right,
    left <= right -> right - left <= fuel ->
    prefix_tokens left <= max_tokens ->
    (forall j, right < j -> max_tokens < prefix_tokens j) ->
    let k := search_prefix word_counting words max_tokens fuel left right in
    left <= k <= right
    /\ prefix_tokens k <= max_tokens
    /\ (forall j, k < j -> max_tokens < prefix_tokens j).
Proof.
  induction fuel as [|fuel IH]; intros left right Hlr Hfuel Hfit Hover;
    cbn [search_prefix].
  - assert (left = right) by lia. subst. cbv zeta. repeat split; auto.
  - destruct (Nat.ltb_spec left right) as [Hlt | Hge].
    + assert (Hmid : left < (left + right + 1) / 2 <= right).
      { split.
        - apply Nat.div_le_lower_bound; lia.
        - apply Nat.Div0.div_le_upper_bound. lia. }
      set (mid := (left + right + 1) / 2) in *.
      fold (prefix_tokens mid).
      destruct (Nat.leb_spec (prefix_tokens mid) max_tokens) as [Hok | Hno].
      * destruct (IH mid right) as (Hk & Hk1 & Hk2); try lia; try assumption.
        cbv zeta. repeat split; try assumption; lia.
      * destruct (IH left (mid - 1)) as (Hk & Hk1 & Hk2);
          try lia; try assumption.
        { intros j Hj. pose proof (@prefix_tokens_mono mid j). lia. }
        cbv zeta. repeat split; try assumption; lia.
    + assert (left = right) by lia. subst. cbv zeta. repeat split; auto.
Qed.

End TruncationLongest.

(** With the word-based estimate, [truncate_to_tokens] returns the text
    itself when it fits; otherwise it returns the longest prefix of the
    words of the text that fits the budget, joined by single blanks and
    followed by "...": one word more would exceed the budget. *)
Theorem truncate_keeps_longest_prefix (text : string) (max_tokens : nat) :
  let words := PyStr.split text in
  let tokens := RAGEngine.count_tokens word_counting in
  let truncated := RAGEngine.truncate_to_tokens word_counting text max_tokens in
  (tokens text <= max_tokens /\ truncated = text)%nat
  \/ (max_tokens < tokens text
      /\ exists k,
           k < List.length words
           /\ truncated
              = (PyStr.join " " (firstn k words) ++ "...")%string
           /\ tokens (PyStr.join " " (firstn k words)) <= max_tokens
           /\ max_tokens < tokens (PyStr.join " " (firstn (S k) words)))%nat.
Proof.
  intros words tokens truncated. subst truncated tokens.
  unfold RAGEngine.truncate_to_tokens.
  destruct (Nat.leb_spec (RAGEngine.count_tokens word_counting text) max_tokens)
    as [Hle | Hgt]; [left; now split | right].
  split; [exact Hgt |]. fold words.
  pose proof (split_words text) as Hw. fold words in Hw.
  assert (Hall : prefix_tokens words (List.length words)
                 = RAGEngine.count_tokens word_counting text).
  { rewrite (prefix_tokens_eq Hw), Nat.min_id.
    now rewrite (@count_tokens_estimate word_counting eq_refl). }
  destruct (@search_prefix_longest words Hw max_tokens (List.length words)
              0%nat (List.length words)) as (Hk & Hfit & Hover).
  - lia.
  - lia.
  - rewrite (prefix_tokens_eq Hw). cbn. lia.
  - intros j Hj. rewrite <- Hall in Hgt.
    pose proof (@prefix_tokens_mono words Hw (List.length words) j). lia.
  - set (k := RAGEngine.search_prefix _ _ _ _ _ _) in *.
    exists k. split; [| split; [reflexivity | split]].
    + destruct (Nat.eq_dec k (List.length words)) as [E | E]; [| lia].
      rewrite E, Hall in Hfit. lia.
    + exact Hfit.
    + apply Hover. lia.
Qed.

(** A store with one document, behind a cache that misses on every read and
    raises on every write. *)
Definition cache_write_fails : RAGEngine.Env :=
  {| RAGEngine.cache_get := fun _ => Py.Ok None;
     RAGEngine.cache_set := fun _ _ => Py.Raise (Py.Failure "cache down");
     RAGEngine.execute_query :=
       Py.Ok [ {| RAGEngine.row_id := "1";
                  RAGEngine.row_title := Some "ML Basics"%string;
                  RAGEngine.row_content :=
                    Some "Machine learning is a subset of AI"%string |} ] |}.

Lemma similarity_search_needs_cache_witness :
  cache_fails cache_write_fails
              ("machine learning"%string, Py.PyInt 5, "jaccard"%string)
  /\ RAGEngine.similarity_search
       configured_engine cache_write_fails
       "machine learning"%string (Py.PyInt 5) None "jaccard"%string
     = [].
Proof.
  assert (H : cache_fails cache_write_fails
                ("machine learning"%string, Py.PyInt 5, "jaccard"%string)).
  { right. split; [left; reflexivity |].
    intros results. eexists. reflexivity. }
  split; [exact H |].
  exact (@similarity_search_needs_cache configured_engine cache_write_fails
           "machine learning"%string (Py.PyInt 5) None "jaccard"%string H).
Defined.

(* ================================================================== *)
(** * coordinate_agents: status, repeated strategy types, letter case *)
(* ================================================================== *)

Section CoordinationStatus.

Import PyStr AgentOrchestrator.
Open Scope nat_scope.
Open Scope list_scope.

Variable execute : nat -> AgentType -> Outcome.

Lemma results_get_set (m : Results) (k c : string) (v : AgentResult) :
  results_get (results_set m k v) c
  = if String.eqb k c then Some v else results_get m c.
Proof.
  induction m as [|[k0 v0] m IH]; cbn.
  - reflexivity.
  - destruct (String.eqb_spec k0 k) as [-> | Hne]; cbn.
    + now destruct (String.eqb k c).
    + rewrite IH. destruct (String.eqb_spec k0 c) as [-> | Hc];
        [| reflexivity].
      destruct (String.eqb_spec k c) as [-> | _]; [contradiction | reflexivity].
Qed.

Lemma results_set_length (m : Results) (k : string) (v : AgentResult) :
  List.length (results_set m k v) <= S (List.length m).
Proof.
  induction m as [|[k0 v0] m IH]; cbn; [lia |].
  destruct (String.eqb k0 k); cbn; lia.
Qed.

Lemma combine_append {A B} (l1 l1' : list A) (l2 l2' : list B) :
  List.length l1 = List.length l2 ->
  combine (l1 ++ l1') (l2 ++ l2') = combine l1 l2 ++ combine l1' l2'.
Proof.
  revert l2. induction l1 as [|x l1 IH]; intros [|y l2] H;
    try discriminate; cbn; [reflexivity |].
  f_equal. apply IH. now inversion H.
Qed.

Lemma indexed_snoc (l : list AgentType) (a : AgentType) :
  indexed (l ++ [a]) = indexed l ++ [(List.length l, a)].
Proof.
  unfold indexed. rewrite length_app. cbn [List.length].
  rewrite seq_app, combine_append by now rewrite length_seq.
  reflexivity.
Qed.

Lemma gather_snoc (l : list AgentType) (a : AgentType) :
  gather execute (l ++ [a])
  = results_set (gather execute l) (agent_value a)
                (entry_of (execute (List.length l) a)).
Proof.
  unfold gather. fold (indexed (l ++ [a])). fold (indexed l).
  now rewrite indexed_snoc, fold_left_app.
Qed.

Lemma gather_length (l : list AgentType) :
  List.length (gather execute l) <= List.length l.
Proof.
  induction l as [|a l IH] using rev_ind; [cbn; lia |].
  rewrite gather_snoc, length_app. cbn [List.length].
  pose proof (results_set_length (gather execute l) (agent_value a)
                (entry_of (execute (List.length l) a))). lia.
Qed.

(** The entry of a strategy type is the one left by the last task of that
    type. *)
Lemma gather_last (l : list AgentType) (i : nat) (a : AgentType) :
  nth_error l i = Some a ->
  (forall j, i < j -> nth_error l j <> Some a) ->
  results_get (gather execute l) (agent_value a)
  = Some (entry_of (execute i a)).
Proof.
  revert i. induction l as [|b l IH] using rev_ind; intros i Hi Hlast.
  - destruct i; discriminate.
  - rewrite gather_snoc, results_get_set.
    destruct (Nat.eq_dec i (List.length l)) as [-> | Hne].
    + rewrite nth_error_app2, Nat.sub_diag in Hi by lia.
      inversion Hi; subst. now rewrite String.eqb_refl.
    + assert (Hlt : i < List.length l).
      { assert (Hsome : nth_error (l ++ [b]) i <> None) by congruence.
        apply nth_error_Some in Hsome. rewrite length_app in Hsome.
        cbn in Hsome. lia. }
      destruct (String.eqb_spec (agent_value b) (agent_value a)) as [E | _].
      * apply agent_value_inj in E. subst b. exfalso.
        apply (Hlast (List.length l) Hlt).
        now rewrite nth_error_app2, Nat.sub_diag by lia.
      * rewrite nth_error_app1 in Hi by exact Hlt.
        apply IH; [exact Hi |]. intros j Hj Hjn.
        apply (Hlast j Hj). rewrite nth_error_app1; [exact Hjn |].
        apply nth_error_Some. congruence.
Qed.

Lemma join_sections_nonempty (sep : string) (l : list (string * AgentResult)) :
  l <> [] -> join sep (map section_of l) <> EmptyString.
Proof.
  destruct l as [|x [|y l]]; [contradiction | |]; intros _; discriminate.
Qed.

Lemma synthesis_results (results : Results) (q : string) :
  agent_results (with_status (_synthesize_agent_results results q)) = results.
Proof.
  unfold _synthesize_agent_results. now destruct (filter _ results).
Qed.

(** [coordinate_agents] launches between one and three strategies; the
    strategies it selects by itself are distinct.  Its status is "success"
    in every case, the all-failed result included, because the response
    text is never empty.  The result map has at most one entry per launched
    strategy, and when a strategy type is launched more than once its entry
    is the one left by the last task of that type. *)
Theorem coordinate_agents_status (q : string) (agent_types : list AgentType) :
  let launched := selected_agents q agent_types in
  let s := coordinate_agents execute q agent_types in
  1 <= List.length launched <= 3
  /\ (agent_types = [] -> NoDup launched)
  /\ status s = Some "success"%string
  /\ response s <> EmptyString
  /\ List.length (agent_results s) <= List.length launched
  /\ (forall i a,
         nth_error launched i = Some a ->
         (forall j, i < j -> nth_error launched j <> Some a) ->
         results_get (agent_results s) (agent_value a)
         = Some (entry_of (execute i a))).
Proof.
  intros launched s.
  assert (Hres : agent_results s = gather execute launched)
    by apply synthesis_results.
  assert (Hresp : response s <> EmptyString).
  { subst s. unfold coordinate_agents, _synthesize_agent_results.
    destruct (filter _ _) as [|x xs] eqn:E; cbn [with_status response].
    - discriminate.
    - now apply join_sections_nonempty. }
  split; [| split; [| split; [| split; [exact Hresp | split]]]].
  - subst launched. unfold selected_agents, max_concurrent_agents.
    destruct agent_types as [|a [|b [|c l]]]; cbn; try lia.
    destruct (complexity (analyze_query q)); cbn; lia.
  - intros ->. subst launched. unfold selected_agents.
    destruct (complexity (analyze_query q)); cbn;
      repeat constructor; cbn; intuition discriminate.
  - subst s. unfold coordinate_agents in *. cbn [with_status status response] in *.
    destruct (response _); [contradiction | reflexivity].
  - rewrite Hres. apply gather_length.
  - intros i a Hi Hlast. rewrite Hres. now apply gather_last.
Qed.

End CoordinationStatus.

(* ================================================================== *)
(** * agent_orchestrator.py: keyword routing and length-based complexity *)
(* ================================================================== *)

Module AgentRouting.

Import PyStr AgentOrchestrator.
Open Scope string_scope.

(** [any(word in query_lower for word in words)] *)
Definition any_in (words : list string) (query_lower : string) : bool :=
  existsb (fun word => contains word query_lower) words.

Definition _route_query (query : string) : string :=
  let query_lower := lower query in
  if any_in ["analyze"; "analysis"; "compare"; "trend"] query_lower
  then "analytical"
  else if any_in ["creative"; "generate"; "brainstorm"; "idea"] query_lower
  then "creative"
  else if any_in ["technical"; "code"; "system"; "architecture"] query_lower
  then "technical"
  else if any_in ["research"; "investigate"; "study"] query_lower
  then "research"
  else if any_in ["summarize"; "summary"; "brief"] query_lower
  then "summary"
  else "general".

Definition complex_keywords : list string :=
  [ "analyze"; "comprehensive"; "compare"; "impact"; "research";
    "investigate"; "quantum"; "machine learning" ].

(** [len(query)] is the number of characters; those of an ASCII query are
    its bytes. *)
Definition _analyze_complexity (query : string) : QueryComplexity :=
  let query_lower := lower query in
  if any_in complex_keywords query_lower then
    if (300 <? String.length query)%nat then VERY_COMPLEX else COMPLEX
  else if (String.length query <? 50)%nat then SIMPLE
  else if (String.length query <? 200)%nat then MEDIUM
  else if (String.length query <? 500)%nat then COMPLEX
  else VERY_COMPLEX.

End AgentRouting.

Section Routing.

Import PyStr AgentOrchestrator AgentRouting.
Open Scope nat_scope.
Open Scope list_scope.

(** The keyword classifiers of the orchestrator do not depend on the letter
    case of an ASCII query: [analyze_query] returns the same analysis,
    estimated tokens included, and [_route_query] the same route; and a
    route is always the value of one of the six agent types. *)
Theorem keyword_classifiers_ignore_case (q : string) :
  ascii_text q = true ->
  analyze_query (upper q) = analyze_query q
  /\ analyze_query (lower q) = analyze_query q
  /\ _route_query (upper q) = _route_query q
  /\ _route_query (lower q) = _route_query q
  /\ exists a, _route_query q = agent_value a.
Proof.
  intros _. split; [| split; [| split; [| split]]].
  - unfold analyze_query, estimate_tokens.
    now rewrite lower_upper, split_upper, length_map.
  - unfold analyze_query, estimate_tokens.
    now rewrite lower_idem, split_lower, length_map.
  - unfold _route_query. now rewrite lower_upper.
  - unfold _route_query. now rewrite lower_idem.
  - unfold _route_query.
    destruct (any_in _ _); [now exists ANALYTICAL |].
    destruct (any_in _ _); [now exists CREATIVE |].
    destruct (any_in _ _); [now exists TECHNICAL |].
    destruct (any_in _ _); [now exists RESEARCH |].
    destruct (any_in _ _); [now exists SUMMARY | now exists GENERAL].
Qed.

Lemma keyword_classifiers_ignore_case_witness :
  analyze_query (upper "Analyze the Study data")
  = analyze_query "Analyze the Study data"
  /\ _route_query (upper "Analyze the Study data") = "analytical"%string.
Proof.
  destruct (keyword_classifiers_ignore_case "Analyze the Study data" eq_refl)
    as (Hanalysis & _ & Hroute & _).
  split; [exact Hanalysis | rewrite Hroute; reflexivity].
Defined.

(** The two complexity classifiers of the orchestrator, on an ASCII query,
    whose characters are its bytes.  [_analyze_complexity] ignores letter
    case, never answers MODERATE or EXPERT, answers SIMPLE only below 50
    characters, never answers below COMPLEX from 200 characters on, and
    answers VERY_COMPLEX from 500 characters on; [analyze_query] never
    answers MEDIUM or VERY_COMPLEX. *)
Theorem complexity_classifiers (q : string) :
  ascii_text q = true ->
  let c := _analyze_complexity q in
  _analyze_complexity (upper q) = c
  /\ c <> MODERATE /\ c <> EXPERT
  /\ (c = SIMPLE -> String.length q < 50)
  /\ (200 <= String.length q -> c = COMPLEX \/ c = VERY_COMPLEX)
  /\ (500 <= String.length q -> c = VERY_COMPLEX)
  /\ complexity (analyze_query q) <> MEDIUM
  /\ complexity (analyze_query q) <> VERY_COMPLEX.
Proof.
  intros _ c. subst c. unfold _analyze_complexity.
  change (String.length (upper q))
    with (String.length (map_chars upper_char q)).
  rewrite lower_upper, map_chars_length.
  assert (Han : complexity (analyze_query q) <> MEDIUM
                /\ complexity (analyze_query q) <> VERY_COMPLEX).
  { unfold analyze_query. destruct (select_agent _ _) as [a m].
    cbn [complexity]. unfold complexity_indicators.
    cbn [first_complexity].
    repeat (destruct (existsb _ _); [split; discriminate |]).
    split; discriminate. }
  destruct Han as [Han1 Han2].
  destruct (any_in complex_keywords (lower q)).
  - destruct (Nat.ltb_spec 300 (String.length q));
      repeat split; try discriminate; try assumption; try lia; auto.
  - destruct (Nat.ltb_spec (String.length q) 50);
      [repeat split; try discriminate; try assumption; try lia; auto |].
    destruct (Nat.ltb_spec (String.length q) 200);
      [repeat split; try discriminate; try assumption; try lia; auto |].
    destruct (Nat.ltb_spec (String.length q) 500);
      repeat split; try discriminate; try assumption; try lia; auto.
Qed.

Lemma complexity_classifiers_witness :
  _analyze_complexity (upper "Compare the Impact") = COMPLEX
  /\ _analyze_complexity "Compare the Impact" <> MODERATE.
Proof.
  destruct (complexity_classifiers "Compare the Impact" eq_refl)
    as (Hcase & Hmoderate & _).
  split; [rewrite Hcase; reflexivity | exact Hmoderate].
Defined.

End Routing.

(* ================================================================== *)
(** * rag_engine.py: cleaning a text *)
(* ================================================================== *)

Module RAGText.

Import PyStr Py RAGEngine.
Open Scope string_scope.

(** [s.lstrip()], [s.rstrip()] and [s.strip()] *)
Fixpoint lstrip (s : string) : string :=
  match s with
  | String c s' => if is_space c then lstrip s' else s
  | EmptyString => EmptyString
  end.

Fixpoint rstrip (s : string) : string :=
  match s with
  | EmptyString => EmptyString
  | String c s' =>
      match rstrip s' with
      | EmptyString => if is_space c then EmptyString else String c EmptyString
      | r => String c r
      end
  end.

Definition strip (s : string) : string := lstrip (rstrip s).

(** [re.sub(r'\s+', ' ', s)]: every maximal run of white space becomes one
    blank.  [in_space] tells that the run being read already gave its
    blank. *)
Fixpoint collapse (in_space : bool) (s : string) : string :=
  match s with
  | EmptyString => EmptyString
  | String c s' =>
      if is_space c
      then if in_space then collapse true s'
           else String " " (collapse true s')
      else String c (collapse false s')
  end.

(** [s[:n]] for [n >= 0] *)
Definition prefix_of (n : nat) (s : string) : string := substring 0 n s.

Definition _clean_text (text : string) : string :=
  match text with
  | EmptyString => ""
  | _ =>
    let text := strip text in
    let text := collapse false text in
    if (8000 <? String.length text)%nat
    then prefix_of 8000 text ++ "..."
    else text
  end.

(** The token validation of [add_document]: the content it goes on with. *)
Definition add_document_content (tm : TokenManager) (content : string)
  : string :=
  let content := _clean_text content in
  let content_tokens := count_tokens tm content in
  if (6000 <? content_tokens)%nat
  then if (10000 <? content_tokens)%nat
       then truncate_to_tokens tm content 6000
       else content
  else content.

End RAGText.

Section CleanText.

Import PyStr Py RAGEngine RAGText.
Open Scope nat_scope.
Open Scope list_scope.

(** The last character, if any, is not white space. *)
Fixpoint ends_word (s : string) : bool :=
  match s with
  | EmptyString => true
  | String c EmptyString => negb (is_space c)
  | String _ s' => ends_word s'
  end.

Lemma ends_word_tail (c : ascii) (s : string) :
  ends_word (String c s) = true -> ends_word s = true.
Proof. destruct s; [reflexivity | now intros H]. Qed.

Lemma rstrip_ends_word (s : string) : ends_word (rstrip s) = true.
Proof.
  induction s as [|c s IH]; cbn; [reflexivity |].
  destruct (rstrip s) as [|d r] eqn:E.
  - destruct (is_space c) eqn:Hc; cbn; [reflexivity | now rewrite Hc].
  - exact IH.
Qed.

Lemma lstrip_ends_word (s : string) :
  ends_word s = true -> ends_word (lstrip s) = true.
Proof.
  induction s as [|c s IH]; intros H; cbn; [reflexivity |].
  destruct (is_space c); [| exact H].
  apply IH. now apply ends_word_tail in H.
Qed.

Lemma lstrip_starts_word (s : string) :
  match lstrip s with
  | EmptyString => True
  | String c _ => is_space c = false
  end.
Proof.
  induction s as [|c s IH]; cbn; [exact I |].
  destruct (is_space c) eqn:Hc; [exact IH | exact Hc].
Qed.

Lemma split_lstrip (s : string) : split (lstrip s) = split s.
Proof.
  unfold split. induction s as [|c s IH]; cbn; [reflexivity |].
  destruct (is_space c) eqn:Hc; cbn; [exact IH | now rewrite Hc].
Qed.

Lemma runs_rstrip (s cur : string) :
  runs not_space cur (rstrip s) = runs not_space cur s.
Proof.
  revert cur. induction s as [|c s IH]; intros cur; cbn; [reflexivity |].
  destruct (rstrip s) as [|d r] eqn:E.
  - unfold not_space at 2. destruct (is_space c) eqn:Hc; cbn.
    + rewrite <- IH. cbn. now rewrite app_nil_r.
    + unfold not_space at 1. rewrite Hc. cbn. now rewrite <- IH.
  - cbn [runs]. destruct (not_space c); now rewrite <- IH.
Qed.

Lemma split_strip (s : string) : split (strip s) = split s.
Proof. unfold strip. rewrite split_lstrip. apply runs_rstrip. Qed.

Lemma rev_string_acc (s acc : string) :
  rev_string acc s = (rev_string EmptyString s ++ acc)%string.
Proof.
  revert acc. induction s as [|c s IH]; intros acc; cbn; [reflexivity |].
  rewrite (IH (String c acc)), (IH (String c EmptyString)).
  now rewrite string_app_assoc.
Qed.

Lemma flush_word (cur : string) :
  cur <> EmptyString -> flush cur = [rev_string EmptyString cur].
Proof. destruct cur; [contradiction | reflexivity]. Qed.

Lemma runs_nonempty (s cur : string) :
  ends_word s = true -> s <> EmptyString \/ cur <> EmptyString ->
  runs not_space cur s <> [].
Proof.
  revert cur. induction s as [|c s IH]; intros cur Hend Hne; cbn.
  - destruct Hne as [Hne | Hne]; [contradiction |].
    now rewrite flush_word.
  - destruct s as [|d s].
    + cbn in Hend. unfold not_space. rewrite Hend. cbn. discriminate.
    + destruct (not_space c).
      * apply IH; [exact Hend | left; discriminate].
      * intros H. apply app_eq_nil in H. destruct H as [_ H].
        revert H. apply IH; [exact Hend | left; discriminate].
Qed.

(** Collapsing the white space of a text that does not end in white space
    leaves its words joined by single blanks. *)
Lemma collapse_join (s : string) :
  ends_word s = true ->
  (forall cur, cur <> EmptyString ->
     (rev_string EmptyString cur ++ collapse false s)%string
     = join " " (runs not_space cur s))
  /\ (s <> EmptyString ->
      collapse true s = join " " (runs not_space EmptyString s)).
Proof.
  induction s as [|c s IH]; intros Hend.
  - split; [| contradiction]. intros cur Hcur. cbn.
    rewrite flush_word by exact Hcur. cbn. apply string_app_nil_r.
  - destruct (IH (ends_word_tail _ _ Hend)) as [IHP IHQ].
    assert (Hstep : forall cur,
               (rev_string EmptyString (String c cur) ++ collapse false s)%string
               = (rev_string EmptyString cur
                  ++ String c (collapse false s))%string).
    { intros cur. cbn [rev_string].
      rewrite (rev_string_acc cur (String c EmptyString)).
      now rewrite string_app_assoc. }
    destruct (is_space c) eqn:Hc.
    + assert (Hs : s <> EmptyString).
      { intros ->. cbn in Hend. rewrite Hc in Hend. discriminate. }
      assert (Hruns : runs not_space EmptyString s <> []).
      { apply runs_nonempty; [now apply ends_word_tail in Hend | now left]. }
      split.
      * intros cur Hcur. cbn [collapse runs]. unfold not_space at 1.
        rewrite Hc. cbn [negb]. rewrite flush_word by exact Hcur.
        rewrite (IHQ Hs).
        destruct (runs not_space EmptyString s) as [|y l];
          [contradiction | reflexivity].
      * intros _. cbn [collapse runs]. unfold not_space at 1.
        rewrite Hc. cbn [negb flush app]. now apply IHQ.
    + split.
      * intros cur Hcur. cbn [collapse runs]. unfold not_space at 1.
        rewrite Hc. cbn [negb]. rewrite <- IHP by discriminate.
        now rewrite Hstep.
      * intros _. cbn [collapse runs]. unfold not_space at 1.
        rewrite Hc. cbn [negb]. rewrite <- IHP by discriminate.
        reflexivity.
Qed.

Lemma collapse_strip (text : string) :
  collapse false (strip text) = join " " (split text).
Proof.
  rewrite <- (split_strip text). unfold strip.
  pose proof (lstrip_ends_word _ (rstrip_ends_word text)) as Hend.
  pose proof (lstrip_starts_word (rstrip text)) as Hstart.
  destruct (lstrip (rstrip text)) as [|c s]; [reflexivity |].
  destruct (collapse_join s (ends_word_tail _ _ Hend)) as [HP _].
  unfold split. cbn [collapse runs]. rewrite Hstart. cbn [negb].
  rewrite <- HP by discriminate. reflexivity.
Qed.

End CleanText.

Section CleanTextBounds.

Import PyStr Py RAGEngine RAGText.
Open Scope nat_scope.
Open Scope list_scope.

Lemma prefix_of_length (n : nat) (s : string) :
  String.length (prefix_of n s) = Nat.min n (String.length s).
Proof.
  unfold prefix_of. revert s.
  induction n as [|n IH]; intros [|c s]; cbn; try reflexivity.
  now rewrite IH.
Qed.

Lemma string_app_length (a b : string) :
  String.length (a ++ b)%string = String.length a + String.length b.
Proof. induction a as [|c a IH]; cbn; [reflexivity | now rewrite IH]. Qed.

(** A text of [n] characters has at most [(n + 1) / 2] words. *)
Lemma runs_count (keep : ascii -> bool) (s cur : string) :
  2 * List.length (runs keep cur s)
  <= String.length s + match cur with EmptyString => 1 | _ => 2 end.
Proof.
  revert cur. induction s as [|c s IH]; intros cur.
  - destruct cur; cbn; lia.
  - cbn [runs String.length]. destruct (keep c).
    + specialize (IH (String c cur)). cbn in IH. destruct cur; lia.
    + rewrite length_app. specialize (IH EmptyString).
      destruct cur; cbn in *; lia.
Qed.

Lemma word_estimate_bound (s : string) (n : nat) :
  String.length s <= n ->
  count_tokens word_counting s <= (13 * ((n + 1) / 2)) / 10.
Proof.
  intros H. rewrite (@count_tokens_estimate word_counting eq_refl).
  apply Nat.Div0.div_le_mono, Nat.mul_le_mono_l.
  apply Nat.div_le_lower_bound; [lia |].
  pose proof (runs_count (fun c => negb (is_space c)) s EmptyString) as Hr.
  unfold split. cbn in Hr. lia.
Qed.

Lemma clean_text_eq (text : string) (limit : nat) :
  limit = 8000 ->
  _clean_text text
  = let joined := join " " (split text) in
    if limit <? String.length joined
    then (prefix_of limit joined ++ "...")%string
    else joined.
Proof.
  intros ->. unfold _clean_text. destruct text as [|c text].
  - reflexivity.
  - now rewrite collapse_strip.
Qed.

Lemma clean_text_length (text : string) (limit : nat) :
  limit = 8000 -> String.length (_clean_text text) <= limit + 3.
Proof.
  intros Hl. rewrite (clean_text_eq text Hl). cbv zeta.
  destruct (Nat.ltb_spec limit (String.length (join " " (split text)))).
  - rewrite string_app_length, prefix_of_length. cbn. lia.
  - lia.
Qed.

(** [_clean_text] returns the words of the text joined by single blanks,
    cut to its first 8000 characters and followed by "..." when longer; so
    at most 8003 characters.  Under the word-based estimate such a text has
    at most 5202 tokens, so the 6000-token branch of [add_document] is never
    taken and the content it stores is the cleaned text. *)
Theorem clean_text_normalises (text : string) :
  let joined := join " " (split text) in
  _clean_text text
  = (if 8000 <? String.length joined
     then (prefix_of 8000 joined ++ "...")%string
     else joined)
  /\ String.length (_clean_text text) <= 8003
  /\ count_tokens word_counting (_clean_text text) <= 5202
  /\ add_document_content word_counting text = _clean_text text.
Proof.
  intros joined.
  assert (Hlen : String.length (_clean_text text) <= 8003).
  { pose proof (clean_text_length text eq_refl) as H.
    replace (8000 + 3) with 8003 in H; [exact H |].
    symmetry. apply Nat.eqb_eq. vm_compute. reflexivity. }
  assert (Htok : count_tokens word_counting (_clean_text text) <= 5202).
  { pose proof (word_estimate_bound _ Hlen) as H.
    replace ((13 * ((8003 + 1) / 2)) / 10) with 5202 in H; [exact H |].
    symmetry. apply Nat.eqb_eq. vm_compute. reflexivity. }
  split; [exact (clean_text_eq text eq_refl) |].
  split; [exact Hlen |]. split; [exact Htok |].
  unfold add_document_content.
  destruct (Nat.ltb_spec 6000 (count_tokens word_counting (_clean_text text)))
    as [Hover | _]; [| reflexivity].
  exfalso. apply (Nat.lt_irrefl 6000).
  eapply Nat.lt_le_trans; [exact Hover |].
  eapply Nat.le_trans; [exact Htok |].
  apply Nat.leb_le. vm_compute. reflexivity.
Qed.

End CleanTextBounds.

(* ================================================================== *)
(** * rag_engine.py: TokenManager.chunk_text *)
(* ================================================================== *)

Module Chunking.

Import PyStr Py RAGEngine RAGText.
Open Scope string_scope.

(** The two-character separator of [text.split('\n\n')]. *)
Definition blank_line : string := nl ++ nl.

(** [text.split('\n\n')]: the separators are found from the left and do not
    overlap.  [cur] is the piece being read, kept reversed; [skip] tells
    that the character at hand is the second one of a separator. *)
Fixpoint split_paragraphs (cur : string) (skip : bool) (s : string)
  : list string :=
  match s with
  | EmptyString => [rev_string EmptyString cur]
  | String c s' =>
      if skip then split_paragraphs cur false s'
      else if prefix blank_line s
           then rev_string EmptyString cur
                :: split_paragraphs EmptyString true s'
           else split_paragraphs (String c cur) false s'
  end.

(** The class [[.!?]] *)
Definition is_terminator (c : ascii) : bool :=
  let n := nat_of_ascii c in
  (n =? 46)%nat || (n =? 33)%nat || (n =? 63)%nat.

(** [re.split(r'[.!?]+', text)] gives the pieces between the maximal runs of
    terminators, with empty pieces where the text starts or ends with a
    terminator; the empty pieces do not pass [if s.strip()], so the
    sentences come from the maximal runs of other characters. *)
Definition _split_into_sentences (text : string) : list string :=
  map (fun s => strip s ++ ".")
      (filter (fun s => match strip s with EmptyString => false | _ => true end)
              (runs (fun c => negb (is_terminator c)) EmptyString text)).

(** [if current_chunk.strip(): chunks.append(current_chunk.strip())] *)
Definition emit (chunks : list string) (current_chunk : string)
  : list string :=
  match strip current_chunk with
  | EmptyString => chunks
  | stripped => (chunks ++ [stripped])%list
  end.

(** The loop over the sentences of a paragraph that is too long; the state
    is [(chunks, current_chunk)]. *)
Fixpoint sentence_loop (tm : TokenManager) (max_chunk_tokens : nat)
    (sentences : list string) (chunks : list string) (current_chunk : string)
  : list string * string :=
  match sentences with
  | [] => (chunks, current_chunk)
  | sentence :: rest =>
      if (count_tokens tm (current_chunk ++ sentence) <=? max_chunk_tokens)%nat
      then sentence_loop tm max_chunk_tokens rest chunks
                         (current_chunk ++ sentence ++ " ")
      else sentence_loop tm max_chunk_tokens rest
                         (emit chunks current_chunk) (sentence ++ " ")
  end.

Fixpoint paragraph_loop (tm : TokenManager) (max_chunk_tokens : nat)
    (paragraphs : list string) (chunks : list string) (current_chunk : string)
  : list string * string :=
  match paragraphs with
  | [] => (chunks, current_chunk)
  | paragraph :: rest =>
      let paragraph_tokens := count_tokens tm paragraph in
      if (max_chunk_tokens <? paragraph_tokens)%nat then
        let '(chunks', current_chunk') :=
          sentence_loop tm max_chunk_tokens (_split_into_sentences paragraph)
                        chunks current_chunk in
        paragraph_loop tm max_chunk_tokens rest chunks' current_chunk'
      else if (count_tokens tm (current_chunk ++ paragraph)
               <=? max_chunk_tokens)%nat
      then paragraph_loop tm max_chunk_tokens rest chunks
                          (current_chunk ++ paragraph ++ blank_line)
      else paragraph_loop tm max_chunk_tokens rest
                          (emit chunks current_chunk)
                          (paragraph ++ blank_line)
  end.

(** [max_chunk_tokens] is a count, taken not to be negative. *)
Definition chunk_text (tm : TokenManager) (text : string)
    (max_chunk_tokens : nat) : list string :=
  if (count_tokens tm text <=? max_chunk_tokens)%nat then [text]
  else
    let paragraphs := split_paragraphs EmptyString false text in
    let '(chunks, current_chunk) :=
      paragraph_loop tm max_chunk_tokens paragraphs [] "" in
    emit chunks current_chunk.

End Chunking.

Section ChunkBudget.

Import PyStr Py RAGEngine RAGText Chunking.
Open Scope nat_scope.
Open Scope list_scope.

Lemma runs_spaces (ws cur : string) :
  all_chars is_space ws = true -> runs not_space cur ws = flush cur.
Proof.
  revert cur. induction ws as [|c ws IH]; intros cur H; cbn; [reflexivity |].
  cbn in H. apply andb_prop in H. destruct H as [Hc Hws].
  unfold not_space at 1. rewrite Hc. cbn [negb].
  rewrite (IH EmptyString Hws). cbn. apply app_nil_r.
Qed.

(** White space at the end of a text adds no word. *)
Lemma split_app_spaces (s ws : string) :
  all_chars is_space ws = true -> split (s ++ ws)%string = split s.
Proof.
  intros Hws. unfold split. generalize EmptyString as cur.
  induction s as [|c s IH]; intros cur; cbn.
  - now apply runs_spaces.
  - destruct (negb (is_space c)); now rewrite IH.
Qed.

Lemma rstrip_app_spaces (s ws : string) :
  all_chars is_space ws = true -> rstrip (s ++ ws)%string = rstrip s.
Proof.
  intros Hws. induction s as [|c s IH]; cbn.
  - induction ws as [|d ws IHw]; cbn; [reflexivity |].
    cbn in Hws. apply andb_prop in Hws. destruct Hws as [Hd Hws].
    now rewrite (IHw Hws), Hd.
  - now rewrite IH.
Qed.

Lemma rstrip_fixed (s : string) : ends_word s = true -> rstrip s = s.
Proof.
  induction s as [|c s IH]; intros H; cbn; [reflexivity |].
  destruct s as [|d s].
  - cbn in *. apply negb_true_iff in H. now rewrite H.
  - rewrite (IH H). reflexivity.
Qed.

Lemma lstrip_idempotent (s : string) : lstrip (lstrip s) = lstrip s.
Proof.
  induction s as [|c s IH]; cbn; [reflexivity |].
  destruct (is_space c) eqn:Hc; [exact IH |]. cbn. now rewrite Hc.
Qed.

Lemma strip_idempotent (s : string) : strip (strip s) = strip s.
Proof.
  unfold strip.
  rewrite (@rstrip_fixed (lstrip (rstrip s))
             (lstrip_ends_word _ (rstrip_ends_word s))).
  apply lstrip_idempotent.
Qed.

Lemma append_empty (s : string) : (s ++ EmptyString)%string = s.
Proof. induction s as [|c s IH]; cbn; [reflexivity | now rewrite IH]. Qed.

Lemma ends_word_app (a b : string) :
  b <> EmptyString -> ends_word (a ++ b)%string = ends_word b.
Proof.
  intros Hb. induction a as [|c a IH]; [reflexivity |].
  cbn [append]. destruct (a ++ b)%string eqn:E; [| exact IH].
  destruct a; cbn in E; [contradiction | discriminate].
Qed.

(** A sentence is what [strip] leaves of itself followed by white space. *)
Lemma sentence_strip (paragraph sentence ws : string) :
  In sentence (_split_into_sentences paragraph) ->
  all_chars is_space ws = true ->
  strip (sentence ++ ws)%string = sentence /\ sentence <> EmptyString.
Proof.
  intros Hin Hws. unfold _split_into_sentences in Hin.
  apply in_map_iff in Hin. destruct Hin as (s & <- & Hs).
  apply filter_In in Hs. destruct Hs as [_ Hs].
  assert (Hend : ends_word (strip s ++ ".")%string = true)
    by now rewrite ends_word_app.
  unfold strip at 1. rewrite rstrip_app_spaces, rstrip_fixed by assumption.
  pose proof (lstrip_starts_word (rstrip s)) as Hstart.
  unfold strip in *. destruct (lstrip (rstrip s)) as [|c r];
    [discriminate |].
  cbn. rewrite Hstart. split; [reflexivity | discriminate].
Qed.

Variable max_chunk_tokens : nat.
Variable paragraphs : list string.

Definition tokens : string -> nat := count_tokens word_counting.

(** A chunk is good when it is not empty, has no white space at either end
    and fits the limit or is one sentence of a paragraph. *)
Definition good_chunk (chunk : string) : Prop :=
  chunk <> EmptyString
  /\ strip chunk = chunk
  /\ (tokens chunk <= max_chunk_tokens
      \/ exists paragraph,
           In paragraph paragraphs
           /\ max_chunk_tokens < tokens paragraph
           /\ In chunk (_split_into_sentences paragraph)).

(** The chunk being filled will be good once stripped. *)
Definition good_current (current_chunk : string) : Prop :=
  strip current_chunk <> EmptyString -> good_chunk (strip current_chunk).

Lemma tokens_strip (s : string) : tokens (strip s) = tokens s.
Proof.
  unfold tokens.
  now rewrite !(@count_tokens_estimate word_counting eq_refl), split_strip.
Qed.

Lemma tokens_app_spaces (s ws : string) :
  all_chars is_space ws = true -> tokens (s ++ ws)%string = tokens s.
Proof.
  intros H. unfold tokens.
  now rewrite !(@count_tokens_estimate word_counting eq_refl),
    split_app_spaces.
Qed.

Lemma good_current_fits (current_chunk : string) :
  tokens current_chunk <= max_chunk_tokens -> good_current current_chunk.
Proof.
  intros H Hne. split; [exact Hne |]. split; [apply strip_idempotent | left].
  now rewrite tokens_strip.
Qed.

Lemma emit_good (chunks : list string) (current_chunk : string) :
  Forall good_chunk chunks -> good_current current_chunk ->
  Forall good_chunk (emit chunks current_chunk).
Proof.
  intros Hc Hcur. unfold emit, good_current in *.
  destruct (strip current_chunk) as [|c s]; [exact Hc |].
  apply Forall_app. split; [exact Hc |].
  constructor; [apply Hcur; discriminate | constructor].
Qed.

Lemma sentence_loop_good (paragraph : string) (sentences : list string) :
  In paragraph paragraphs ->
  max_chunk_tokens < tokens paragraph ->
  incl sentences (_split_into_sentences paragraph) ->
  forall chunks current_chunk,
    Forall good_chunk chunks -> good_current current_chunk ->
    let '(chunks', current_chunk') :=
      sentence_loop word_counting max_chunk_tokens sentences
                    chunks current_chunk in
    Forall good_chunk chunks' /\ good_current current_chunk'.
Proof.
  intros Hp Hlong. induction sentences as [|sentence rest IH];
    intros Hincl chunks current_chunk Hc Hcur; cbn [sentence_loop].
  - now split.
  - assert (Hrest : incl rest (_split_into_sentences paragraph))
      by (intros x Hx; apply Hincl; now right).
    fold (tokens (current_chunk ++ sentence)%string).
    destruct (Nat.leb_spec (tokens (current_chunk ++ sentence)%string)
                           max_chunk_tokens) as [Hfit | Hover].
    + apply IH; [exact Hrest | exact Hc |].
      apply good_current_fits.
      rewrite <- string_app_assoc, tokens_app_spaces; [exact Hfit | reflexivity].
    + apply IH; [exact Hrest | now apply emit_good |].
      assert (Hs : In sentence (_split_into_sentences paragraph))
        by (apply Hincl; now left).
      destruct (@sentence_strip paragraph sentence " "%string Hs eq_refl)
        as [Hstrip Hne].
      intros _. rewrite Hstrip. split; [exact Hne |]. split.
      * pose proof (@sentence_strip paragraph sentence EmptyString Hs eq_refl)
          as [Hself _].
        now rewrite append_empty in Hself.
      * right. exists paragraph. repeat split; assumption.
Qed.

Lemma paragraph_loop_good (rest : list string) :
  incl rest paragraphs ->
  forall chunks current_chunk,
    Forall good_chunk chunks -> good_current current_chunk ->
    let '(chunks', current_chunk') :=
      paragraph_loop word_counting max_chunk_tokens rest
                     chunks current_chunk in
    Forall good_chunk chunks' /\ good_current current_chunk'.
Proof.
  induction rest as [|paragraph rest IH];
    intros Hincl chunks current_chunk Hc Hcur; cbn [paragraph_loop].
  - now split.
  - assert (Hrest : incl rest paragraphs)
      by (intros x Hx; apply Hincl; now right).
    assert (Hp : In paragraph paragraphs) by (apply Hincl; now left).
    fold (tokens paragraph). fold (tokens (current_chunk ++ paragraph)%string).
    assert (Hblank : all_chars is_space blank_line = true) by reflexivity.
    destruct (Nat.ltb_spec max_chunk_tokens (tokens paragraph))
      as [Hlong | Hshort].
    + pose proof (@sentence_loop_good paragraph
                    (_split_into_sentences paragraph) Hp Hlong
                    (incl_refl _) chunks current_chunk Hc Hcur) as Hs.
      destruct (sentence_loop _ _ _ _ _) as [chunks' current_chunk'].
      destruct Hs as [Hc' Hcur']. now apply IH.
    + destruct (Nat.leb_spec (tokens (current_chunk ++ paragraph)%string)
                             max_chunk_tokens) as [Hfit | Hover].
      * apply IH; [exact Hrest | exact Hc |].
        apply good_current_fits.
        rewrite <- string_app_assoc, tokens_app_spaces by exact Hblank.
        exact Hfit.
      * apply IH; [exact Hrest | now apply emit_good |].
        apply good_current_fits.
        rewrite tokens_app_spaces by exact Hblank. exact Hshort.
Qed.

End ChunkBudget.

(** Under the word-based estimate, [chunk_text] returns the text itself when
    it fits the limit; otherwise every chunk is not empty, is stripped, that
    is, [strip] leaves it as it is, and fits the limit, unless it is a single
    sentence of a paragraph that is over the limit: such a sentence is never
    cut, however long. *)
Theorem chunk_text_within_limit (text : string) (max_chunk_tokens : nat) :
  let chunks := Chunking.chunk_text word_counting text max_chunk_tokens in
  let tokens := RAGEngine.count_tokens word_counting in
  (tokens text <= max_chunk_tokens /\ chunks = [text])%nat
  \/ (max_chunk_tokens < tokens text
      /\ Forall
           (fun chunk =>
              chunk <> EmptyString
              /\ RAGText.strip chunk = chunk
              /\ (tokens chunk <= max_chunk_tokens
                  \/ exists paragraph,
                       In paragraph
                          (Chunking.split_paragraphs EmptyString false text)
                       /\ max_chunk_tokens < tokens paragraph
                       /\ In chunk (Chunking._split_into_sentences paragraph)))
           chunks)%nat.
Proof.
  intros chunks tokens. subst chunks tokens. unfold Chunking.chunk_text.
  destruct (Nat.leb_spec (RAGEngine.count_tokens word_counting text)
                         max_chunk_tokens) as [Hfit | Hover];
    [left; now split | right].
  split; [exact Hover |].
  set (paragraphs := Chunking.split_paragraphs EmptyString false text).
  pose proof (@paragraph_loop_good max_chunk_tokens paragraphs paragraphs
                (incl_refl _) [] EmptyString (Forall_nil _)) as H.
  destruct (Chunking.paragraph_loop _ _ _ _ _) as [chunks current_chunk].
  destruct H as [Hc Hcur]; [intros Hne; now contradiction Hne |].
  exact (emit_good Hc Hcur).
Qed.

(* ================================================================== *)
(** * rag_engine.py: get_context *)
(* ================================================================== *)

Module ContextBuilder.

Import PyStr Py SimilarityEngine RAGEngine RAGText.
Open Scope string_scope.

(** [self.max_context_length], set by [RAGEngine.__init__]. *)
Definition max_context_length : Z := 8000.

(** [len(s)] as an integer *)
Definition len (s : string) : Z := Z.of_nat (String.length s).

(** ["".join(parts)] *)
Definition concat_parts (parts : list string) : string :=
  fold_right append "" parts.

Section Loop.

(** [f"{score:.2f}"]: how a float prints is not looked into. *)
Variable format_score : R -> string.
Variable include_metadata : bool.
Variable max_tokens : Z.

(** [doc.get('similarity_score')] as a condition: a score of 0.0 is falsy. *)
Definition truthy (score : R) : bool :=
  if Req_dec_T score 0 then false else true.

(** The heading of a document: its title, and its relevance when metadata
    is asked for and the score is not zero. *)
Definition heading (doc : Ranked R) : string :=
  let doc_text := "**" ++ title (ranked_doc doc) ++ "**" ++ nl in
  if include_metadata && truthy (similarity_score doc)
  then doc_text ++ "*Relevance: " ++ format_score (similarity_score doc)
                ++ "*" ++ nl
  else doc_text.

(** The [for doc in similar_docs] loop with its two [break]s; the value is
    [context_parts]. *)
Fixpoint context_loop (similar_docs : list (Ranked R)) (current_length : Z)
  : list string :=
  match similar_docs with
  | [] => []
  | doc :: rest =>
      let doc_text := heading doc in
      let doc_content := content (ranked_doc doc) in
      let over :=
        (max_tokens <? current_length + len doc_text + len doc_content)%Z in
      let remaining_tokens :=
        (max_tokens - current_length - len doc_text)%Z in
      if over && negb (100 <? remaining_tokens)%Z then []
      else
        let doc_content :=
          if over
          then prefix_of (Z.to_nat remaining_tokens) doc_content ++ "..."
          else doc_content in
        let doc_text := doc_text ++ doc_content ++ nl ++ nl in
        let current_length := (current_length + len doc_text)%Z in
        doc_text
        :: (if (max_tokens <=? current_length)%Z then []
            else context_loop rest current_length)
  end.

Definition no_context : string := "No relevant context found.".

Definition header (n_sources : nat) : string :=
  "**Relevant Information** (from " ++ str_of_nat n_sources ++ " sources):"
  ++ nl ++ nl.

(** The part of [get_context] after the search; with documents of the
    search's type nothing in it raises. *)
Definition build_context (similar_docs : list (Ranked R)) : string :=
  match similar_docs with
  | [] => no_context
  | _ =>
    let context_parts := context_loop similar_docs 0 in
    let context := strip (concat_parts context_parts) in
    match context with
    | EmptyString => no_context
    | _ => header (List.length context_parts) ++ context
    end
  end.

End Loop.

Definition get_context (format_score : R -> string) (self : Engine)
    (env : Env) (query : string) (max_tokens : option Z)
    (include_metadata : bool) : string :=
  let max_tokens :=
    match max_tokens with Some m => m | None => max_context_length end in
  let similar_docs := similarity_search self env query (PyInt 8) None "hybrid" in
  build_context format_score include_metadata max_tokens similar_docs.

End ContextBuilder.

Section ContextLength.

Import PyStr Py SimilarityEngine RAGEngine RAGText ContextBuilder.
Open Scope nat_scope.
Open Scope list_scope.

Variable format_score : R -> string.
Variable include_metadata : bool.
Variable max_tokens : Z.

Lemma lstrip_length (s : string) :
  String.length (lstrip s) <= String.length s.
Proof.
  induction s as [|c s IH]; cbn; [lia |].
  destruct (is_space c); cbn; lia.
Qed.

Lemma rstrip_length (s : string) :
  String.length (rstrip s) <= String.length s.
Proof.
  induction s as [|c s IH]; cbn; [lia |].
  destruct (rstrip s); [destruct (is_space c) |]; cbn in *; lia.
Qed.

Lemma len_app (a b : string) : len (a ++ b)%string = (len a + len b)%Z.
Proof. unfold len. rewrite string_app_length. lia. Qed.

Lemma context_loop_length (docs : list (Ranked R)) (current_length : Z) :
  List.length (context_loop format_score include_metadata max_tokens
                            docs current_length)
  <= List.length docs.
Proof.
  revert current_length. induction docs as [|doc rest IH];
    intros current_length; cbn [context_loop List.length]; [lia |].
  destruct (_ && _); [cbn; lia |]. cbn [List.length].
  destruct (_ <=? _)%Z; [cbn; lia |].
  specialize (IH (current_length
                  + len (heading format_score include_metadata doc
                         ++ (if (max_tokens
                                 <? current_length
                                    + len (heading format_score
                                                   include_metadata doc)
                                    + len (content (ranked_doc doc)))%Z
                             then prefix_of
                                    (Z.to_nat
                                       (max_tokens - current_length
                                        - len (heading format_score
                                                       include_metadata doc)))
                                    (content (ranked_doc doc)) ++ "..."
                             else content (ranked_doc doc))
                         ++ nl ++ nl))%Z).
  lia.
Qed.

(** What has been written ends with a blank line and overshoots the budget
    by five characters at most. *)
Lemma context_loop_budget (docs : list (Ranked R)) :
  forall current_length,
    let parts := context_loop format_score include_metadata max_tokens
                              docs current_length in
    parts = []
    \/ exists written,
         concat_parts parts = (written ++ nl ++ nl)%string
         /\ (current_length + len written <= max_tokens + 3)%Z.
Proof.
  induction docs as [|doc rest IH]; intros current_length;
    cbn [context_loop]; [now left |].
  set (doc_text := heading format_score include_metadata doc).
  set (doc_content := content (ranked_doc doc)).
  set (remaining := (max_tokens - current_length - len doc_text)%Z).
  destruct (Z.ltb_spec max_tokens
              (current_length + len doc_text + len doc_content))
    as [Hover | Hfits]; cbn [andb].
  - destruct (Z.ltb_spec 100 remaining) as [Hroom | _]; cbn [negb];
      [| now left].
    right.
    set (cut := (prefix_of (Z.to_nat remaining) doc_content ++ "...")%string).
    assert (Hcut : (len cut <= remaining + 3)%Z).
    { subst cut. rewrite len_app. unfold len at 1.
      rewrite prefix_of_length. cbn. lia. }
    set (current' := (current_length + len (doc_text ++ cut ++ nl ++ nl))%Z).
    assert (Htail :
              forall tail,
                tail = []
                \/ (exists written,
                       concat_parts tail = (written ++ nl ++ nl)%string
                       /\ (current' + len written <= max_tokens + 3)%Z) ->
                exists written,
                  concat_parts ((doc_text ++ cut ++ nl ++ nl)%string :: tail)
                  = (written ++ nl ++ nl)%string
                  /\ (current_length + len written <= max_tokens + 3)%Z).
    { intros tail [-> | (w & Hw & Hb)].
      - exists (doc_text ++ cut)%string. cbn [concat_parts fold_right].
        split; [now rewrite string_app_nil_r, !string_app_assoc |].
        rewrite len_app. subst remaining. lia.
      - exists ((doc_text ++ cut ++ nl ++ nl) ++ w)%string.
        cbn [concat_parts fold_right]. fold (concat_parts tail).
        rewrite Hw. split; [now rewrite !string_app_assoc |].
        subst current'. rewrite len_app. lia. }
    apply Htail. destruct (_ <=? _)%Z; [now left | apply IH].
  - right.
    set (current' :=
           (current_length + len (doc_text ++ doc_content ++ nl ++ nl))%Z).
    assert (Htail :
              forall tail,
                tail = []
                \/ (exists written,
                       concat_parts tail = (written ++ nl ++ nl)%string
                       /\ (current' + len written <= max_tokens + 3)%Z) ->
                exists written,
                  concat_parts
                    ((doc_text ++ doc_content ++ nl ++ nl)%string :: tail)
                  = (written ++ nl ++ nl)%string
                  /\ (current_length + len written <= max_tokens + 3)%Z).
    { intros tail [-> | (w & Hw & Hb)].
      - exists (doc_text ++ doc_content)%string.
        cbn [concat_parts fold_right].
        split; [now rewrite string_app_nil_r, !string_app_assoc |].
        rewrite len_app. lia.
      - exists ((doc_text ++ doc_content ++ nl ++ nl) ++ w)%string.
        cbn [concat_parts fold_right]. fold (concat_parts tail).
        rewrite Hw. split; [now rewrite !string_app_assoc |].
        subst current'. rewrite len_app. lia. }
    apply Htail. destruct (_ <=? _)%Z; [now left | apply IH].
Qed.

Lemma build_context_budget (similar_docs : list (Ranked R)) :
  let result := build_context format_score include_metadata max_tokens
                              similar_docs in
  result = no_context
  \/ exists parts body,
       parts = context_loop format_score include_metadata max_tokens
                            similar_docs 0
       /\ body = strip (concat_parts parts)
       /\ body <> EmptyString
       /\ result = (header (List.length parts) ++ body)%string
       /\ 1 <= List.length parts <= List.length similar_docs
       /\ (len body <= max_tokens + 3)%Z.
Proof.
  intros result. subst result. unfold build_context.
  destruct similar_docs as [|doc rest]; [now left |].
  set (docs := doc :: rest).
  set (parts := context_loop format_score include_metadata max_tokens docs 0).
  destruct (strip (concat_parts parts)) as [|c body] eqn:E; [now left |].
  right. exists parts, (String c body).
  split; [reflexivity |]. split; [now rewrite E |].
  split; [discriminate |]. split; [reflexivity |].
  pose proof (context_loop_length docs 0) as Hlen. fold parts in Hlen.
  pose proof (context_loop_budget docs 0) as Hbud. cbv zeta in Hbud.
  fold parts in Hbud. destruct Hbud as [Hnil | (w & Hw & Hb)].
  - rewrite Hnil in E. discriminate.
  - split.
    + split; [| exact Hlen].
      destruct parts; [discriminate | cbn; lia].
    + rewrite <- E, Hw. unfold strip.
      rewrite rstrip_app_spaces by reflexivity.
      pose proof (lstrip_length (rstrip w)) as H1.
      pose proof (rstrip_length w) as H2. unfold len in *. lia.
Qed.

End ContextLength.

(** [get_context] budgets characters, not tokens.  It answers with the
    no-context sentence, or with a header that counts the documents written,
    between one and the number found by the search, followed by a non-empty
    stripped body that exceeds the budget ([max_tokens], 8000 when it is not
    given) by three characters at most, the "..." of a truncated last
    document. *)
Theorem get_context_budget (format_score : R -> string)
    (self : RAGEngine.Engine) (env : RAGEngine.Env) (query : string)
    (max_tokens : option Z) (include_metadata : bool) :
  let budget := match max_tokens with Some m => m | None => 8000%Z end in
  let found :=
    RAGEngine.similarity_search self env query (Py.PyInt 8) None
                                "hybrid"%string in
  let result :=
    ContextBuilder.get_context format_score self env query max_tokens
                               include_metadata in
  result = ContextBuilder.no_context
  \/ exists n_sources body,
       result = (ContextBuilder.header n_sources ++ body)%string
       /\ body <> EmptyString
       /\ RAGText.strip body = body
       /\ (1 <= n_sources <= List.length found)%nat
       /\ (ContextBuilder.len body <= budget + 3)%Z.
Proof.
  intros budget found result. subst result.
  unfold ContextBuilder.get_context. fold found.
  change (match max_tokens with
          | Some m => m
          | None => ContextBuilder.max_context_length
          end) with budget.
  destruct (build_context_budget format_score include_metadata budget found)
    as [H | (parts & body & Hparts & Hbody & Hne & Hres & Hn & Hlen)];
    [now left | right].
  exists (List.length parts), body.
  repeat split; try assumption; try lia.
  rewrite Hbody. apply strip_idempotent.
Qed.

(* ================================================================== *)
(** * advanced_rag_engine.py: keywords, document deduplication, ranking *)
(* ================================================================== *)

Module AdvancedRanking.

Import PyStr Py AdvancedRAGEngine.
Open Scope string_scope.
Open Scope Q_scope.

(** A document dictionary as [_deduplicate_documents] and
    [_advanced_ranking] read it; [None] is a missing key, and for the score
    also the value [None].  The metadata entries read are numbers. *)
Record DocDict := {
  dd_content : option string;
  dd_similarity_score : option Q;
  dd_metadata : list (string * Q);
  dd_id : option string
}.

(** The inner loop: [doc] duplicates an accepted document. *)
Definition duplicates (threshold : Q) (doc unique_doc : DocDict) : bool :=
  negb (Qle_bool (_calculate_content_similarity
                    (get_or (dd_content doc) "")
                    (get_or (dd_content unique_doc) ""))
                 threshold).

Fixpoint dedup_documents_loop (threshold : Q)
    (unique_docs documents : list DocDict) : list DocDict :=
  match documents with
  | [] => unique_docs
  | doc :: rest =>
      if existsb (duplicates threshold doc) unique_docs
      then dedup_documents_loop threshold unique_docs rest
      else dedup_documents_loop threshold (unique_docs ++ [doc]) rest
  end.

Definition _deduplicate_documents (documents : list DocDict)
    (threshold : Q) : list DocDict :=
  dedup_documents_loop threshold [] documents.

(** [metadata.get(key, 0)] *)
Fixpoint metadata_get (metadata : list (string * Q)) (key : string) : Q :=
  match metadata with
  | [] => 0
  | (k, v) :: rest => if String.eqb k key then v else metadata_get rest key
  end.

(** The loop that replaces a missing score by [0.0]. *)
Definition with_valid_score (doc : DocDict) : DocDict :=
  {| dd_content := dd_content doc;
     dd_similarity_score := Some (get_or (dd_similarity_score doc) 0);
     dd_metadata := dd_metadata doc;
     dd_id := dd_id doc |}.

(** The sort key of a strategy. *)
Definition ranking_key (strategy : string) (doc : DocDict) : Q :=
  if String.eqb strategy "relevance"
  then metadata_get (dd_metadata doc) "relevance"
  else if String.eqb strategy "freshness"
  then metadata_get (dd_metadata doc) "freshness"
  else if String.eqb strategy "authority"
  then metadata_get (dd_metadata doc) "authority"
  else if String.eqb strategy "combined"
  then metadata_get (dd_metadata doc) "score"
  else get_or (dd_similarity_score doc) 0.

(** [_advanced_ranking] on dictionaries: [sorted(..., reverse=True)] by the
    key of the strategy; the query is not read. *)
Definition _advanced_ranking (documents : list DocDict) (query : string)
    (strategy : string) : list DocDict :=
  sort_sorted (fun x y => Qle_bool (ranking_key strategy y)
                                   (ranking_key strategy x))
              (map with_valid_score documents).

(** The dictionary of a search result. *)
Definition as_dict (r : SearchResult) : DocDict :=
  {| dd_content := Some (content r);
     dd_similarity_score := Some (similarity_score r);
     dd_metadata := [];
     dd_id := Some (chunk_id r) |}.

End AdvancedRanking.

Section AdvancedRankingFacts.

Import PyStr Py AdvancedRAGEngine AdvancedRanking.
Open Scope nat_scope.
Open Scope list_scope.

(** The keywords of an ASCII text are distinct, and they are the words of
    the lower-cased text that have at least three characters and are not
    stop words; the letter case of the text does not matter. *)
Theorem extract_keywords_set (text : string) :
  ascii_text text = true ->
  NoDup (_extract_keywords text)
  /\ (forall word,
        In word (_extract_keywords text)
        <-> In word (findall_words (lower text))
            /\ mem word keyword_stop_words = false
            /\ 2 < String.length word)
  /\ _extract_keywords (upper text) = _extract_keywords text.
Proof.
  intros _. unfold _extract_keywords. split; [apply NoDup_nodup |]. split.
  - intros word. unfold to_set. rewrite nodup_In, filter_In.
    rewrite andb_true_iff, negb_true_iff, Nat.ltb_lt. tauto.
  - now rewrite lower_upper.
Qed.

Lemma extract_keywords_set_witness :
  NoDup (_extract_keywords "Vector Search of vector stores")
  /\ _extract_keywords (upper "Vector Search of vector stores")
     = _extract_keywords "Vector Search of vector stores".
Proof.
  destruct (extract_keywords_set "Vector Search of vector stores" eq_refl)
    as (Hdistinct & _ & Hcase).
  split; [exact Hdistinct | exact Hcase].
Defined.

Lemma dedup_documents_results (rest unique : list SearchResult) :
  dedup_documents_loop (8 # 10) (map as_dict unique) (map as_dict rest)
  = map as_dict (dedup_loop unique rest).
Proof.
  revert unique. induction rest as [|r rest IH]; intros unique; cbn;
    [reflexivity |].
  assert (Hex : existsb (duplicates (8 # 10) (as_dict r)) (map as_dict unique)
                = existsb (is_duplicate_of r) unique).
  { induction unique as [|u unique IHu]; cbn; [reflexivity |].
    now rewrite IHu. }
  rewrite Hex. destruct (existsb (is_duplicate_of r) unique).
  - apply IH.
  - rewrite <- IH, map_app. reflexivity.
Qed.

Lemma dedup_documents_keep_all (threshold : Q) (documents : list DocDict) :
  (1 <= threshold)%Q ->
  forall unique_docs,
    dedup_documents_loop threshold unique_docs documents
    = unique_docs ++ documents.
Proof.
  intros Ht. induction documents as [|doc rest IH]; intros unique_docs; cbn.
  - now rewrite app_nil_r.
  - assert (Hex : existsb (duplicates threshold doc) unique_docs = false).
    { induction unique_docs as [|u us IHu]; cbn; [reflexivity |].
      rewrite IHu, orb_false_r. unfold duplicates.
      apply negb_false_iff, Qle_bool_iff.
      destruct (content_similarity_bounds (get_or (dd_content doc) "")
                                          (get_or (dd_content u) ""))
        as [_ Hle].
      eapply Qle_trans; eassumption. }
    rewrite Hex, IH, <- app_assoc. reflexivity.
Qed.

(** [_deduplicate_documents] with its default threshold of 0.8 keeps the
    same documents as [_deduplicate_results] keeps results; with a threshold
    of 1 or more it keeps every document, no overlap being above 1. *)
Theorem deduplicate_documents_agrees (results : list SearchResult)
    (documents : list DocDict) (threshold : Q) :
  _deduplicate_documents (map as_dict results) (8 # 10)
  = map as_dict (_deduplicate_results results)
  /\ ((1 <= threshold)%Q ->
      _deduplicate_documents documents threshold = documents).
Proof.
  split.
  - unfold _deduplicate_documents. destruct results as [|first rest];
      [reflexivity |].
    cbn [map dedup_documents_loop existsb app _deduplicate_results].
    apply (dedup_documents_results rest [first]).
  - intros Ht. unfold _deduplicate_documents.
    now rewrite dedup_documents_keep_all.
Qed.

(** [_advanced_ranking] returns the documents it was given, each with a
    missing score set to 0.0, in descending order of the key of its
    strategy. *)
Theorem advanced_ranking_sorted (documents : list DocDict)
    (query strategy : string) :
  Permutation (map with_valid_score documents)
              (_advanced_ranking documents query strategy)
  /\ StronglySorted
       (fun a b => (ranking_key strategy b <= ranking_key strategy a)%Q)
       (_advanced_ranking documents query strategy)
  /\ Forall (fun d => dd_similarity_score d <> None)
            (_advanced_ranking documents query strategy).
Proof.
  unfold _advanced_ranking.
  set (ge := fun x y : DocDict =>
               Qle_bool (ranking_key strategy y) (ranking_key strategy x)).
  pose proof (sort_sorted_perm ge (map with_valid_score documents)) as Hperm.
  split; [exact Hperm |]. split.
  - rewrite <- (map_id (sort_sorted ge _)).
    apply (descending_map _ (geA := ge)).
    + intros x y Hxy. now apply Qle_bool_iff.
    + apply sort_sorted_descending.
      * intros a b H. subst ge. cbn in *. apply Qle_bool_iff.
        destruct (Qlt_le_dec (ranking_key strategy b) (ranking_key strategy a))
          as [Hlt | Hle]; [| exact Hle].
        apply Qlt_le_weak, Qle_bool_iff in Hlt. congruence.
      * intros a b c. subst ge. cbn. rewrite !Qle_bool_iff.
        intros H1 H2. eapply Qle_trans; eassumption.
  - apply Forall_forall. intros d Hd.
    apply (Permutation_in _ (Permutation_sym Hperm)) in Hd.
    apply in_map_iff in Hd. destruct Hd as (x & <- & _). discriminate.
Qed.

End AdvancedRankingFacts.

(* ================================================================== *)
(** * memory_cache.py: MemoryCache *)
(* ================================================================== *)

Module MemoryCache.

Import PyStr Py.
Open Scope string_scope.

Section Cache.

(** The type of the cached values. *)
Variable V : Type.

(** A cache item.  Times are the floats of [time.time()], read as rationals;
    an operation holds the lock and reads the clock as [now]. *)
Record CacheItem := {
  value : V;
  expire_time : option Q;
  access_count : nat;
  last_access : Q
}.

Record Stats := {
  hits : nat; misses : nat; sets : nat;
  deletes : nat; evictions : nat; expirations : nat
}.

(** [_cache] is an [OrderedDict]: the pairs in insertion order, the least
    recently used key first. *)
Record Cache := {
  max_size : Z;
  default_ttl : Z;
  _cache : list (string * CacheItem);
  _stats : Stats
}.

Definition init (max_size default_ttl : Z) : Cache :=
  {| max_size := max_size; default_ttl := default_ttl; _cache := [];
     _stats := {| hits := 0; misses := 0; sets := 0; deletes := 0;
                  evictions := 0; expirations := 0 |} |}.

(** [time.time() > self.expire_time] *)
Definition is_expired (item : CacheItem) (now : Q) : bool :=
  match expire_time item with
  | None => false
  | Some e => negb (Qle_bool now e)
  end.

Definition touch (item : CacheItem) (now : Q) : CacheItem :=
  {| value := value item; expire_time := expire_time item;
     access_count := S (access_count item); last_access := now |}.

(** ** The ordered dictionary *)

Fixpoint od_get (m : list (string * CacheItem)) (key : string)
  : option CacheItem :=
  match m with
  | [] => None
  | (k, item) :: m' => if String.eqb k key then Some item else od_get m' key
  end.

(** [del m[key]] *)
Definition od_del (m : list (string * CacheItem)) (key : string)
  : list (string * CacheItem) :=
  filter (fun kv => negb (String.eqb (fst kv) key)) m.

(** [m[key] = item]: a new key goes last, an old key keeps its place. *)
Fixpoint od_set (m : list (string * CacheItem)) (key : string)
    (item : CacheItem) : list (string * CacheItem) :=
  match m with
  | [] => [(key, item)]
  | (k, old) :: m' =>
      if String.eqb k key then (k, item) :: m'
      else (k, old) :: od_set m' key item
  end.

(** [m.move_to_end(key)] for a key of [m]. *)
Definition od_move_to_end (m : list (string * CacheItem)) (key : string)
  : list (string * CacheItem) :=
  match od_get m key with
  | Some item => (od_del m key ++ [(key, item)])%list
  | None => m
  end.

(** ** The operations; each returns its value and the cache it leaves *)

Definition with_cache (self : Cache) (m : list (string * CacheItem))
    (s : Stats) : Cache :=
  {| max_size := max_size self; default_ttl := default_ttl self;
     _cache := m; _stats := s |}.

Definition get (self : Cache) (key : string) (now : Q) : option V * Cache :=
  let s := _stats self in
  match od_get (_cache self) key with
  | None =>
      (None,
       with_cache self (_cache self)
         {| hits := hits s; misses := S (misses s); sets := sets s;
            deletes := deletes s; evictions := evictions s;
            expirations := expirations s |})
  | Some item =>
      if is_expired item now then
        (None,
         with_cache self (od_del (_cache self) key)
           {| hits := hits s; misses := S (misses s); sets := sets s;
              deletes := deletes s; evictions := evictions s;
              expirations := S (expirations s) |})
      else
        (Some (value item),
         with_cache self
           (od_del (_cache self) key ++ [(key, touch item now)])%list
           {| hits := S (hits s); misses := misses s; sets := sets s;
              deletes := deletes s; evictions := evictions s;
              expirations := expirations s |})
  end.

(** The [while len(self._cache) > self.max_size] loop: the evicted count
    and what is left, or [None] when the dictionary runs empty under a
    negative [max_size] and [next(iter(...))] raises [StopIteration]. *)
Fixpoint evict (max_size : Z) (m : list (string * CacheItem)) (evicted : nat)
  : option (list (string * CacheItem)) * nat :=
  match m with
  | [] => if (max_size <? 0)%Z then (None, evicted) else (Some [], evicted)
  | _ :: m' =>
      if (max_size <? Z.of_nat (List.length m))%Z
      then evict max_size m' (S evicted)
      else (Some m, evicted)
  end.

Definition set (self : Cache) (key : string) (value : V) (ttl : option Z)
    (now : Q) : bool * Cache :=
  let s := _stats self in
  let expire_time :=
    match ttl with
    | Some t => Some (now + inject_Z t)%Q
    | None =>
        if (0 <? default_ttl self)%Z
        then Some (now + inject_Z (default_ttl self))%Q
        else None
    end in
  let item := {| value := value; expire_time := expire_time;
                 access_count := 0; last_access := now |} in
  let m := od_move_to_end (od_set (_cache self) key item) key in
  match evict (max_size self) m 0 with
  | (Some m', evicted) =>
      (true,
       with_cache self m'
         {| hits := hits s; misses := misses s; sets := S (sets s);
            deletes := deletes s; evictions := evictions s + evicted;
            expirations := expirations s |})
  | (None, evicted) =>
      (false,
       with_cache self []
         {| hits := hits s; misses := misses s; sets := sets s;
            deletes := deletes s; evictions := evictions s + evicted;
            expirations := expirations s |})
  end.

Definition delete (self : Cache) (key : string) : bool * Cache :=
  let s := _stats self in
  match od_get (_cache self) key with
  | Some _ =>
      (true,
       with_cache self (od_del (_cache self) key)
         {| hits := hits s; misses := misses s; sets := sets s;
            deletes := S (deletes s); evictions := evictions s;
            expirations := expirations s |})
  | None => (false, self)
  end.

Definition exists_ (self : Cache) (key : string) (now : Q) : bool * Cache :=
  let s := _stats self in
  match od_get (_cache self) key with
  | None => (false, self)
  | Some item =>
      if is_expired item now then
        (false,
         with_cache self (od_del (_cache self) key)
           {| hits := hits s; misses := misses s; sets := sets s;
              deletes := deletes s; evictions := evictions s;
              expirations := S (expirations s) |})
      else (true, self)
  end.

Definition clear (self : Cache) : bool * Cache :=
  (true, with_cache self [] (_stats self)).

(** A call made to the cache. *)
Inductive call :=
| Get (key : string) (now : Q)
| Set_ (key : string) (value : V) (ttl : option Z) (now : Q)
| Delete (key : string)
| Exists (key : string) (now : Q)
| Clear.

Definition step (self : Cache) (c : call) : Cache :=
  match c with
  | Get key now => snd (get self key now)
  | Set_ key value ttl now => snd (set self key value ttl now)
  | Delete key => snd (delete self key)
  | Exists key now => snd (exists_ self key now)
  | Clear => snd (clear self)
  end.

(** The cache after a sequence of calls. *)
Definition run (self : Cache) (calls : list call) : Cache :=
  fold_left step calls self.

End Cache.

Arguments Get {V} key now.
Arguments Delete {V} key.
Arguments Exists {V} key now.
Arguments Clear {V}.

End MemoryCache.

Section CacheFacts.

Import PyStr Py MemoryCache.
Open Scope nat_scope.
Open Scope list_scope.

Variable V : Type.

Definition entries : Type := list (string * CacheItem V).

Definition keys (m : entries) : list string := map fst m.

Lemma od_get_set (m : entries) (k c : string) (item : CacheItem V) :
  od_get (od_set m k item) c
  = if String.eqb k c then Some item else od_get m c.
Proof.
  induction m as [|[k0 i0] m IH]; cbn.
  - reflexivity.
  - destruct (String.eqb_spec k0 k) as [-> | Hne]; cbn.
    + now destruct (String.eqb k c).
    + rewrite IH. destruct (String.eqb_spec k0 c) as [-> | Hc];
        [| reflexivity].
      destruct (String.eqb_spec k c) as [-> | _]; [contradiction | reflexivity].
Qed.

Lemma od_get_none (m : entries) (k : string) :
  od_get m k = None <-> ~ In k (keys m).
Proof.
  induction m as [|[k0 i0] m IH]; cbn; [tauto |].
  destruct (String.eqb_spec k0 k) as [-> | Hne].
  - split; [discriminate | intros H; exfalso; apply H; now left].
  - rewrite IH. tauto.
Qed.

Lemma od_del_keys (m : entries) (k c : string) :
  In c (keys (od_del m k)) <-> c <> k /\ In c (keys m).
Proof.
  unfold keys, od_del. rewrite !in_map_iff. split.
  - intros ([k0 i0] & <- & Hin). apply filter_In in Hin.
    destruct Hin as [Hin Hk]. cbn in *. apply negb_true_iff in Hk.
    apply String.eqb_neq in Hk. split; [exact Hk |].
    exists (k0, i0). now split.
  - intros (Hne & [k0 i0] & <- & Hin). exists (k0, i0).
    split; [reflexivity |]. apply filter_In. split; [exact Hin |]. cbn in *.
    apply negb_true_iff, String.eqb_neq. exact Hne.
Qed.

Lemma od_del_NoDup (m : entries) (k : string) :
  NoDup (keys m) -> NoDup (keys (od_del m k)).
Proof.
  unfold keys, od_del. induction m as [|[k0 i0] m IH]; cbn; intros H;
    [constructor |].
  inversion H as [| ? ? Hk0 Hm]; subst.
  destruct (String.eqb k0 k); cbn; [now apply IH |].
  constructor; [| now apply IH].
  intros Hin. apply Hk0. apply (od_del_keys m k k0) in Hin. tauto.
Qed.

Lemma od_del_fresh (m : entries) (k : string) :
  ~ In k (keys m) -> od_del m k = m.
Proof.
  unfold od_del. induction m as [|[k0 i0] m IH]; cbn; intros H;
    [reflexivity |].
  destruct (String.eqb_spec k0 k) as [-> | _]; cbn.
  - exfalso. apply H. now left.
  - f_equal. apply IH. tauto.
Qed.

Lemma od_del_length (m : entries) (k : string) (item : CacheItem V) :
  NoDup (keys m) -> od_get m k = Some item ->
  S (List.length (od_del m k)) = List.length m.
Proof.
  induction m as [|[k0 i0] m IH]; cbn; intros Hnd Hget; [discriminate |].
  inversion Hnd as [| ? ? Hk0 Hm]; subst.
  destruct (String.eqb_spec k0 k) as [-> | Hne]; cbn.
  - fold (od_del m k). now rewrite od_del_fresh.
  - fold (od_del m k). f_equal. now apply IH.
Qed.

Lemma od_set_keys (m : entries) (k c : string) (item : CacheItem V) :
  In c (keys (od_set m k item)) <-> c = k \/ In c (keys m).
Proof.
  induction m as [|[k0 i0] m IH]; cbn.
  - intuition.
  - destruct (String.eqb_spec k0 k) as [-> | Hne]; cbn; [intuition |].
    rewrite IH. intuition.
Qed.

Lemma od_set_NoDup (m : entries) (k : string) (item : CacheItem V) :
  NoDup (keys m) -> NoDup (keys (od_set m k item)).
Proof.
  induction m as [|[k0 i0] m IH]; cbn; intros H.
  - constructor; [intros [] | constructor].
  - inversion H as [| ? ? Hk0 Hm]; subst.
    destruct (String.eqb_spec k0 k) as [-> | Hne]; cbn.
    + now constructor.
    + constructor; [| now apply IH].
      fold (keys (od_set m k item)). rewrite od_set_keys.
      intros [-> | Hin]; [now apply Hne | now apply Hk0].
Qed.

Lemma od_set_fresh (m : entries) (k : string) (item : CacheItem V) :
  ~ In k (keys m) -> od_set m k item = m ++ [(k, item)].
Proof.
  induction m as [|[k0 i0] m IH]; cbn; intros H; [reflexivity |].
  destruct (String.eqb_spec k0 k) as [-> | _].
  - exfalso. apply H. now left.
  - f_equal. apply IH. tauto.
Qed.

(** Moving to the end puts the key last and keeps the keys distinct. *)
Lemma moved_last_NoDup (m : entries) (k : string) (item : CacheItem V) :
  NoDup (keys m) -> NoDup (keys (od_del m k ++ [(k, item)])).
Proof.
  intros H. unfold keys. rewrite map_app. apply NoDup_app.
  - now apply od_del_NoDup.
  - cbn. constructor; [intros [] | constructor].
  - intros c Hc [<- | []]. apply (od_del_keys m k k) in Hc. tauto.
Qed.

Lemma od_get_last (m : entries) (k : string) (item : CacheItem V) :
  ~ In k (keys m) -> od_get (m ++ [(k, item)]) k = Some item.
Proof.
  induction m as [|[k0 i0] m IH]; cbn; intros H.
  - now rewrite String.eqb_refl.
  - destruct (String.eqb_spec k0 k) as [-> | _]; [| apply IH; tauto].
    exfalso. apply H. now left.
Qed.

(** What the eviction loop leaves: the newest [max_size] entries. *)
Lemma evict_spec (max_size : Z) (m : entries) :
  forall evicted,
    evict max_size m evicted
    = if (max_size <? 0)%Z
      then (None, evicted + List.length m)
      else (Some (skipn (List.length m - Z.to_nat max_size) m),
            evicted + (List.length m - Z.to_nat max_size)).
Proof.
  induction m as [|x m IH]; intros evicted; cbn [evict].
  - destruct (max_size <? 0)%Z; cbn; now rewrite Nat.add_0_r.
  - rewrite IH.
    destruct (Z.ltb_spec max_size 0) as [Hneg | Hpos].
    + destruct (Z.ltb_spec max_size (Z.of_nat (List.length (x :: m))));
        [| cbn [List.length] in *; lia].
      f_equal. cbn [List.length]. lia.
    + destruct (Z.ltb_spec max_size (Z.of_nat (List.length (x :: m))))
        as [Hover | Hfits]; cbn [List.length] in *.
      * replace (S (List.length m) - Z.to_nat max_size)
          with (S (List.length m - Z.to_nat max_size)) by lia.
        cbn [skipn]. f_equal. lia.
      * replace (S (List.length m) - Z.to_nat max_size) with 0 by lia.
        cbn [skipn]. now rewrite Nat.add_0_r.
Qed.

End CacheFacts.

Section CacheBehaviour.

Import PyStr Py MemoryCache.
Open Scope nat_scope.
Open Scope list_scope.

Variable V : Type.

(** How long an entry written with [ttl] lives: [None] is for ever. *)
Definition lifetime (self : Cache V) (ttl : option Z) : option Z :=
  match ttl with
  | Some t => Some t
  | None => if (0 <? default_ttl self)%Z then Some (default_ttl self) else None
  end.

(** The entries after the write of [set], before the eviction loop. *)
Lemma set_moves_last (m : entries V) (key : string) (item : CacheItem V) :
  od_move_to_end (od_set m key item) key
  = od_del (od_set m key item) key ++ [(key, item)].
Proof.
  unfold od_move_to_end. now rewrite od_get_set, String.eqb_refl.
Qed.

Lemma skipn_app_le {A} (n : nat) (l1 l2 : list A) :
  n <= List.length l1 -> skipn n (l1 ++ l2) = skipn n l1 ++ l2.
Proof.
  intros H. rewrite skipn_app.
  replace (n - List.length l1) with 0 by lia. reflexivity.
Qed.

Lemma skipn_keys_fresh (n : nat) (m : entries V) (k : string) :
  ~ In k (keys m) -> ~ In k (keys (skipn n m)).
Proof.
  intros H Hin. apply H. unfold keys in *.
  rewrite <- (firstn_skipn n m), map_app. apply in_or_app. now right.
Qed.

(** A value written to a cache of positive capacity is read back until it
    expires: for ever without a time to live, otherwise at every time up to
    the time of writing plus the time to live, and never after it. *)
Theorem set_then_get (self : Cache V) (key : string) (v : V)
    (ttl : option Z) (written read : Q) :
  (1 <= max_size self)%Z ->
  let after := set self key v ttl written in
  fst after = true
  /\ fst (get (snd after) key read)
     = match lifetime self ttl with
       | None => Some v
       | Some t => if Qle_bool read (written + inject_Z t)
                   then Some v else None
       end.
Proof.
  intros Hmax after. subst after. unfold set.
  set (item := {| value := v; expire_time := _;
                  access_count := 0; last_access := written |}).
  rewrite set_moves_last, evict_spec.
  destruct (Z.ltb_spec (max_size self) 0) as [Hneg | _]; [lia |].
  cbn [fst snd]. split; [reflexivity |].
  set (m := od_del (od_set (_cache self) key item) key).
  assert (Hfresh : ~ In key (keys m)).
  { subst m. intros Hin. apply od_del_keys in Hin. tauto. }
  rewrite skipn_app_le
    by (rewrite length_app; cbn [List.length]; lia).
  unfold get. cbn [_cache with_cache].
  rewrite od_get_last by now apply skipn_keys_fresh.
  unfold is_expired, lifetime. subst item. cbn [expire_time value].
  destruct ttl as [t |].
  - now destruct (Qle_bool read (written + inject_Z t)).
  - destruct (0 <? default_ttl self)%Z; [| reflexivity].
    now destruct (Qle_bool read (written + inject_Z (default_ttl self))).
Qed.

(** The number of [get] calls among the calls made. *)
Definition count_gets (calls : list (call V)) : nat :=
  List.length
    (filter (fun c => match c with Get _ _ => true | _ => false end) calls).

(** What holds of a cache between two calls. *)
Definition cache_ok (max_size : Z) (gets : nat) (c : Cache V) : Prop :=
  MemoryCache.max_size c = max_size
  /\ NoDup (keys (_cache c))
  /\ List.length (_cache c) <= Z.to_nat max_size
  /\ hits (_stats c) + misses (_stats c) = gets.

Lemma od_del_shorter (m : entries V) (k : string) :
  List.length (od_del m k) <= List.length m.
Proof. apply filter_length_le. Qed.

Lemma step_ok (max_size : Z) (gets : nat) (c : Cache V) (op : call V) :
  cache_ok max_size gets c ->
  cache_ok max_size
           (gets + match op with Get _ _ => 1 | _ => 0 end)
           (step c op).
Proof.
  intros (Hmax & Hnd & Hlen & Hstats). unfold cache_ok.
  destruct op as [key now | key v ttl now | key | key now |]; cbn [step].
  - unfold get. destruct (od_get (_cache c) key) as [item |] eqn:E.
    + destruct (is_expired item now); cbn.
      * repeat split; try assumption; try lia.
        -- now apply od_del_NoDup.
        -- pose proof (od_del_shorter (_cache c) key). lia.
      * repeat split; try assumption; try lia.
        -- now apply moved_last_NoDup.
        -- rewrite length_app. cbn [List.length].
           pose proof (od_del_length (_cache c) key Hnd E). lia.
    + cbn. repeat split; try assumption; lia.
  - unfold set. rewrite set_moves_last, evict_spec.
    set (item := {| value := v; expire_time := _;
                    access_count := 0; last_access := now |}).
    set (m := od_del (od_set (_cache c) key item) key ++ [(key, item)]).
    assert (Hm : NoDup (keys m))
      by (subst m; apply moved_last_NoDup; now apply od_set_NoDup).
    rewrite Hmax.
    destruct (Z.ltb_spec max_size 0); cbn.
    + repeat split; try assumption; try lia. constructor.
    + repeat split; try assumption; try lia.
      * unfold keys in *. rewrite <- (firstn_skipn
          (List.length m - Z.to_nat max_size) m), map_app in Hm.
        now apply NoDup_app_remove_l in Hm.
      * rewrite length_skipn. lia.
  - unfold delete. destruct (od_get (_cache c) key); cbn.
    + repeat split; try assumption; try lia.
      * now apply od_del_NoDup.
      * pose proof (od_del_shorter (_cache c) key). lia.
    + repeat split; try assumption; lia.
  - unfold exists_. destruct (od_get (_cache c) key) as [item |];
      [destruct (is_expired item now) |]; cbn.
    + repeat split; try assumption; try lia.
      * now apply od_del_NoDup.
      * pose proof (od_del_shorter (_cache c) key). lia.
    + repeat split; try assumption; lia.
    + repeat split; try assumption; lia.
  - cbn. repeat split; try assumption; try lia. constructor.
Qed.

(** After any sequence of calls on a new cache, the keys are distinct, the
    cache holds at most [max_size] entries (none when [max_size] is
    negative), and every [get] was counted as exactly one hit or miss. *)
Theorem cache_invariants (max_size default_ttl : Z) (calls : list (call V)) :
  let c := run (init V max_size default_ttl) calls in
  MemoryCache.max_size c = max_size
  /\ NoDup (keys (_cache c))
  /\ List.length (_cache c) <= Z.to_nat max_size
  /\ hits (_stats c) + misses (_stats c) = count_gets calls.
Proof.
  intros c. subst c.
  assert (H : forall calls c gets,
             cache_ok max_size gets c ->
             cache_ok max_size (gets + count_gets calls) (run c calls)).
  { clear calls. induction calls as [|op calls IH]; intros c gets Hc.
    - cbn. now rewrite Nat.add_0_r.
    - cbn [run fold_left]. fold (run (step c op) calls).
      pose proof (step_ok op Hc) as Hs. apply IH in Hs.
      replace (gets + count_gets (op :: calls))
        with (gets + match op with Get _ _ => 1 | _ => 0 end
              + count_gets calls); [exact Hs |].
      unfold count_gets. destruct op; cbn; lia. }
  apply (H calls (init V max_size default_ttl) 0).
  repeat split; cbn; try lia. constructor.
Qed.

End CacheBehaviour.

Section CacheOrder.

Import PyStr Py MemoryCache.
Open Scope nat_scope.
Open Scope list_scope.

Variable V : Type.

Lemma od_del_keys_filter (m : entries V) (k : string) :
  keys (od_del m k)
  = filter (fun c => negb (String.eqb c k)) (keys m).
Proof.
  unfold keys, od_del. induction m as [|[k0 i0] m IH]; cbn; [reflexivity |].
  destruct (String.eqb k0 k); cbn; now rewrite IH.
Qed.

(** The cache evicts the least recently used key.  Writing a new key to a
    full cache drops the first key of the order, and only that one, and the
    new key goes last; a hit moves its key to the end of the order, out of
    the way of the next evictions. *)
Theorem least_recently_used_is_evicted (self : Cache V) (key : string)
    (v : V) (ttl : option Z) (now : Q) :
  NoDup (keys (_cache self)) ->
  ~ In key (keys (_cache self)) ->
  Z.of_nat (List.length (_cache self)) = max_size self ->
  (1 <= max_size self)%Z ->
  let after := snd (set self key v ttl now) in
  keys (_cache after) = tl (keys (_cache self)) ++ [key]
  /\ evictions (_stats after) = S (evictions (_stats self))
  /\ (forall k t,
         fst (get self k t) <> None ->
         keys (_cache (snd (get self k t)))
         = filter (fun c => negb (String.eqb c k)) (keys (_cache self))
           ++ [k]).
Proof.
  intros Hnd Hfresh Hfull Hmax after.
  split; [| split].
  - subst after. unfold set.
    rewrite set_moves_last, evict_spec, od_set_fresh by exact Hfresh.
    destruct (Z.ltb_spec (max_size self) 0); [lia |]. cbn [snd _cache with_cache].
    set (item := {| value := v; expire_time := _;
                    access_count := 0; last_access := now |}).
    assert (Hdel : od_del (_cache self ++ [(key, item)]) key = _cache self).
    { unfold od_del. rewrite filter_app. cbn. rewrite String.eqb_refl. cbn.
      rewrite app_nil_r. now apply od_del_fresh. }
    rewrite Hdel, length_app. cbn [List.length].
    replace (List.length (_cache self) + 1 - Z.to_nat (max_size self))
      with 1 by lia.
    destruct (_cache self) as [|x m]; [cbn in Hfull; lia |].
    cbn. unfold keys. now rewrite map_app.
  - subst after. unfold set.
    rewrite set_moves_last, evict_spec, od_set_fresh by exact Hfresh.
    destruct (Z.ltb_spec (max_size self) 0); [lia |].
    cbn [snd _stats with_cache evictions].
    rewrite !length_app.
    set (item := {| value := v; expire_time := _;
                    access_count := 0; last_access := now |}).
    assert (Hdel : od_del (_cache self ++ [(key, item)]) key = _cache self).
    { unfold od_del. rewrite filter_app. cbn. rewrite String.eqb_refl. cbn.
      rewrite app_nil_r. now apply od_del_fresh. }
    rewrite Hdel. cbn [List.length]. lia.
  - intros k t. unfold get.
    destruct (od_get (_cache self) k) as [item |]; [| now intros H].
    destruct (is_expired item t); [now intros H | intros _].
    cbn [snd _cache with_cache]. unfold keys at 1.
    rewrite map_app. fold (keys (od_del (_cache self) k)).
    now rewrite od_del_keys_filter.
Qed.

End CacheOrder.

(** A full cache of two entries, "a" the least recently used. *)
Definition two_entries : MemoryCache.Cache nat :=
  {| MemoryCache.max_size := 2; MemoryCache.default_ttl := 300;
     MemoryCache._cache :=
       [ ("a"%string,
          {| MemoryCache.value := 1%nat; MemoryCache.expire_time := None;
             MemoryCache.access_count := 0%nat;
             MemoryCache.last_access := 0%Q |});
         ("b"%string,
          {| MemoryCache.value := 2%nat; MemoryCache.expire_time := None;
             MemoryCache.access_count := 0%nat;
             MemoryCache.last_access := 0%Q |}) ];
     MemoryCache._stats :=
       {| MemoryCache.hits := 0; MemoryCache.misses := 0;
          MemoryCache.sets := 2; MemoryCache.deletes := 0;
          MemoryCache.evictions := 0; MemoryCache.expirations := 0 |} |}.

Lemma set_then_get_witness :
  fst (MemoryCache.get
         (snd (MemoryCache.set two_entries "c"%string 3%nat (Some 60%Z) 0%Q))
         "c"%string 60%Q)
  = Some 3%nat.
Proof.
  assert (Hmax : (1 <= MemoryCache.max_size two_entries)%Z) by (cbn; lia).
  exact (proj2 (@set_then_get nat two_entries "c"%string 3%nat (Some 60%Z)
                              0%Q 60%Q Hmax)).
Defined.

Lemma least_recently_used_is_evicted_witness :
  keys (MemoryCache._cache
          (snd (MemoryCache.set two_entries "c"%string 3%nat None 0%Q)))
  = ["b"; "c"]%string.
Proof.
  assert (Hnd : NoDup (keys (MemoryCache._cache two_entries))).
  { cbn. repeat constructor; cbn; intuition discriminate. }
  assert (Hfresh : ~ In "c"%string (keys (MemoryCache._cache two_entries))).
  { cbn. intuition discriminate. }
  assert (Hfull : Z.of_nat (List.length (MemoryCache._cache two_entries))
                  = MemoryCache.max_size two_entries) by reflexivity.
  assert (Hmax : (1 <= MemoryCache.max_size two_entries)%Z) by (cbn; lia).
  exact (proj1 (@least_recently_used_is_evicted nat two_entries "c"%string
                  3%nat None 0%Q Hnd Hfresh Hfull Hmax)).
Defined.

(* ================================================================== *)
(** * chunk_text loses no word *)
(* ================================================================== *)

Section ChunkWords.

Import PyStr Py RAGEngine RAGText Chunking.
Open Scope nat_scope.
Open Scope list_scope.

(** The words of a list of texts, in order. *)
Definition words_of (texts : list string) : list string :=
  List.concat (map split texts).

(** The text is empty or its last character is white space. *)
Fixpoint ends_space (s : string) : bool :=
  match s with
  | EmptyString => true
  | String c EmptyString => is_space c
  | String _ s' => ends_space s'
  end.

Lemma ends_space_app (a b : string) :
  b <> EmptyString -> ends_space (a ++ b)%string = ends_space b.
Proof.
  intros Hb. induction a as [|c a IH]; [reflexivity |].
  cbn [append]. destruct (a ++ b)%string eqn:E; [| exact IH].
  destruct a; cbn in E; [contradiction | discriminate].
Qed.

(** After white space a new word starts: the words of [a ++ b] are those of
    [a] followed by those of [b]. *)
Lemma runs_app_after_space (a b : string) :
  ends_space a = true ->
  forall cur,
    (a = EmptyString -> cur = EmptyString) ->
    runs not_space cur (a ++ b)%string
    = runs not_space cur a ++ runs not_space EmptyString b.
Proof.
  intros Hend. induction a as [|c a IH]; intros cur Hcur.
  - rewrite (Hcur eq_refl). reflexivity.
  - destruct a as [|d a].
    + cbn in Hend. cbn [append runs]. unfold not_space. rewrite Hend.
      cbn [negb flush]. now rewrite app_nil_r.
    + cbn [append runs]. destruct (not_space c).
      * apply IH; [exact Hend | discriminate].
      * rewrite <- app_assoc. f_equal. apply IH; [exact Hend | discriminate].
Qed.

Lemma split_app_after_space (a b : string) :
  ends_space a = true -> split (a ++ b)%string = split a ++ split b.
Proof. intros H. now apply runs_app_after_space. Qed.

Lemma words_of_emit (chunks : list string) (current_chunk : string) :
  words_of (emit chunks current_chunk)
  = words_of chunks ++ split current_chunk.
Proof.
  unfold emit, words_of. rewrite <- (split_strip current_chunk).
  destruct (strip current_chunk) as [|c s]; [now rewrite app_nil_r |].
  rewrite map_app, concat_app. cbn. now rewrite app_nil_r.
Qed.

Lemma paragraph_loop_words (max_chunk_tokens : nat) (rest : list string) :
  Forall (fun paragraph =>
            count_tokens word_counting paragraph <= max_chunk_tokens) rest ->
  forall chunks current_chunk,
    ends_space current_chunk = true ->
    let '(chunks', current_chunk') :=
      paragraph_loop word_counting max_chunk_tokens rest
                     chunks current_chunk in
    words_of chunks' ++ split current_chunk'
    = words_of chunks ++ split current_chunk ++ words_of rest.
Proof.
  induction 1 as [|paragraph rest Hfit Hrest IH];
    intros chunks current_chunk Hend; cbn [paragraph_loop].
  - unfold words_of. cbn. now rewrite app_nil_r.
  - destruct (Nat.ltb_spec max_chunk_tokens
                (count_tokens word_counting paragraph)); [lia |].
    assert (Hblank : all_chars is_space blank_line = true) by reflexivity.
    assert (Hends : forall s, ends_space (s ++ blank_line)%string = true)
      by (intros s; now rewrite ends_space_app).
    assert (Hwords : words_of (paragraph :: rest)
                     = split paragraph ++ words_of rest) by reflexivity.
    destruct (_ <=? _).
    + specialize (IH chunks (current_chunk ++ paragraph ++ blank_line)%string).
      destruct (paragraph_loop _ _ _ _ _) as [chunks' current_chunk'].
      rewrite IH by (rewrite ends_space_app; [apply Hends |];
                     destruct paragraph; discriminate).
      rewrite split_app_after_space by exact Hend.
      rewrite split_app_spaces by exact Hblank.
      rewrite Hwords. now rewrite <- !app_assoc.
    + specialize (IH (emit chunks current_chunk)
                     (paragraph ++ blank_line)%string).
      destruct (paragraph_loop _ _ _ _ _) as [chunks' current_chunk'].
      rewrite IH by apply Hends.
      rewrite words_of_emit, split_app_spaces by exact Hblank.
      rewrite Hwords. now rewrite <- !app_assoc.
Qed.

Lemma prefix_blank_line (c : ascii) (s : string) :
  prefix blank_line (String c s) = true ->
  exists s', c = ascii_of_nat 10 /\ s = String (ascii_of_nat 10) s'.
Proof.
  unfold blank_line, nl. cbn [append prefix].
  destruct (ascii_dec (ascii_of_nat 10) c) as [<- |]; [| discriminate].
  destruct s as [|d s']; [discriminate |]. cbn [prefix].
  destruct (ascii_dec (ascii_of_nat 10) d) as [<- |]; [| discriminate].
  intros _. now exists s'.
Qed.

(** Cutting a text at its blank lines keeps its words. *)
Lemma split_paragraphs_words (s : string) :
  (forall cur,
     words_of (split_paragraphs cur false s)
     = split (rev_string EmptyString cur ++ s)%string)
  /\ (forall cur,
        words_of (split_paragraphs cur true s)
        = split (rev_string EmptyString cur
                 ++ match s with EmptyString => s | String _ s' => s' end)
            %string).
Proof.
  induction s as [|c s [IH1 IH2]].
  - split; intros cur; unfold words_of;
      cbn [split_paragraphs map List.concat];
      now rewrite app_nil_r, string_app_nil_r.
  - split; intros cur; cbn [split_paragraphs]; [| apply IH1].
    destruct (prefix blank_line (String c s)) eqn:E.
    + apply prefix_blank_line in E. destruct E as (s' & Hc & Hs).
      unfold words_of. cbn [map List.concat].
      fold (words_of (split_paragraphs EmptyString true s)).
      rewrite IH2, Hs, Hc. cbn [rev_string append].
      change (String (ascii_of_nat 10) (String (ascii_of_nat 10) s'))
        with (blank_line ++ s')%string.
      rewrite <- string_app_assoc.
      rewrite split_app_after_space
        by (rewrite ends_space_app; [reflexivity | discriminate]).
      now rewrite split_app_spaces.
    + rewrite IH1. cbn [rev_string].
      rewrite (rev_string_acc cur (String c EmptyString)).
      now rewrite string_app_assoc.
Qed.

End ChunkWords.

(** When no single paragraph is over the limit, the chunks hold the words of
    the text, all of them and in their order (under the word-based
    estimate): chunking moves the cuts between words and nothing else. *)
Theorem chunk_text_keeps_words (text : string) (max_chunk_tokens : nat) :
  Forall (fun paragraph =>
            RAGEngine.count_tokens word_counting paragraph
            <= max_chunk_tokens)%nat
         (Chunking.split_paragraphs EmptyString false text) ->
  List.concat
    (map PyStr.split (Chunking.chunk_text word_counting text max_chunk_tokens))
  = PyStr.split text.
Proof.
  intros Hfit. unfold Chunking.chunk_text.
  destruct (_ <=? _)%nat; [cbn; apply app_nil_r |].
  pose proof (@paragraph_loop_words max_chunk_tokens _ Hfit [] EmptyString
                                    eq_refl) as H.
  destruct (Chunking.paragraph_loop _ _ _ _ _) as [chunks current_chunk].
  fold (words_of (Chunking.emit chunks current_chunk)).
  rewrite words_of_emit, H. cbn [words_of map List.concat app].
  fold (words_of (Chunking.split_paragraphs EmptyString false text)).
  now rewrite (proj1 (split_paragraphs_words text) EmptyString).
Qed.

(** Two paragraphs of two words each, under a limit of three tokens. *)
Lemma chunk_text_keeps_words_witness :
  let text := ("a b" ++ Chunking.blank_line ++ "c d")%string in
  Chunking.chunk_text word_counting text 3 = ["a b"; "c d"]%string
  /\ List.concat (map PyStr.split (Chunking.chunk_text word_counting text 3))
     = PyStr.split text.
Proof.
  intros text. split; [reflexivity |].
  apply (@chunk_text_keeps_words text 3%nat).
  repeat constructor.
Defined.

(* ================================================================== *)
(** * The Jaccard scorer: when it gives 1 and when it gives 0 *)
(* ================================================================== *)

Section JaccardExtremes.

Import PyStr Py SimilarityEngine.
Open Scope nat_scope.
Open Scope list_scope.

Lemma filter_all {A} (p : A -> bool) (l : list A) :
  List.length (filter p l) = List.length l <-> forall x, In x l -> p x = true.
Proof.
  induction l as [|y l IH]; cbn; [tauto |].
  pose proof (filter_length_le p l) as Hle.
  destruct (p y) eqn:E; cbn.
  - split.
    + intros H x [<- | Hx]; [exact E |]. apply IH; [lia | exact Hx].
    + intros H. f_equal. apply IH. intros x Hx. apply H. now right.
  - split; [lia |]. intros H. specialize (H y (or_introl eq_refl)). congruence.
Qed.

Lemma filter_none {A} (p : A -> bool) (l : list A) :
  List.length (filter p l) = 0 <-> forall x, In x l -> p x = false.
Proof.
  induction l as [|y l IH]; cbn; [tauto |].
  destruct (p y) eqn:E; cbn.
  - split; [lia |]. intros H. specialize (H y (or_introl eq_refl)). congruence.
  - rewrite IH. split.
    + intros H x [<- | Hx]; [exact E | now apply H].
    + intros H x Hx. apply H. now right.
Qed.

(** The sizes of intersection and union agree exactly when the two sets have
    the same elements. *)
Lemma inter_union_same (a b : list string) :
  List.length (inter a b) = List.length (PyStr.union a b)
  <-> forall w, In w a <-> In w b.
Proof.
  unfold inter, PyStr.union. rewrite length_app.
  pose proof (filter_length_le (fun x => mem x b) a) as Hle.
  split.
  - intros H.
    assert (H1 : List.length (filter (fun x => mem x b) a) = List.length a)
      by lia.
    assert (H2 : List.length (filter (fun x => negb (mem x a)) b) = 0) by lia.
    rewrite filter_all in H1. rewrite filter_none in H2.
    intros w. split; intros Hw.
    + now apply mem_In, H1.
    + apply mem_In. specialize (H2 w Hw). now apply negb_false_iff in H2.
  - intros H.
    assert (H1 : List.length (filter (fun x => mem x b) a) = List.length a).
    { apply filter_all. intros x Hx. now apply mem_In, H. }
    assert (H2 : List.length (filter (fun x => negb (mem x a)) b) = 0).
    { apply filter_none. intros x Hx. apply negb_false_iff.
      now apply mem_In, H. }
    lia.
Qed.

Lemma inter_empty (a b : list string) :
  List.length (inter a b) = 0 <-> forall w, In w a -> ~ In w b.
Proof.
  unfold inter. rewrite filter_none. split; intros H w Hw.
  - intros Hb. apply mem_In in Hb. specialize (H w Hw). congruence.
  - destruct (mem w b) eqn:E; [| reflexivity].
    apply mem_In in E. now destruct (H w Hw).
Qed.

Lemma ratio_one (i u : nat) : 0 < u -> (INR i / INR u = 1)%R <-> i = u.
Proof.
  intros Hu. apply lt_0_INR in Hu. split.
  - intros H. apply INR_eq.
    replace (INR i) with (INR i / INR u * INR u)%R by (field; lra).
    rewrite H. lra.
  - intros ->. field. lra.
Qed.

Lemma ratio_zero (i u : nat) : 0 < u -> (INR i / INR u = 0)%R <-> i = 0.
Proof.
  intros Hu. apply lt_0_INR in Hu. split.
  - intros H. apply INR_eq.
    replace (INR i) with (INR i / INR u * INR u)%R by (field; lra).
    rewrite H. cbn. lra.
  - intros ->. cbn. field. lra.
Qed.

(** The token set of a document as the Jaccard scorer reads it. *)
Definition document_tokens (doc : Doc) : list string :=
  to_set (preprocess_text (content doc ++ " " ++ title doc)).

(** The Jaccard score of a document is 1 exactly when the query has tokens
    and the document has the same set of tokens, and 0 exactly when the two
    token sets share nothing. *)
Theorem jaccard_extremes (q : string) (documents : list Doc) :
  let query_tokens := to_set (preprocess_text q) in
  Forall (fun ds =>
            (snd ds = 1%R
             <-> query_tokens <> []
                 /\ forall w, In w query_tokens
                              <-> In w (document_tokens (fst ds)))
            /\ (snd ds = 0%R
                <-> forall w, In w query_tokens ->
                              ~ In w (document_tokens (fst ds))))
         (calculate_jaccard_similarity q documents).
Proof.
  intros query_tokens. unfold calculate_jaccard_similarity.
  fold query_tokens. destruct query_tokens as [|x xs] eqn:Eq.
  - apply Forall_map, Forall_forall. intros doc _. cbn [fst snd]. split.
    + split; [intros H; exfalso; lra | intros [H _]; now contradiction H].
    + split; [intros _ w [] | reflexivity].
  - apply Forall_map, Forall_forall. intros doc _.
    fold (document_tokens doc).
    destruct (document_tokens doc) as [|y ys] eqn:Ed; cbn [fst snd].
    + rewrite Ed. split.
      * split; [intros H; exfalso; lra |].
        intros [_ H]. destruct (proj1 (H x) (or_introl eq_refl)).
      * split; [intros _ w _ [] | reflexivity].
    + rewrite Ed.
      assert (Hu : 0 < List.length (PyStr.union (x :: xs) (y :: ys)))
        by (unfold PyStr.union; cbn; lia).
      destruct (Nat.ltb_spec 0 (List.length (PyStr.union (x :: xs) (y :: ys))));
        [| lia].
      rewrite (ratio_one _ Hu), (ratio_zero _ Hu).
      rewrite inter_union_same, inter_empty. split; [| tauto].
      split; [intros Hsame; split; [discriminate | exact Hsame] | tauto].
Qed.

End JaccardExtremes.

(* ================================================================== *)
(** * Hybrid fusion of results that carry no chunk identifier *)
(* ================================================================== *)

Section FusionByPosition.

Import PyStr Py AdvancedRAGEngine.
Open Scope nat_scope.
Open Scope list_scope.

(** The number a string of decimal digits stands for, after [a]. *)
Fixpoint digits_value (a : nat) (s : string) : nat :=
  match s with
  | EmptyString => a
  | String c s' => digits_value (10 * a + (nat_of_ascii c - 48)) s'
  end.

Lemma digit_char_value (d : nat) :
  d < 10 -> nat_of_ascii (digit_char d) - 48 = d.
Proof.
  intros H. unfold digit_char. rewrite nat_ascii_embedding; lia.
Qed.

Lemma nat_digits_value (fuel : nat) :
  forall n acc,
    n < fuel ->
    digits_value 0 (nat_digits fuel n acc) = digits_value n acc.
Proof.
  induction fuel as [|fuel IH]; intros n acc Hn; [lia |].
  cbn [nat_digits].
  pose proof (Nat.div_mod_eq n 10) as Hdm.
  pose proof (Nat.mod_upper_bound n 10 ltac:(lia)) as Hmod.
  destruct (Nat.eqb_spec (n / 10) 0) as [Hz | Hnz].
  - cbn [digits_value]. rewrite digit_char_value by exact Hmod.
    f_equal. lia.
  - rewrite IH by lia. cbn [digits_value].
    rewrite digit_char_value by exact Hmod. f_equal. lia.
Qed.

(** [str(n)] is read back as [n], so different numbers print differently. *)
Lemma str_of_nat_value (n : nat) : digits_value 0 (str_of_nat n) = n.
Proof. unfold str_of_nat. now rewrite nat_digits_value by lia. Qed.

Definition default_chunk_id (i : nat) : string :=
  ("chunk_" ++ str_of_nat i)%string.

Lemma default_chunk_id_inj (i j : nat) :
  default_chunk_id i = default_chunk_id j -> i = j.
Proof.
  unfold default_chunk_id. cbn [append]. intros H. inversion H as [Hs].
  rewrite <- (str_of_nat_value i), <- (str_of_nat_value j). now rewrite Hs.
Qed.

Definition no_chunk_id (results : list RawResult) : Prop :=
  Forall (fun r => raw_chunk_id r = None) results.

(** Without identifiers of their own, the converted results are named after
    their positions. *)
Lemma convert_all_positions (alg : SearchAlgorithm) (d : Q)
    (extra : list (string * string)) (results : list RawResult) :
  no_chunk_id results ->
  forall i r,
    nth_error (convert_all alg d extra results) i = Some r ->
    chunk_id r = default_chunk_id i
    /\ exists raw, nth_error results i = Some raw
                   /\ r = convert alg d extra i raw.
Proof.
  unfold convert_all, no_chunk_id.
  assert (H : forall k, Forall (fun r => raw_chunk_id r = None) results ->
              forall i r,
                nth_error
                  (map (fun ir => convert alg d extra (fst ir) (snd ir))
                       (combine (seq k (List.length results)) results)) i
                = Some r ->
                chunk_id r = default_chunk_id (k + i)
                /\ exists raw, nth_error results i = Some raw
                               /\ r = convert alg d extra (k + i) raw).
  { induction results as [|x results IH]; intros k Hall i r Hi.
    - destruct i; discriminate.
    - inversion Hall as [| ? ? Hx Hrest]; subst.
      destruct i as [|i]; cbn in Hi.
      + inversion Hi; subst. rewrite Nat.add_0_r. split.
        * cbn. now rewrite Hx.
        * now exists x.
      + destruct (IH (S k) Hrest i r Hi) as (Hid & raw & Hraw & Hr).
        replace (k + S i) with (S k + i) by lia.
        split; [exact Hid |]. now exists raw. }
  intros Hall i r Hi. exact (H 0 Hall i r Hi).
Qed.

Lemma convert_all_length (alg : SearchAlgorithm) (d : Q)
    (extra : list (string * string)) (results : list RawResult) :
  List.length (convert_all alg d extra results) = List.length results.
Proof.
  unfold convert_all.
  now rewrite length_map, length_combine, length_seq, Nat.min_id.
Qed.

Lemma positional_ids (alg : SearchAlgorithm) (d : Q)
    (extra : list (string * string)) (results : list RawResult) (c : string) :
  no_chunk_id results ->
  In c (map chunk_id (convert_all alg d extra results))
  <-> exists i, i < List.length results /\ c = default_chunk_id i.
Proof.
  intros Hall. split.
  - intros Hin. apply in_map_iff in Hin. destruct Hin as (r & <- & Hr).
    apply In_nth_error in Hr. destruct Hr as (i & Hi).
    exists i. split.
    + rewrite <- (convert_all_length alg d extra results).
      apply nth_error_Some. congruence.
    + exact (proj1 (convert_all_positions alg d extra Hall i Hi)).
  - intros (i & Hi & ->).
    rewrite <- (convert_all_length alg d extra results) in Hi.
    apply nth_error_Some in Hi.
    destruct (nth_error (convert_all alg d extra results) i) as [r |] eqn:E;
      [| contradiction].
    apply in_map_iff. exists r. split.
    + exact (proj1 (convert_all_positions alg d extra Hall i E)).
    + eapply nth_error_In, E.
Qed.

(** The score of the only result named after position [i]. *)
Lemma last_score_position (alg : SearchAlgorithm) (d : Q)
    (extra : list (string * string)) (results : list RawResult)
    (i : nat) (r : SearchResult) :
  no_chunk_id results ->
  nth_error (convert_all alg d extra results) i = Some r ->
  last_score (convert_all alg d extra results) (default_chunk_id i)
  = similarity_score r.
Proof.
  intros Hall Hi. unfold last_score, find_last.
  set (l := convert_all alg d extra results) in *.
  destruct (find _ (rev l)) as [r' |] eqn:E.
  - apply find_some in E. destruct E as [Hin Heq].
    apply String.eqb_eq in Heq. apply in_rev, In_nth_error in Hin.
    destruct Hin as (j & Hj).
    destruct (convert_all_positions alg d extra Hall j Hj) as [Hid _].
    rewrite Hid in Heq. apply default_chunk_id_inj in Heq. subst j.
    fold l in Hj. congruence.
  - exfalso. pose proof (find_none _ _ E r) as Hn. cbn in Hn.
    rewrite (proj1 (convert_all_positions alg d extra Hall i Hi)) in Hn.
    rewrite String.eqb_refl in Hn.
    assert (Hin : In r (rev l))
      by (apply (proj1 (in_rev l r)); eapply nth_error_In, Hi).
    specialize (Hn Hin). discriminate.
Qed.

End FusionByPosition.

Section FusionPairs.

Import PyStr Py AdvancedRAGEngine.
Open Scope nat_scope.
Open Scope list_scope.

(** Results of the base engine carry no chunk identifier (its dictionaries
    have no such key), so each converted result is named after its position
    in its own list.  Fusion then pairs the semantic and the keyword result
    that sit at the same position, whatever documents they are: it returns
    as many results as the longer of the two lists has, and the result for
    position [i] scores 0.7 times the [i]-th semantic score plus 0.3 times
    the [i]-th keyword score. *)
Theorem fusion_pairs_by_position (semantic keyword : list RawResult)
    (ds dk : Q) (es ek : list (string * string)) :
  no_chunk_id semantic -> no_chunk_id keyword ->
  let semantic_results := convert_all SEMANTIC ds es semantic in
  let keyword_results := convert_all KEYWORD dk ek keyword in
  let combined := _combine_search_results semantic_results keyword_results in
  List.length combined
  = Nat.max (List.length semantic) (List.length keyword)
  /\ (forall i s k,
         nth_error semantic_results i = Some s ->
         nth_error keyword_results i = Some k ->
         exists r,
           In r combined
           /\ chunk_id r = default_chunk_id i
           /\ similarity_score r
              = (similarity_score s * (7 # 10)
                 + similarity_score k * (3 # 10))%Q).
Proof.
  intros Hs Hk semantic_results keyword_results combined.
  subst combined. unfold _combine_search_results.
  set (m := fold_left add_keyword keyword_results
                      (fold_left add_semantic semantic_results [])).
  destruct (fused_all semantic_results keyword_results)
    as (Hnd & Hkeys & Hfind).
  fold m in Hnd, Hkeys, Hfind.
  set (g := fun kd : string * ChunkData =>
              with_score (cd_result (snd kd)) (combined_score (snd kd))).
  assert (Hperm : Permutation (map g m) (sorted_by_score (map g m))).
  { rewrite sorted_by_score_sorted. apply sort_sorted_perm. }
  split.
  - rewrite <- (Permutation_length Hperm), length_map.
    rewrite <- (length_map fst m).
    set (n := Nat.max (List.length semantic) (List.length keyword)).
    transitivity (List.length (map default_chunk_id (seq 0 n)));
      [| now rewrite length_map, length_seq].
    apply Permutation_length, NoDup_Permutation; [exact Hnd | |].
    + apply Injective_map_NoDup; [| apply seq_NoDup].
      intros i j. apply default_chunk_id_inj.
    + intros c. rewrite Hkeys.
      subst semantic_results keyword_results.
      rewrite !positional_ids by assumption.
      rewrite in_map_iff. split.
      * intros [(i & Hi & ->) | (i & Hi & ->)]; exists i;
          (split; [reflexivity | apply in_seq; lia]).
      * intros (i & <- & Hi). apply in_seq in Hi.
        destruct (Nat.lt_ge_cases i (List.length semantic)) as [Hlt | Hge].
        -- left. now exists i.
        -- right. exists i. split; [lia | reflexivity].
  - intros i s k Hi Hj.
    assert (Hin : In (default_chunk_id i) (map fst m)).
    { apply Hkeys. left. apply in_map_iff. exists s. split.
      - exact (proj1 (convert_all_positions SEMANTIC ds es Hs i Hi)).
      - eapply nth_error_In, Hi. }
    apply in_map_iff in Hin. destruct Hin as ([c d] & Hc & Hin).
    cbn [fst] in Hc. subst c.
    destruct (Hfind _ _ (@map_find_In m _ d Hnd Hin)) as (Hsem & Hkw & Hid).
    exists (g (default_chunk_id i, d)). split; [| split].
    + apply (Permutation_in _ Hperm). now apply in_map.
    + exact Hid.
    + subst g. cbn [snd with_score similarity_score].
      unfold combined_score. rewrite Hsem, Hkw.
      subst semantic_results keyword_results.
      now rewrite (@last_score_position SEMANTIC ds es semantic i s Hs Hi),
        (@last_score_position KEYWORD dk ek keyword i k Hk Hj).
Qed.

End FusionPairs.

(** A result dictionary of the base engine: content and score, no chunk
    identifier. *)
Definition bare (content : string) (score : Q) : AdvancedRAGEngine.RawResult :=
  {| AdvancedRAGEngine.raw_content := Some content;
     AdvancedRAGEngine.raw_title := None;
     AdvancedRAGEngine.raw_source := None;
     AdvancedRAGEngine.raw_similarity_score := Some score;
     AdvancedRAGEngine.raw_metadata := [];
     AdvancedRAGEngine.raw_metadata_score := None;
     AdvancedRAGEngine.raw_chunk_id := None;
     AdvancedRAGEngine.raw_document_id := None |}.

(** Two semantic hits and one keyword hit on a third document: two results
    come back, the keyword hit fused into the first semantic hit. *)
Lemma fusion_pairs_by_position_witness :
  List.length
    (AdvancedRAGEngine._combine_search_results
       (AdvancedRAGEngine.convert_all
          AdvancedRAGEngine.SEMANTIC (8 # 10) []
          [bare "alpha" (9 # 10); bare "beta" (5 # 10)])
       (AdvancedRAGEngine.convert_all
          AdvancedRAGEngine.KEYWORD (7 # 10) [] [bare "gamma" 1]))
  = 2%nat.
Proof.
  assert (Hs : no_chunk_id [bare "alpha" (9 # 10); bare "beta" (5 # 10)])
    by (repeat constructor).
  assert (Hk : no_chunk_id [bare "gamma" 1]) by (repeat constructor).
  exact (proj1 (@fusion_pairs_by_position _ _ (8 # 10) (7 # 10) [] [] Hs Hk)).
Defined.
